(** * alpha-hub: message log, turn orchestrator and streaming session

    A shallow embedding of
      - [alpha_hub/storage/db.py]        (module [Db]),
      - [alpha_hub/api/http.py]          (module [Http]),
      - [alpha_hub/core/orchestrator.py] (module [Orchestrator]),
      - [alpha_hub/api/ws.py]            (module [Ws]),
    together with the properties the specification states about them.

    Conventions.
      - A Python [str] is a Rocq [string]; characters are code points below
        256.  SQLite compares TEXT with the BINARY collation, which on such
        strings is [String.compare].
      - [Optional[str]] is [option string]; Python truthiness of such a
        value ([if x:], [x or y]) is [truthy]: neither [None] nor [""].
      - Effects (the SQLite table, the event bus, the callbacks handed to
        [run_turn], the clock and the identifier generator) are threaded
        through the state-and-exception monad [M] over [World]. *)

From Stdlib Require Import List String Ascii Bool Arith ZArith NArith Lia.
From Stdlib Require Import Sorted Permutation.
Import ListNotations.

Set Implicit Arguments.

Local Open Scope string_scope.
Local Open Scope list_scope.

(* ===================================================================== *)
(** * Python strings *)
(* ===================================================================== *)

Module PyStr.

(** [bool(x)] for [x : Optional[str]]. *)
Definition truthy (x : option string) : bool :=
  match x with
  | Some s => negb (String.eqb s "")
  | None => false
  end.

(** [x or y] for [x : Optional[str]] and [y : str]. *)
Definition or_else (x : option string) (y : string) : string :=
  match x with
  | Some s => if String.eqb s "" then y else s
  | None => y
  end.

Definition opt_eqb (x y : option string) : bool :=
  match x, y with
  | Some a, Some b => String.eqb a b
  | None, None => true
  | _, _ => false
  end.

(** [c.isspace()] on code points below 256: TAB, LF, VT, FF, CR,
    FS, GS, RS, US, SPACE, NEL (0x85) and NBSP (0xA0). *)
Definition isspace (c : ascii) : bool :=
  let n := nat_of_ascii c in
  (((9 <=? n) && (n <=? 13)) || ((28 <=? n) && (n <=? 32))
   || (n =? 133) || (n =? 160))%nat.

(** [s.split()]: the maximal runs of non-whitespace characters.
    [cur] is the word being read, if any. *)
Fixpoint split_from (cur : option string) (s : string) : list string :=
  match s with
  | EmptyString =>
      match cur with Some w => [w] | None => [] end
  | String c rest =>
      if isspace c then
        match cur with
        | Some w => w :: split_from None rest
        | None => split_from None rest
        end
      else
        match cur with
        | Some w => split_from (Some (w ++ String c "")%string) rest
        | None => split_from (Some (String c "")) rest
        end
  end.

Definition split (s : string) : list string := split_from None s.

(** ["".join(parts)]. *)
Definition join (parts : list string) : string :=
  fold_right String.append "" parts.

End PyStr.

(* ===================================================================== *)
(** * Data model *)
(* ===================================================================== *)

(** An attachment reference, [AttachmentRef]: its [id]. *)
Definition AttachmentRef := string.

(** An element of the list a message is stored with,
    [list[dict[str, Any]]]: a dictionary that [AttachmentRef.model_validate]
    accepts, which is what [model_dump] makes of a reference, or any other
    value. *)
Inductive AttachmentDict :=
| RefDict (ref : AttachmentRef)
| NotRef.

(** [storage/db.py], [MessageRow]. *)
Record MessageRow := mkMessageRow {
  message_id : string;
  conversation_id : string;
  role : string;
  content_text : string;
  created_at_utc : string;
  client_request_id : option string;
  attachments : list AttachmentDict
}.

(** The content of the column [attachments_json], up to what
    [json.loads] makes of it: the text [json.dumps] wrote for a list reads
    back as that list; any other content (the empty text, text that is not
    JSON, JSON that is not a list) is [JsonOther]. *)
Inductive JsonText :=
| JsonList (items : list AttachmentDict)
| JsonOther.

Definition json_dumps (items : list AttachmentDict) : JsonText := JsonList items.

(** A row of the table [messages] (see [SCHEMA]). *)
Record Row := mkRow {
  col_message_id : string;
  col_conversation_id : string;
  col_role : string;
  col_content_text : string;
  col_created_at_utc : string;
  col_client_request_id : option string;
  col_attachments_json : JsonText
}.

(** [events/models.py], [EventEnvelope]; the payload dictionary is an
    association list. *)
Record EventEnvelope := mkEventEnvelope {
  event_id : string;
  ev_trace_id : string;
  occurred_at_utc : string;
  producer : string;
  ev_type : string;
  version : Z;
  privacy : string;
  notify_policy : string;
  payload : list (string * string);
  idempotency_key : option string
}.

(** One invocation of a callback handed to [run_turn]. *)
Inductive Callback :=
| OnStatus (stage : string)
| OnDelta (delta : string).

(* ===================================================================== *)
(** * The world and the monad of effects *)
(* ===================================================================== *)

(** Everything the code reads or updates outside its arguments.
    [id_source] and [clock_source] are the values [new_id()] and
    [utc_now_iso()] return on their successive calls; [bus_log] is what was
    handed to [InProcessEventBus.publish], in order; [callbacks] is the
    sequence of callback invocations made by [run_turn]; the callbacks and
    the subscribers of the bus are taken to return normally. *)
Record World := mkWorld {
  messages : list Row;
  bus_log : list (string * EventEnvelope);
  callbacks : list Callback;
  id_source : nat -> string;
  ids_drawn : nat;
  clock_source : nat -> string;
  clock_reads : nat
}.

Definition set_messages (w : World) (t : list Row) : World :=
  mkWorld t (bus_log w) (callbacks w)
          (id_source w) (ids_drawn w) (clock_source w) (clock_reads w).

Definition set_bus_log (w : World) (b : list (string * EventEnvelope)) : World :=
  mkWorld (messages w) b (callbacks w)
          (id_source w) (ids_drawn w) (clock_source w) (clock_reads w).

Definition set_callbacks (w : World) (c : list Callback) : World :=
  mkWorld (messages w) (bus_log w) c
          (id_source w) (ids_drawn w) (clock_source w) (clock_reads w).

Definition set_ids_drawn (w : World) (n : nat) : World :=
  mkWorld (messages w) (bus_log w) (callbacks w)
          (id_source w) n (clock_source w) (clock_reads w).

Definition set_clock_reads (w : World) (n : nat) : World :=
  mkWorld (messages w) (bus_log w) (callbacks w)
          (id_source w) (ids_drawn w) (clock_source w) n.

(** Exceptions that leave the modelled functions. *)
Inductive Exn :=
| IntegrityError          (* sqlite3.IntegrityError: a constraint of SCHEMA failed *)
| ApiError (code message : string)   (* common/errors.py *)
| RequestValidationError  (* a Query(...) bound of the endpoint is not met *)
| IndexError
| OverflowError           (* sqlite3: a Python int that is no 64-bit integer *)
| ValidationError         (* pydantic: a model refuses the value of a field *)
| ValueError.             (* os.environ: a name or value holds a NUL *)

Inductive Result (A : Type) :=
| Ok (a : A)
| Raised (e : Exn).
Arguments Raised {A} e.

(** State and exceptions, over a state [St]. *)
Definition Eff (St A : Type) : Type := St -> Result A * St.

Definition ret {St A} (a : A) : Eff St A := fun w => (Ok a, w).

Definition bind {St A B} (c : Eff St A) (k : A -> Eff St B) : Eff St B :=
  fun w =>
    match c w with
    | (Ok a, w') => k a w'
    | (Raised e, w') => (Raised e, w')
    end.

Definition raise {St A} (e : Exn) : Eff St A := fun w => (Raised e, w).

Definition gets {St A} (f : St -> A) : Eff St A := fun w => (Ok (f w), w).

Definition modify {St} (f : St -> St) : Eff St unit := fun w => (Ok tt, f w).

(** A computation that reads the state and may raise. *)
Definition attempt {St A} (f : St -> Result A) : Eff St A := fun w => (f w, w).

(** [[f(x) for x in l]], where [f] may raise. *)
Fixpoint each {A B} (f : A -> Result B) (l : list A) : Result (list B) :=
  match l with
  | [] => Ok []
  | x :: rest =>
      match f x with
      | Raised e => Raised e
      | Ok y =>
          match each f rest with
          | Raised e => Raised e
          | Ok ys => Ok (y :: ys)
          end
      end
  end.

(** The effects of the store, the bus, the clock and the identifiers. *)
Definition M (A : Type) : Type := Eff World A.

Declare Scope m_scope.
Delimit Scope m_scope with M.
Notation "x <- c ;; k" := (bind c (fun x => k))
  (at level 61, c at next level, right associativity) : m_scope.
Notation "c ;;; k" := (bind c (fun _ => k))
  (at level 61, right associativity) : m_scope.

(** [common/time_util.py], [utc_now_iso]: the next reading of the clock. *)
Definition utc_now_iso : M string :=
  fun w => (Ok (clock_source w (clock_reads w)),
            set_clock_reads w (S (clock_reads w))).

(** [common/trace.py], [new_id]: the next generated identifier. *)
Definition new_id : M string :=
  fun w => (Ok (id_source w (ids_drawn w)),
            set_ids_drawn w (S (ids_drawn w))).

(** [common/trace.py], [new_trace_id]. *)
Definition new_trace_id : M string := new_id.

(** [events/bus.py], [publish]: subscribers are external; the bus records
    what it was given. *)
Definition publish (topic : string) (env : EventEnvelope) : M unit :=
  modify (fun w => set_bus_log w (bus_log w ++ [(topic, env)])).

(* ===================================================================== *)
(** * storage/db.py *)
(* ===================================================================== *)

Module Db.

(** [_row_to_message]. *)
Definition row_to_message (row : Row) : MessageRow :=
  let att :=
    match col_attachments_json row with
    | JsonList items => items
    | JsonOther => []
    end in
  {| message_id := col_message_id row;
     conversation_id := col_conversation_id row;
     role := col_role row;
     content_text := col_content_text row;
     created_at_utc := col_created_at_utc row;
     client_request_id := col_client_request_id row;
     attachments := att |}.

(** ** Constraints of [SCHEMA] *)

(** [message_id TEXT PRIMARY KEY]. *)
Definition violates_primary_key (t : list Row) (r : Row) : bool :=
  existsb (fun x => String.eqb (col_message_id x) (col_message_id r)) t.

(** [CREATE UNIQUE INDEX idx_messages_idempotent
     ON messages(conversation_id, client_request_id)
     WHERE client_request_id IS NOT NULL]. *)
Definition violates_idx_messages_idempotent (t : list Row) (r : Row) : bool :=
  match col_client_request_id r with
  | None => false
  | Some k =>
      existsb (fun x =>
                 String.eqb (col_conversation_id x) (col_conversation_id r)
                 && PyStr.opt_eqb (col_client_request_id x) (Some k)) t
  end.

(** [INSERT INTO messages ... ; commit]: the row is appended unless a
    constraint fails, in which case nothing is written. *)
Definition INSERT (r : Row) : M unit :=
  fun w =>
    if violates_primary_key (messages w) r
       || violates_idx_messages_idempotent (messages w) r
    then (Raised IntegrityError, w)
    else (Ok tt, set_messages w (messages w ++ [r])).

(** [SELECT * FROM messages WHERE conversation_id=? AND
    client_request_id=?], [fetchone()]. *)
Definition select_by_request (cid key : string) : M (option Row) :=
  gets (fun w =>
          find (fun x =>
                  String.eqb (col_conversation_id x) cid
                  && PyStr.opt_eqb (col_client_request_id x) (Some key))
               (messages w)).

(** [SqliteStore.create_message]. *)
Definition create_message
           (message_id conversation_id role content_text : string)
           (client_request_id : option string)
           (attachments : option (list AttachmentDict)) : M MessageRow :=
  (created_at_utc <- utc_now_iso ;;
   let attachments := match attachments with Some l => l | None => [] end in
   let attachments_json := json_dumps attachments in
   row <- (if PyStr.truthy client_request_id
           then select_by_request conversation_id
                                  (PyStr.or_else client_request_id "")
           else ret None) ;;
   match row with
   | Some row => ret (row_to_message row)
   | None =>
       INSERT (mkRow message_id conversation_id role content_text
                     created_at_utc client_request_id attachments_json) ;;;
       ret (mkMessageRow message_id conversation_id role content_text
                         created_at_utc client_request_id attachments)
   end)%M.

(** [SqliteStore.get_message]: [SELECT * FROM messages WHERE
    message_id=?], [fetchone()]. *)
Definition get_message (t : list Row) (message_id : string)
  : option MessageRow :=
  option_map row_to_message
    (find (fun x => String.eqb (col_message_id x) message_id) t).

(** ** [ORDER BY] and [LIMIT] *)

Section OrderBy.
Variable le : Row -> Row -> bool.

Fixpoint insert_row (x : Row) (l : list Row) : list Row :=
  match l with
  | [] => [x]
  | y :: l' => if le x y then x :: l else y :: insert_row x l'
  end.

(** A stable sort of the scanned rows.  SQL leaves the order of rows
    with equal keys open; nothing proved below depends on it. *)
Definition order_by (l : list Row) : list Row :=
  fold_right insert_row [] l.
End OrderBy.

Definition created_asc (x y : Row) : bool :=
  String.leb (col_created_at_utc x) (col_created_at_utc y).

Definition created_desc (x y : Row) : bool :=
  String.leb (col_created_at_utc y) (col_created_at_utc x).

(** [LIMIT n]: a negative [n] means no limit in SQLite. *)
Definition sql_limit (n : Z) (l : list Row) : list Row :=
  if (n <? 0)%Z then l else firstn (Z.to_nat n) l.

(** The [WHERE] clause built by [list_messages]. *)
Definition where_clause (cid : string) (before_created_at_utc : option string)
           (x : Row) : bool :=
  String.eqb (col_conversation_id x) cid
  && (if PyStr.truthy before_created_at_utc
      then String.ltb (col_created_at_utc x)
                      (PyStr.or_else before_created_at_utc "")
      else true).

(** What the statement of [list_messages] selects, as the messages
    [list_messages] makes of the rows. *)
Definition select_messages (t : list Row) (cid : string)
           (limit : option Z) (before_created_at_utc : option string)
  : list MessageRow :=
  let scanned := filter (where_clause cid before_created_at_utc) t in
  match limit with
  | None => map row_to_message (order_by created_asc scanned)
  | Some n =>
      (* newest first then reverse *)
      let rows := sql_limit n (order_by created_desc scanned) in
      rev (map row_to_message rows)
  end.

(** A Python [int] that [sqlite3] binds to a parameter: a 64-bit signed
    integer.  For any other, [execute] raises [OverflowError]. *)
Definition sqlite_int (n : Z) : bool :=
  ((- 2 ^ 63 <=? n) && (n <? 2 ^ 63))%Z.

(** [SqliteStore.list_messages], on the table it reads; [limit] is the
    last parameter of the statement. *)
Definition list_messages (t : list Row) (cid : string)
           (limit : option Z) (before_created_at_utc : option string)
  : Result (list MessageRow) :=
  match limit with
  | None => Ok (select_messages t cid None before_created_at_utc)
  | Some n =>
      if sqlite_int n
      then Ok (select_messages t cid (Some n) before_created_at_utc)
      else Raised OverflowError
  end.

End Db.


(* ===================================================================== *)
(** * api/http.py *)
(* ===================================================================== *)

Module Http.

(** [models.py], [MessageRecord]. *)
Record MessageRecord := mkMessageRecord {
  id : string;
  rec_conversation_id : string;
  rec_role : string;
  rec_content_text : string;
  rec_created_at_utc : string;
  rec_client_request_id : option string;
  rec_attachments : list AttachmentRef
}.

(** [models.py], [MessageListResult]. *)
Record MessageListResult := mkMessageListResult {
  items : list MessageRecord;
  next_before : option string
}.

(** [models.py], [OkEnvelope]. *)
Record OkEnvelope (A : Type) := ok {
  env_trace_id : string;
  data : A
}.

(** [Role = Literal["user", "assistant", "system"]]. *)
Definition is_role (s : string) : bool :=
  String.eqb s "user" || String.eqb s "assistant" || String.eqb s "system".

(** [AttachmentRef.model_validate(a)]. *)
Definition model_validate (a : AttachmentDict) : Result AttachmentRef :=
  match a with
  | RefDict ref => Ok ref
  | NotRef => Raised ValidationError
  end.

(** [MessageRecord(id=r.message_id, ..., role=r.role, ...,
    attachments=[AttachmentRef.model_validate(a) for a in r.attachments])]:
    the attachments are validated first, then the model refuses a role
    outside [Role]. *)
Definition to_record (r : MessageRow) : Result MessageRecord :=
  match each model_validate (attachments r) with
  | Raised e => Raised e
  | Ok refs =>
      if is_role (role r)
      then Ok {| id := message_id r;
                 rec_conversation_id := conversation_id r;
                 rec_role := role r;
                 rec_content_text := content_text r;
                 rec_created_at_utc := created_at_utc r;
                 rec_client_request_id := client_request_id r;
                 rec_attachments := refs |}
      else Raised ValidationError
  end.

(** [POST /messages]. *)
Definition post_message (body_conversation_id body_content_text : string)
           (body_attachments : list AttachmentRef)
           (body_client_request_id : option string)
  : M (OkEnvelope MessageRecord) :=
  (trace_id <- new_trace_id ;;
   mid <- new_id ;;
   let attachments := map RefDict body_attachments in
   row <- Db.create_message mid body_conversation_id "user" body_content_text
                            body_client_request_id (Some attachments) ;;
   msg <- attempt (fun _ => to_record row) ;;
   ret (ok trace_id msg))%M.

(** [items[-1]]. *)
Definition last_item (l : list MessageRecord) : M MessageRecord :=
  match rev l with
  | x :: _ => ret x
  | [] => raise IndexError
  end.

(** [GET /conversations/{conversation_id}/messages];
    [limit: int = Query(default=50, ge=1, le=200)]. *)
Definition list_messages (conversation_id : string) (limit : option Z)
           (before : option string) : M (OkEnvelope MessageListResult) :=
  (let limit := match limit with Some n => n | None => 50%Z end in
   if negb ((1 <=? limit)%Z && (limit <=? 200)%Z)
   then raise RequestValidationError
   else
     trace_id <- new_trace_id ;;
     before_ts <- (if PyStr.truthy before
                   then
                     row <- gets (fun w =>
                                    Db.get_message (messages w)
                                                   (PyStr.or_else before "")) ;;
                     match row with
                     | None => raise (ApiError "NOT_FOUND"
                                               "before message not found")
                     | Some row => ret (Some (created_at_utc row))
                     end
                   else ret None) ;;
     rows <- attempt (fun w => Db.list_messages (messages w) conversation_id
                                                (Some limit) before_ts) ;;
     items <- attempt (fun _ => each to_record rows) ;;
     next_before <- (if (Z.of_nat (List.length items) =? limit)%Z
                     then x <- last_item items ;; ret (Some (id x))
                     else ret None) ;;
     ret (ok trace_id (mkMessageListResult items next_before)))%M.

End Http.


(* ===================================================================== *)
(** * core/orchestrator.py *)
(* ===================================================================== *)

Module Orchestrator.

(** [capabilities/interfaces.py], [ChatMessage]. *)
Record ChatMessage := mkChatMessage {
  chat_role : string;
  chat_content_text : string
}.

(** What the asynchronous iterator returned by [LlmProvider.astream] does
    each time the loop asks it for the next item: it yields a fragment or
    raises; the end of the list is the end of the iteration. *)
Inductive GenEvent :=
| Fragment (delta : string)
| GenError (message : string).

(** [asyncio.Event], as [run_turn] sees it.  The code only ever sets the
    event, so once a call of [is_set()] finds it set every later call does.
    [run_turn] numbers its calls of [cancel_event.is_set()] from 0: call 0
    precedes generation, call [k] is made on the [k]-th fragment, one more
    call follows the loop.  [Some c] says that the event is set after call
    [c - 1] and before call [c] is due: a call numbered [c] or more finds it
    set, an earlier one does not.  [None] says that the event is not set
    during the turn. *)
Definition CancelEvent := option nat.

Definition is_set (cancel_event : CancelEvent) (check : nat) : bool :=
  match cancel_event with
  | Some c => (c <=? check)%nat
  | None => false
  end.

Record Usage := mkUsage {
  input_tokens : Z;
  output_tokens : Z
}.

Record CapabilityWarning := mkCapabilityWarning {
  name : string;
  status : string;
  notify : string
}.

Record ErrorInfo := mkErrorInfo {
  code : string;
  message : string
}.

Record TurnResult := mkTurnResult {
  trace_id : string;
  user_message : MessageRow;
  assistant_message : option MessageRow;
  reason : string;
  usage : Usage;
  capability_warnings : list CapabilityWarning;
  error : option ErrorInfo
}.

(** The fields of the [Orchestrator] object; [store] and [bus] live in
    the [World]. *)
Record Orchestrator := mkOrchestrator {
  llm : list ChatMessage -> list GenEvent;
  context_limit : Z;
  system_prompt : string
}.

(** [Orchestrator.__init__]. *)
Definition init (llm : list ChatMessage -> list GenEvent)
           (context_limit : Z) (system_prompt : string) : Orchestrator :=
  mkOrchestrator llm (Z.max 1 context_limit) system_prompt.

(** [Orchestrator._publish], with its defaults. *)
Definition _publish (event_type trace_id : string)
           (payload : list (string * string)) (notify_policy : string)
  : M unit :=
  (event_id <- new_id ;;
   occurred_at_utc <- utc_now_iso ;;
   let env := mkEventEnvelope event_id trace_id occurred_at_utc
                              "core.orchestrator" event_type 1 "normal"
                              notify_policy payload None in
   publish ("alpha." ++ event_type)%string env)%M.

(** The callbacks: they are awaited and return; the world records the
    invocation. *)
Definition on_status (stage : string) : M unit :=
  modify (fun w => set_callbacks w (callbacks w ++ [OnStatus stage])).

Definition on_delta (delta : string) : M unit :=
  modify (fun w => set_callbacks w (callbacks w ++ [OnDelta delta])).

(** [x or f()] for [x : Optional[str]]. *)
Definition or_call (x : option string) (f : M string) : M string :=
  if PyStr.truthy x then ret (PyStr.or_else x "") else f.

(** [# 1) Store user message]. *)
Definition store_user_message (conversation_id content_text : string)
           (attachments : list AttachmentDict)
           (trace_id user_message_id client_request_id : option string)
  : M (string * MessageRow) :=
  (trace_id <- or_call trace_id new_trace_id ;;
   user_message_id <- or_call user_message_id new_id ;;
   user_row <- Db.create_message user_message_id conversation_id "user"
                                 content_text client_request_id
                                 (Some attachments) ;;
   _publish "message.stored" trace_id
            [("conversation_id", conversation_id);
             ("message_id", message_id user_row);
             ("role", "user")] "none" ;;;
   ret (trace_id, user_row))%M.

(** The body of the loop over [history] in [# 2) Build context]. *)
Definition history_entry (user_row row : MessageRow) : list ChatMessage :=
  if String.eqb (message_id row) (message_id user_row) then []
  else if String.eqb (role row) "user" || String.eqb (role row) "assistant"
       then [mkChatMessage (role row) (content_text row)]
       else [].

(** [# 2) Build context]. *)
Definition build_context (o : Orchestrator) (conversation_id content_text : string)
           (user_row : MessageRow) : M (list ChatMessage) :=
  (history <- attempt (fun w => Db.list_messages (messages w)
                                                 conversation_id
                                                 (Some (context_limit o))
                                                 None) ;;
   ret ([mkChatMessage "system" (system_prompt o)]
          ++ flat_map (history_entry user_row) history
          ++ [mkChatMessage "user" content_text]))%M.

(** How the [async for] loop ended. *)
Inductive LoopExit :=
| Exhausted                 (* the iterator ended *)
| Broke                     (* [break]: the event was found set *)
| Failed (message : string). (* the iterator raised *)

(** The [async for delta in self.llm.astream(...)] loop.  [check] is the
    number of the next call of [is_set()]; the result carries
    [out_text_parts] and the number of the call that follows the loop. *)
Fixpoint astream_loop (cancel_event : CancelEvent) (check : nat)
         (stream : list GenEvent) (out_text_parts : list string)
  : M (LoopExit * list string * nat) :=
  match stream with
  | [] => ret (Exhausted, out_text_parts, check)
  | GenError msg :: _ => ret (Failed msg, out_text_parts, check)
  | Fragment delta :: rest =>
      if is_set cancel_event check
      then ret (Broke, out_text_parts, S check)
      else (on_delta delta ;;;
            astream_loop cancel_event (S check) rest
                         (out_text_parts ++ [delta]))%M
  end.

Definition zero_usage : Usage := mkUsage 0 0.

Definition cancelled_result (trace_id : string) (user_row : MessageRow)
  : TurnResult :=
  mkTurnResult trace_id user_row None "cancelled" zero_usage [] None.

Definition error_result (trace_id : string) (user_row : MessageRow)
           (e : string) : TurnResult :=
  mkTurnResult trace_id user_row None "error" zero_usage
               [mkCapabilityWarning "llm" "down" "explicit"]
               (Some (mkErrorInfo "UNAVAILABLE" e)).

(** [# 4) Store assistant message] and [# 5) Usage]. *)
Definition store_assistant_message (conversation_id content_text : string)
           (trace_id : string) (user_row : MessageRow) (out_text : string)
  : M TurnResult :=
  (mid <- new_id ;;
   assistant_row <- Db.create_message mid conversation_id "assistant"
                                      out_text None (Some []) ;;
   _publish "message.stored" trace_id
            [("conversation_id", conversation_id);
             ("message_id", message_id assistant_row);
             ("role", "assistant")] "none" ;;;
   let usage :=
     mkUsage (Z.max 0 (Z.of_nat (List.length (PyStr.split content_text))))
             (Z.max 0 (Z.of_nat (List.length (PyStr.split out_text)))) in
   ret (mkTurnResult trace_id user_row (Some assistant_row) "completed"
                     usage [] None))%M.

(** [# 3) Run LLM streaming] and what follows it. *)
Definition run_llm_streaming (o : Orchestrator)
           (conversation_id content_text : string)
           (cancel_event : CancelEvent) (trace_id : string)
           (user_row : MessageRow) (ctx : list ChatMessage) : M TurnResult :=
  (on_status "queued" ;;;
   if is_set cancel_event 0
   then ret (cancelled_result trace_id user_row)
   else
     on_status "thinking" ;;;
     on_status "streaming" ;;;
     exit <- astream_loop cancel_event 1 (llm o ctx) [] ;;
     match exit with
     | (Failed e, _, _) => ret (error_result trace_id user_row e)
     | (_, out_text_parts, check) =>
         if is_set cancel_event check
         then ret (cancelled_result trace_id user_row)
         else store_assistant_message conversation_id content_text trace_id
                                      user_row (PyStr.join out_text_parts)
     end)%M.

(** [Orchestrator.run_turn]. *)
Definition run_turn (o : Orchestrator) (conversation_id content_text : string)
           (attachments : list AttachmentDict) (cancel_event : CancelEvent)
           (trace_id user_message_id client_request_id : option string)
  : M TurnResult :=
  (stored <- store_user_message conversation_id content_text attachments
                                trace_id user_message_id client_request_id ;;
   let '(trace_id, user_row) := stored in
   ctx <- build_context o conversation_id content_text user_row ;;
   run_llm_streaming o conversation_id content_text cancel_event trace_id
                     user_row ctx)%M.

End Orchestrator.


(* ===================================================================== *)
(** * capabilities/mock_llm.py *)
(* ===================================================================== *)

Module MockLlm.

Import Orchestrator.

(** [# Take the last user message as prompt.] *)
Definition prompt (messages : list ChatMessage) : string :=
  match find (fun m => String.eqb (chat_role m) "user") (rev messages) with
  | Some m => chat_content_text m
  | None => ""
  end.

(** ["." * n]. *)
Fixpoint dots (n : nat) : string :=
  match n with
  | O => ""
  | S n => String "." (dots n)
  end.

(** [text = f"Echo: {prompt} " + ("." * 200)]. *)
Definition text (messages : list ChatMessage) : string :=
  ("Echo: " ++ prompt messages ++ " " ++ dots 200)%string.

(** [for ch in text: if cancel.is_set(): return; ...; yield ch].  The
    generator calls [cancel.is_set()] once before each character; its call
    number [k], from 1, precedes the [k]-th character.  [cancel] is the
    event as these calls see it: [is_set cancel k] is what call [k]
    returns. *)
Fixpoint chars_loop (cancel : CancelEvent) (poll : nat) (text : string)
  : list GenEvent :=
  match text with
  | EmptyString => []
  | String ch rest =>
      if is_set cancel poll then []
      else Fragment (String ch "") :: chars_loop cancel (S poll) rest
  end.

(** [MockLlmProvider.astream]. *)
Definition astream (cancel : CancelEvent) (messages : list ChatMessage)
  : list GenEvent :=
  chars_loop cancel 1 (text messages).

End MockLlm.


(* ===================================================================== *)
(** * api/ws.py *)
(* ===================================================================== *)

Module Ws.

Import Orchestrator.

(** [models.py], [WsUserMessage]. *)
Record WsUserMessage := mkWsUserMessage {
  um_trace_id : option string;
  um_conversation_id : option string;
  um_content_text : string;
  um_attachments : list AttachmentRef;
  um_client_request_id : option string
}.

(** [models.py], [WsCancel]. *)
Record WsCancel := mkWsCancel {
  cancel_trace_id : string;
  cancel_reason : option string
}.

(** [obj.get("trace_id")] of a received JSON object: the key is absent,
    its value is a string, or its value is of another type, of which only
    the truthiness matters ([null], [0], [false], [[]] and [{}] are
    falsy). *)
Inductive JsonTrace :=
| NoTrace
| TraceString (s : string)
| TraceOther (truthy : bool).

(** What [handle_raw] makes of a received text before it dispatches:
    the outcome of [json.loads], of [obj.get("type")] and of
    [model_validate].  [SchemaError] is a frame of type [user_message] or
    [cancel] that [model_validate] refuses, with the text of the exception;
    [trace_id] is [obj.get("trace_id")]. *)
Inductive Inbound :=
| InvalidJson
| NotObject
| UserMessage (msg : WsUserMessage)
| Cancel (msg : WsCancel)
| SchemaError (trace_id : JsonTrace) (message : string)
| UnknownType (trace_id : JsonTrace) (type_repr : string).

(** The frames handed to [websocket.send_json]: [WsAssistantStatus]
    ([detail] and [progress] are always absent here), [WsAssistantDelta] and
    [WsAssistantDone]. *)
Inductive Frame :=
| AssistantStatus (trace_id stage : string)
| AssistantDelta (trace_id delta : string)
| AssistantDone (trace_id reason : string) (message_id : option string)
                (usage : Usage) (capability_warnings : list CapabilityWarning)
                (error : option ErrorInfo).

(** An [asyncio.Task] running [orch.run_turn(...)]: not done, done with
    a result, or done with the exception the call raised. *)
Inductive TaskState :=
| Running
| Finished (result : TurnResult)
| Crashed (e : Exn).

(** The arguments of the [run_turn] call a task was created with. *)
Record TurnCall := mkTurnCall {
  call_conversation_id : string;
  call_content_text : string;
  call_attachments : list AttachmentDict;
  call_trace_id : string;
  call_user_message_id : string;
  call_client_request_id : option string
}.

(** The task running [finish_turn()], by the [await] it is suspended at
    or by the way it ended. *)
Inductive FinishTurn :=
| AwaitingTask (t : nat)   (* [result = await current_task] *)
| AwaitingSend             (* [await send_done(...)] *)
| Returned                 (* the coroutine has returned *)
| Reraised (e : Exn).      (* [await current_task] raised: the coroutine
                              ended with the exception of the task *)

(** The variables of one call of [ws_chat] while the connection is open.
    [tasks] holds every [run_turn] task created so far, a task being named
    by its position; [current_cancel] is the [asyncio.Event] the variable
    refers to, by its flag; [sent] is what was handed to
    [websocket.send_json], in order.  [recv_task] is not a field: a received
    frame is the event [Receive]. *)
Record Session := mkSession {
  world : World;
  path_conversation_id : option string;
  sent : list Frame;
  tasks : list (TurnCall * TaskState);
  current_task : option nat;
  current_cancel : option bool;
  current_trace_id : option string;
  turn_task : option FinishTurn
}.

Definition set_world (s : Session) (w : World) : Session :=
  mkSession w (path_conversation_id s) (sent s) (tasks s) (current_task s)
            (current_cancel s) (current_trace_id s) (turn_task s).

Definition set_sent (s : Session) (l : list Frame) : Session :=
  mkSession (world s) (path_conversation_id s) l (tasks s) (current_task s)
            (current_cancel s) (current_trace_id s) (turn_task s).

Definition set_tasks (s : Session) (l : list (TurnCall * TaskState)) : Session :=
  mkSession (world s) (path_conversation_id s) (sent s) l (current_task s)
            (current_cancel s) (current_trace_id s) (turn_task s).

Definition set_current_task (s : Session) (t : option nat) : Session :=
  mkSession (world s) (path_conversation_id s) (sent s) (tasks s) t
            (current_cancel s) (current_trace_id s) (turn_task s).

Definition set_current_cancel (s : Session) (c : option bool) : Session :=
  mkSession (world s) (path_conversation_id s) (sent s) (tasks s)
            (current_task s) c (current_trace_id s) (turn_task s).

Definition set_current_trace_id (s : Session) (t : option string) : Session :=
  mkSession (world s) (path_conversation_id s) (sent s) (tasks s)
            (current_task s) (current_cancel s) t (turn_task s).

Definition set_turn_task (s : Session) (t : option FinishTurn) : Session :=
  mkSession (world s) (path_conversation_id s) (sent s) (tasks s)
            (current_task s) (current_cancel s) (current_trace_id s) t.

(** The state after [await websocket.accept()]. *)
Definition accept (w : World) (conversation_id : option string) : Session :=
  mkSession w conversation_id [] [] None None None None.

(** An effect on the world, run inside the session. *)
Definition in_world {A} (c : M A) : Eff Session A :=
  fun s => let (r, w) := c (world s) in (r, set_world s w).

Definition send_json (f : Frame) : Eff Session unit :=
  modify (fun s => set_sent s (sent s ++ [f])).

(** [send_done]. *)
Definition send_done (trace_id reason : string) (message_id : option string)
           (usage : option Usage)
           (capability_warnings : option (list CapabilityWarning))
           (error : option ErrorInfo) : Eff Session unit :=
  send_json (AssistantDone trace_id reason message_id
               (match usage with Some u => u | None => zero_usage end)
               (match capability_warnings with Some l => l | None => [] end)
               error).

(** [send_status] and [send_delta], as the closures [_on_status] and
    [_on_delta] of a turn call them. *)
Definition frame_of_callback (trace_id : string) (cb : Callback) : Frame :=
  match cb with
  | OnStatus stage => AssistantStatus trace_id stage
  | OnDelta delta => AssistantDelta trace_id delta
  end.

(** [resolve_conversation_id]: [msg_conversation_id or conversation_id]. *)
Definition resolve_conversation_id (s : Session)
           (msg_conversation_id : option string) : option string :=
  if PyStr.truthy msg_conversation_id then msg_conversation_id
  else path_conversation_id s.

(** [publish_received]. *)
Definition publish_received (trace_id conversation_id message_id : string)
           (idempotency_key : option string) : M unit :=
  (event_id <- new_id ;;
   occurred_at_utc <- utc_now_iso ;;
   publish "alpha.message.received"
           (mkEventEnvelope event_id trace_id occurred_at_utc "core.gateway"
                            "message.received" 1 "normal" "none"
                            [("conversation_id", conversation_id);
                             ("message_id", message_id)]
                            idempotency_key))%M.

(** [task.done()]. *)
Definition task_done (s : Session) (t : nat) : bool :=
  match nth_error (tasks s) t with
  | Some (_, Finished _) => true
  | Some (_, Crashed _) => true
  | _ => false
  end.

(** [current_task and not current_task.done()]. *)
Definition turn_in_flight (s : Session) : bool :=
  match current_task s with
  | Some t => negb (task_done s t)
  | None => false
  end.

Definition error_frame (trace_id code message : string) : Eff Session unit :=
  send_done trace_id "error" None None None (Some (mkErrorInfo code message)).

(** [start_turn]. *)
Definition start_turn (msg : WsUserMessage) : Eff Session unit :=
  (s <- gets (fun s => s) ;;
   if turn_in_flight s then
     trace_id <- in_world (or_call (current_trace_id s) new_trace_id) ;;
     error_frame trace_id "CONFLICT" "turn already running"
   else
     let cid := resolve_conversation_id s (um_conversation_id msg) in
     if negb (PyStr.truthy cid) then
       trace_id <- in_world (or_call (um_trace_id msg) new_trace_id) ;;
       error_frame trace_id "INVALID_ARGUMENT" "conversation_id is required"
     else
       let cid := PyStr.or_else cid "" in
       trace_id <- in_world (or_call (um_trace_id msg) new_trace_id) ;;
       modify (fun s => set_current_trace_id s (Some trace_id)) ;;;
       user_message_id <- in_world new_id ;;
       in_world (publish_received trace_id cid user_message_id
                                  (um_client_request_id msg)) ;;;
       modify (fun s => set_current_cancel s (Some false)) ;;;
       modify (fun s =>
                 set_current_task
                   (set_tasks s (tasks s ++
                                   [(mkTurnCall cid (um_content_text msg)
                                                (map RefDict
                                                     (um_attachments msg))
                                                trace_id
                                                user_message_id
                                                (um_client_request_id msg),
                                     Running)]))
                   (Some (List.length (tasks s)))))%M.

(** [handle_cancel]. *)
Definition handle_cancel (msg : WsCancel) : Eff Session unit :=
  (s <- gets (fun s => s) ;;
   if negb (turn_in_flight s)
      || match current_cancel s with Some _ => false | None => true end
   then error_frame (cancel_trace_id msg) "NOT_FOUND" "no running turn"
   else if PyStr.truthy (current_trace_id s)
           && negb (PyStr.opt_eqb (Some (cancel_trace_id msg))
                                  (current_trace_id s))
   then error_frame (cancel_trace_id msg) "NOT_FOUND" "trace_id not running"
   else modify (fun s => set_current_cancel s (Some true)))%M.

(** The frame [finish_turn] sends for a result. *)
Definition done_of_result (r : TurnResult) : Frame :=
  AssistantDone (trace_id r) (reason r)
                (option_map message_id (assistant_message r))
                (usage r) (capability_warnings r) (error r).

(** [finish_turn], from one [await] to the next. *)
Definition finish_turn_resume : Eff Session unit :=
  (s <- gets (fun s => s) ;;
   match turn_task s with
   | Some (AwaitingTask t) =>
       match nth_error (tasks s) t with
       | Some (_, Finished result) =>
           send_json (done_of_result result) ;;;
           modify (fun s => set_turn_task s (Some AwaitingSend))
       | Some (_, Crashed e) =>
           modify (fun s => set_turn_task s (Some (Reraised e)))
       | _ => ret tt
       end
   | Some AwaitingSend =>
       modify (fun s =>
                 set_turn_task
                   (set_current_trace_id
                      (set_current_cancel (set_current_task s None) None)
                      None)
                   (Some Returned))
   | _ => ret tt
   end)%M.

(** [send_done(trace_id=obj.get("trace_id") or new_trace_id(),
    reason="error", error={"code": "INVALID_ARGUMENT", ...})], the call in
    the [else] branch and in the [except] branch of [handle_raw].
    [WsAssistantDone] declares [trace_id: str]: a truthy value of another
    type makes it raise [ValidationError], and nothing is sent. *)
Definition invalid_argument (tid : JsonTrace) (message : string)
  : Eff Session unit :=
  (match tid with
   | NoTrace =>
       trace_id <- in_world new_trace_id ;;
       error_frame trace_id "INVALID_ARGUMENT" message
   | TraceString x =>
       trace_id <- in_world (or_call (Some x) new_trace_id) ;;
       error_frame trace_id "INVALID_ARGUMENT" message
   | TraceOther false =>
       trace_id <- in_world new_trace_id ;;
       error_frame trace_id "INVALID_ARGUMENT" message
   | TraceOther true => raise ValidationError
   end)%M.

(** [handle_raw].  An exception raised by [send_done] in the [else]
    branch is caught by [except Exception], whose own [send_done] is given
    the same [trace_id] and raises it again; so does the one that follows
    a frame [model_validate] refused.  The exception then leaves
    [handle_raw]. *)
Definition handle_raw (raw : Inbound) : Eff Session unit :=
  (match raw with
   | InvalidJson =>
       trace_id <- in_world new_trace_id ;;
       error_frame trace_id "INVALID_ARGUMENT" "invalid JSON"
   | NotObject =>
       trace_id <- in_world new_trace_id ;;
       error_frame trace_id "INVALID_ARGUMENT" "message must be a JSON object"
   | UserMessage msg => start_turn msg
   | Cancel msg => handle_cancel msg
   | UnknownType tid type_repr =>
       invalid_argument tid ("unknown message type: " ++ type_repr)%string
   | SchemaError tid e => invalid_argument tid e
   end)%M.

(** The top of the main loop:
    [if current_task and turn_task is None:
       turn_task = asyncio.create_task(finish_turn())]. *)
Definition arm_finish_turn : Eff Session unit :=
  modify (fun s =>
            match current_task s, turn_task s with
            | Some t, None => set_turn_task s (Some (AwaitingTask t))
            | _, _ => s
            end).

(** What can happen next while the connection is open; between two
    events the coroutines run from one [await] to the next. *)
Inductive Event :=
| Receive (raw : Inbound)
    (* [recv_task in done]: the loop runs [handle_raw] *)
| TaskCallback (t : nat) (cb : Callback)
    (* the [run_turn] call of task [t] awaits one of its callbacks *)
| TaskReturns (t : nat) (result : TurnResult)
    (* the [run_turn] call of task [t] returns *)
| TaskRaises (t : nat) (e : Exn)
    (* the [run_turn] call of task [t] raises *)
| FinishResumes
    (* the event loop resumes [finish_turn] *)
| LoopCollects.
    (* [turn_task in done]: [await turn_task; turn_task = None] *)

Definition step (e : Event) : Eff Session unit :=
  (match e with
   | Receive raw => handle_raw raw ;;; arm_finish_turn
   | TaskCallback t cb =>
       s <- gets (fun s => s) ;;
       match nth_error (tasks s) t with
       | Some (call, Running) =>
           send_json (frame_of_callback (call_trace_id call) cb)
       | _ => ret tt
       end
   | TaskReturns t result =>
       modify (fun s =>
                 match nth_error (tasks s) t with
                 | Some (call, Running) =>
                     set_tasks s (firstn t (tasks s)
                                    ++ (call, Finished result)
                                    :: skipn (S t) (tasks s))
                 | _ => s
                 end)
   | TaskRaises t e =>
       modify (fun s =>
                 match nth_error (tasks s) t with
                 | Some (call, Running) =>
                     set_tasks s (firstn t (tasks s)
                                    ++ (call, Crashed e)
                                    :: skipn (S t) (tasks s))
                 | _ => s
                 end)
   | FinishResumes => finish_turn_resume
   | LoopCollects =>
       s <- gets (fun s => s) ;;
       match turn_task s with
       | Some (Reraised e) => raise e
       | _ =>
           modify (fun s =>
                     match turn_task s with
                     | Some Returned => set_turn_task s None
                     | _ => s
                     end) ;;;
           arm_finish_turn
       end
   end)%M.

(** The body of [while True:] over a sequence of events.  An exception
    that leaves [handle_raw] or [await turn_task] leaves the loop: it is no
    [WebSocketDisconnect], and [ws_chat] ends with it. *)
Fixpoint main_loop (evs : list Event) : Eff Session unit :=
  match evs with
  | [] => ret tt
  | e :: rest => (step e ;;; main_loop rest)%M
  end.

(** The session after an action, and after a sequence of events: if the
    loop is left on the way, the session it is left in. *)
Definition after {A} (c : Eff Session A) (s : Session) : Session := snd (c s).

Definition run (evs : list Event) (s : Session) : Session :=
  after (main_loop evs) s.

End Ws.


(* ===================================================================== *)
(** * More methods of [str] *)
(* ===================================================================== *)

(** As everywhere in this development a text is a sequence of code points
    below 256; that is what a header of a request decodes to. *)
Module PyText.

(** [x in s] for a character [x]. *)
Fixpoint occurs (x : ascii) (s : string) : bool :=
  match s with
  | EmptyString => false
  | String c rest => Ascii.eqb c x || occurs x rest
  end.

(** [s.lstrip()], [s.rstrip()] and [s.strip()]. *)
Fixpoint lstrip (s : string) : string :=
  match s with
  | EmptyString => EmptyString
  | String c rest => if PyStr.isspace c then lstrip rest else s
  end.

Fixpoint rstrip (s : string) : string :=
  match s with
  | EmptyString => EmptyString
  | String c rest =>
      match rstrip rest with
      | EmptyString =>
          if PyStr.isspace c then EmptyString else String c EmptyString
      | r => String c r
      end
  end.

Definition strip (s : string) : string := rstrip (lstrip s).

(** [c.lower()]: the letters A to Z and the capital letters of Latin-1
    (0xC0 to 0xDE except the multiplication sign 0xD7) move up by 32. *)
Definition lower_char (c : ascii) : ascii :=
  let n := nat_of_ascii c in
  if (((65 <=? n) && (n <=? 90))
      || ((192 <=? n) && (n <=? 222) && negb (n =? 215)))%nat
  then ascii_of_nat (n + 32)
  else c.

Fixpoint lower (s : string) : string :=
  match s with
  | EmptyString => EmptyString
  | String c rest => String (lower_char c) (lower rest)
  end.

(** [s.startswith(p)] and [s.endswith(p)]. *)
Fixpoint startswith (s p : string) {struct p} : bool :=
  match p with
  | EmptyString => true
  | String b p' =>
      match s with
      | EmptyString => false
      | String a s' => Ascii.eqb a b && startswith s' p'
      end
  end.

Fixpoint endswith (s p : string) : bool :=
  String.eqb s p
  || match s with
     | EmptyString => false
     | String _ rest => endswith rest p
     end.

(** [s.split(sep, 1)] for a separator of one character: [None] when the
    separator does not occur (the list has one element), the texts before
    and after its first occurrence otherwise. *)
Fixpoint split_once (sep : ascii) (s : string) : option (string * string) :=
  match s with
  | EmptyString => None
  | String c rest =>
      if Ascii.eqb c sep then Some (EmptyString, rest)
      else match split_once sep rest with
           | Some (a, b) => Some (String c a, b)
           | None => None
           end
  end.

(** [s[n:]]. *)
Fixpoint drop (n : nat) (s : string) : string :=
  match n, s with
  | O, _ => s
  | S n, String _ rest => drop n rest
  | S _, EmptyString => EmptyString
  end.

(** [s[:-1]] and [s[1:-1]]. *)
Fixpoint but_last (s : string) : string :=
  match s with
  | EmptyString => EmptyString
  | String c rest =>
      match rest with
      | EmptyString => EmptyString
      | _ => String c (but_last rest)
      end
  end.

Definition inner (s : string) : string := but_last (drop 1 s).

End PyText.


(* ===================================================================== *)
(** * common/auth.py *)
(* ===================================================================== *)

Module Auth.

Import PyText.

(** [_get_token]; [env_token] is [os.environ.get("ALPHA_HUB_TOKEN")]. *)
Definition _get_token (env_token : option string) : Result string :=
  let token := strip (match env_token with Some t => t | None => "" end) in
  if String.eqb token ""
  then Raised (ApiError "UNAUTHORIZED"
                        "Server token not configured (ALPHA_HUB_TOKEN)")
  else Ok token.

(** [check_ws_bearer].  [authorization.split(" ", 1)[1]] raises
    [IndexError] when the list has one element. *)
Definition check_ws_bearer (env_token authorization : option string)
  : Result unit :=
  match _get_token env_token with
  | Raised e => Raised e
  | Ok token =>
      if negb (PyStr.truthy authorization)
         || negb (startswith (lower (PyStr.or_else authorization ""))
                             "bearer ")
      then Raised (ApiError "UNAUTHORIZED" "Missing Bearer token")
      else
        match split_once " " (PyStr.or_else authorization "") with
        | None => Raised IndexError
        | Some (_, rest) =>
            let got := strip rest in
            if negb (String.eqb got token)
            then Raised (ApiError "UNAUTHORIZED" "Invalid token")
            else Ok tt
        end
  end.

(** [require_bearer]: the same statements. *)
Definition require_bearer (env_token authorization : option string)
  : Result unit :=
  match _get_token env_token with
  | Raised e => Raised e
  | Ok token =>
      if negb (PyStr.truthy authorization)
         || negb (startswith (lower (PyStr.or_else authorization ""))
                             "bearer ")
      then Raised (ApiError "UNAUTHORIZED" "Missing Bearer token")
      else
        match split_once " " (PyStr.or_else authorization "") with
        | None => Raised IndexError
        | Some (_, rest) =>
            let got := strip rest in
            if negb (String.eqb got token)
            then Raised (ApiError "UNAUTHORIZED" "Invalid token")
            else Ok tt
        end
  end.

(** How a call of [ws_chat] begins. *)
Inductive Handshake :=
| Accepted (s : Ws.Session)              (* [await websocket.accept()] *)
| Closed (code : Z) (reason : string)    (* [await websocket.close(...)] *)
| Escaped (e : Exn).                     (* an exception leaves [ws_chat] *)

(** [ws_chat], up to [await websocket.accept()]:
    [try: check_ws_bearer(auth) except ApiError: close; return]. *)
Definition ws_chat_open (env_token authorization : option string)
           (w : World) (conversation_id : option string) : Handshake :=
  match check_ws_bearer env_token authorization with
  | Ok _ => Accepted (Ws.accept w conversation_id)
  | Raised (ApiError _ _) => Closed 4401 "UNAUTHORIZED"
  | Raised e => Escaped e
  end.

End Auth.


(* ===================================================================== *)
(** * modules/llm_remote.py *)
(* ===================================================================== *)

Module LlmRemote.

Import PyText.

(** [_iter_sse_payloads]. *)
Definition _iter_sse_payloads (lines : list string) : list string :=
  flat_map (fun line =>
              if String.eqb line "" then []
              else if startswith line "data:"
                   then let payload := strip (drop 5 line) in
                        if String.eqb payload "" then [] else [payload]
                   else [])
           lines.

End LlmRemote.


(* ===================================================================== *)
(** * common/dotenv.py *)
(* ===================================================================== *)

Module Dotenv.

Import PyText.

(** The file is given by its lines, [p.read_text(...).splitlines()];
    reading it is taken to succeed, and its text to hold code points below
    256 like every text here. *)

(** [os.environ]. *)
Definition Environ := string -> option string.

Definition setenv (key value : string) (env : Environ) : Environ :=
  fun k => if String.eqb k key then Some value else env k.

Definition NUL : ascii := "000"%char.

(** [os.environ[key] = value].  The assignment goes through [os.putenv],
    which raises [ValueError] for a name or a value that holds a NUL and
    for a name that is empty or holds an equals sign; nothing is set
    then. *)
Definition environ_setitem (key value : string) : Eff Environ unit :=
  fun env =>
    if String.eqb key "" || occurs "=" key || occurs NUL key
       || occurs NUL value
    then (Raised ValueError, env)
    else (Ok tt, setenv key value env).

(** The double and the single quotation mark. *)
Definition dquote : string := String (ascii_of_nat 34) EmptyString.
Definition squote : string := "'".

(** [_is_allowed_key]. *)
Definition _is_allowed_key (key : string) (allow_keys : option (list string))
           (allow_prefixes : option (list string)) : bool :=
  match allow_keys, allow_prefixes with
  | None, None => true
  | _, _ =>
      match allow_keys with
      | Some keys => existsb (String.eqb key) keys
      | None => false
      end
      || match allow_prefixes with
         | Some prefixes => existsb (fun p => startswith key p) prefixes
         | None => false
         end
  end.

(** The body of the loop of [load_dotenv] over the lines of the file;
    [ret tt] is [continue]. *)
Definition load_line (override : bool) (allow_keys : option (list string))
           (allow_prefixes : option (list string)) (raw : string)
  : Eff Environ unit :=
  fun env =>
  let line := strip raw in
  if String.eqb line "" || startswith line "#" then ret tt env
  else
    let line := if startswith line "export " then strip (drop 7 line)
                else line in
    match split_once "=" line with
    | None => ret tt env
    | Some (key, value) =>
        let key := strip key in
        let value := strip value in
        if String.eqb key "" then ret tt env
        else if negb (_is_allowed_key key allow_keys allow_prefixes)
             then ret tt env
        else
          let value :=
            if (startswith value dquote && endswith value dquote)
               || (startswith value squote && endswith value squote)
            then inner value
            else value in
          if negb override
             && match env key with Some _ => true | None => false end
          then ret tt env
          else environ_setitem key value env
    end.

(** The loop itself: an exception ends it, and what the lines before set
    stays set. *)
Fixpoint load_lines (override : bool)
         (allow_keys allow_prefixes : option (list string))
         (lines : list string) : Eff Environ unit :=
  match lines with
  | [] => ret tt
  | raw :: rest =>
      (load_line override allow_keys allow_prefixes raw ;;;
       load_lines override allow_keys allow_prefixes rest)%M
  end.

(** [load_dotenv]; [file] is the lines of the file at [path], [None] when
    it does not exist. *)
Definition load_dotenv (file : option (list string)) (override : bool)
           (allow_keys allow_prefixes : option (list string))
  : Eff Environ bool :=
  match file with
  | None => ret false
  | Some lines =>
      (load_lines override allow_keys allow_prefixes lines ;;; ret true)%M
  end.

(** [load_dotenv_auto]; [files] maps a path to the lines of the file
    there, [cwd] is [Path.cwd()] and [repo_root] is
    [Path(__file__).resolve().parents[2]], [None] when computing it
    raises.  The third attempt runs inside [try: ... except Exception:
    pass]; the first two do not. *)
Definition load_dotenv_auto (files : string -> option (list string))
           (cwd : string) (repo_root : option string)
           (env_file : option string) (override : bool)
           (allow_keys allow_prefixes : option (list string))
  : Eff Environ (option string) :=
  fun env =>
  let env_path :=
    if PyStr.truthy (env "ALPHA_HUB_ENV_FILE") then env "ALPHA_HUB_ENV_FILE"
    else env_file in
  (loaded <- (if PyStr.truthy env_path
              then load_dotenv (files (PyStr.or_else env_path ""))
                               override allow_keys allow_prefixes
              else ret false) ;;
   if (loaded : bool) then ret (Some (PyStr.or_else env_path ""))
   else
     let candidate := (cwd ++ "/.env")%string in
     loaded <- load_dotenv (files candidate) override allow_keys
                           allow_prefixes ;;
     if (loaded : bool) then ret (Some candidate)
     else
       match repo_root with
       | None => ret None
       | Some root =>
           let candidate := (root ++ "/.env")%string in
           fun env =>
             match load_dotenv (files candidate) override allow_keys
                               allow_prefixes env with
             | (Ok true, env') => (Ok (Some candidate), env')
             | (Ok false, env') => (Ok None, env')
             | (Raised _, env') => (Ok None, env')
             end
       end)%M env.

(** The call made by [create_app]. *)
Definition create_app_load_dotenv (files : string -> option (list string))
           (cwd : string) (repo_root : option string)
  : Eff Environ (option string) :=
  load_dotenv_auto files cwd repo_root None false
                   (Some ["ALPHA_HUB_TOKEN"]) (Some ["ALPHA_HUB_LLM_"]).

End Dotenv.

(* ===================================================================== *)
(** * Vocabulary of the statements *)
(* ===================================================================== *)

Module DbSpec.

Import Db.

(** The world after the clock was read once. *)
Definition tick (w : World) : World := set_clock_reads w (S (clock_reads w)).

(** The row [create_message] writes. *)
Definition new_row (w : World) (mid cid role text : string)
           (key : option string) (att : option (list AttachmentDict)) : Row :=
  mkRow mid cid role text (clock_source w (clock_reads w)) key
        (json_dumps (match att with Some l => l | None => [] end)).

Definition matches_request (cid key : string) (x : Row) : bool :=
  String.eqb (col_conversation_id x) cid
  && PyStr.opt_eqb (col_client_request_id x) (Some key).

(** The insertion path of [create_message]. *)
Definition insert_path (w : World) (mid cid role text : string)
           (key : option string) (att : option (list AttachmentDict))
  : Result MessageRow * World :=
  let r := new_row w mid cid role text key att in
  if violates_primary_key (messages w) r
     || violates_idx_messages_idempotent (messages w) r
  then (Raised IntegrityError, tick w)
  else (Ok (row_to_message r), set_messages (tick w) (messages w ++ [r])).

(** Oldest first: [created_at_utc] never decreases along the list. *)
Definition oldest_first (l : list MessageRow) : Prop :=
  StronglySorted
    (fun x y => String.leb (created_at_utc x) (created_at_utc y) = true) l.

(** The rows of a conversation. *)
Definition in_conversation (cid : string) (x : Row) : bool :=
  String.eqb (col_conversation_id x) cid.

(** The rows of a conversation created strictly before [before], when a
    timestamp is given. *)
Definition earlier_in_conversation (cid : string) (before : option string)
           (x : Row) : bool :=
  String.eqb (col_conversation_id x) cid
  && match before with
     | Some ts => String.ltb (col_created_at_utc x) ts
     | None => true
     end.

End DbSpec.

Module HttpSpec.

Import Http.

(** The message identifiers of a page returned by the endpoint, in the
    order of [items]. *)
Definition page_ids (r : Result (OkEnvelope MessageListResult)) : list string :=
  match r with
  | Ok env => map id (items (data env))
  | Raised _ => []
  end.

(** The [next_before] of a page returned by the endpoint. *)
Definition page_cursor (r : Result (OkEnvelope MessageListResult))
  : option string :=
  match r with
  | Ok env => next_before (data env)
  | Raised _ => None
  end.

(** The timestamp the handler of the listing looks up for [before]. *)
Definition before_timestamp (before : option string) (w : World)
  : Result (option string) :=
  if PyStr.truthy before
  then match Db.get_message (messages w) (PyStr.or_else before "") with
       | None => Raised (ApiError "NOT_FOUND" "before message not found")
       | Some row => Ok (Some (created_at_utc row))
       end
  else Ok None.

End HttpSpec.

Module OrchestratorSpec.

Import Orchestrator.

Definition is_fragment (e : GenEvent) : bool :=
  match e with
  | Fragment _ => true
  | GenError _ => false
  end.

(** The fragments among the events of a stream, in order. *)
Definition deltas (stream : list GenEvent) : list string :=
  flat_map (fun e => match e with
                     | Fragment d => [d]
                     | GenError _ => []
                     end) stream.

(** The turn is cancelled before generation finishes: the call of
    [is_set()] that first finds the event set, number [c], is one that
    [run_turn] makes.  Call 0 precedes generation; call [k], for [k] from 1,
    is made when the generator has yielded its [k]-th fragment; the call
    after the loop has number [length stream + 1] when the generator ends
    without raising. *)
Definition cancellation_observed (c : nat) (stream : list GenEvent) : Prop :=
  Forall (fun e => is_fragment e = true) (firstn c stream)
  /\ c <= S (List.length stream).

(** The three status checkpoints. *)
Definition checkpoints : list Callback :=
  [OnStatus "queued"; OnStatus "thinking"; OnStatus "streaming"].

(** The [message.stored] event of a message, as handed to the bus. *)
Definition stored_event (event_id occurred_at_utc trace_id conversation_id
                         message_id role : string) : string * EventEnvelope :=
  ("alpha.message.stored",
   mkEventEnvelope event_id trace_id occurred_at_utc
                   "core.orchestrator" "message.stored" 1 "normal" "none"
                   [("conversation_id", conversation_id);
                    ("message_id", message_id);
                    ("role", role)] None).

(** World [w] after the callbacks [cbs] were invoked. *)
Definition called (w : World) (cbs : list Callback) : World :=
  set_callbacks w (callbacks w ++ cbs).

(** The effect [c] leaves the component [f] of the world as it was. *)
Definition keeps {A B} (f : World -> B) (c : M A) : Prop :=
  forall w, f (snd (c w)) = f w.

End OrchestratorSpec.

Module WsSpec.

Import Orchestrator Ws.

(** The terminal frame of a rejected request. *)
Definition rejection (trace_id code message : string) : Frame :=
  AssistantDone trace_id "error" None zero_usage []
                (Some (mkErrorInfo code message)).

Definition conflict_frame (trace_id : string) : Frame :=
  rejection trace_id "CONFLICT" "turn already running".

(** Terminal frames. *)
Definition is_done (f : Frame) : bool :=
  match f with
  | AssistantDone _ _ _ _ _ _ => true
  | _ => false
  end.

(** The session is in the state [turn-running]: task [t], created for the
    trace [tid], is the current task and has not returned; its cancellation
    event exists; [finish_turn] is not started yet or awaits [t]. *)
Definition turn_running (s : Session) (t : nat) (tid : string) : Prop :=
  current_task s = Some t
  /\ (exists call, nth_error (tasks s) t = Some (call, Running))
  /\ current_trace_id s = Some tid
  /\ tid <> ""
  /\ current_cancel s <> None
  /\ (turn_task s = None \/ turn_task s = Some (AwaitingTask t)).

(** The session is in the state [idle]. *)
Definition idle (s : Session) : Prop :=
  current_task s = None /\ current_cancel s = None
  /\ current_trace_id s = None /\ turn_task s = None.

(** What every state of a session satisfies: generated identifiers are
    not empty, the three variables of the current turn are set together,
    and the current task is one of the tasks created. *)
Definition session_inv (s : Session) : Prop :=
  (forall n, id_source (world s) n <> "")
  /\ match current_task s with
     | None => current_cancel s = None /\ current_trace_id s = None
     | Some t => t < List.length (tasks s)
                 /\ current_cancel s <> None
                 /\ PyStr.truthy (current_trace_id s) = true
     end.

(** No [finish_turn] of an earlier turn is pending. *)
Definition settled (s : Session) : Prop :=
  match turn_task s with
  | None => True
  | Some (AwaitingTask t) => current_task s = Some t
  | Some _ => False
  end.

(** Task [t] is the current task, it has not returned, and no other
    task is awaited by [finish_turn]. *)
Definition in_flight (s : Session) (t : nat) : Prop :=
  current_task s = Some t
  /\ (exists call, nth_error (tasks s) t = Some (call, Running))
  /\ (turn_task s = None \/ turn_task s = Some (AwaitingTask t)).

(** Session [s] with the frames [pre] sent before everything it sent. *)
Definition prepend (pre : list Frame) (s : Session) : Session :=
  set_sent s (pre ++ sent s).

(** The action [c] neither reads what was sent nor removes anything from
    it: on a session that had sent [pre] before, it does the same and
    leaves [pre] in front. *)
Definition oblivious {A} (c : Eff Session A) : Prop :=
  forall pre s, c (prepend pre s) = (fst (c s), prepend pre (snd (c s))).

(** A cancel frame addresses the running turn. *)
Definition addresses_running_turn (s : Session) (msg : WsCancel) : bool :=
  turn_in_flight s
  && PyStr.opt_eqb (Some (cancel_trace_id msg)) (current_trace_id s).

(** The event does not end the handler: it is no frame whose [trace_id]
    the terminal frame refuses, and it does not collect a [finish_turn]
    that ended with an exception. *)
Definition proceeds (e : Event) (s : Session) : Prop :=
  match e with
  | Receive (SchemaError (TraceOther true) _) => False
  | Receive (UnknownType (TraceOther true) _) => False
  | LoopCollects =>
      match turn_task s with
      | Some (Reraised _) => False
      | _ => True
      end
  | _ => True
  end.

(** Events other than a received frame and the end of a task. *)
Definition waiting (e : Event) : Prop :=
  match e with
  | TaskCallback _ _ | FinishResumes | LoopCollects => True
  | Receive _ | TaskReturns _ _ | TaskRaises _ _ => False
  end.

(** Events other than a received frame and a callback of a task. *)
Definition quiet (e : Event) : Prop :=
  match e with
  | TaskReturns _ _ | TaskRaises _ _ | FinishResumes | LoopCollects => True
  | Receive _ | TaskCallback _ _ => False
  end.

End WsSpec.

Module DbInvariant.

(** The keys of the unique index [idx_messages_idempotent]: the pairs
    [(conversation_id, client_request_id)] of the rows whose
    [client_request_id] is not NULL. *)
Definition request_keys (t : list Row) : list (string * string) :=
  flat_map (fun x => match col_client_request_id x with
                     | Some k => [(col_conversation_id x, k)]
                     | None => []
                     end) t.

(** The constraints of [SCHEMA] hold in a table: [message_id] is a primary
    key and [idx_messages_idempotent] is unique. *)
Definition table_ok (t : list Row) : Prop :=
  NoDup (map col_message_id t) /\ NoDup (request_keys t).

End DbInvariant.

Module HttpMoreSpec.

(** The world after one identifier was generated. *)
Definition drawn (w : World) : World := set_ids_drawn w (S (ids_drawn w)).

(** [limit: int = Query(default=50, ...)]. *)
Definition effective_limit (limit : option Z) : Z :=
  match limit with Some n => n | None => 50%Z end.

Definition is_ref (a : AttachmentDict) : bool :=
  match a with
  | RefDict _ => true
  | NotRef => false
  end.

(** A message the models of the API accept: every attachment is a
    reference and the role is one of [Role]. *)
Definition accepted (r : MessageRow) : bool :=
  forallb is_ref (attachments r) && Http.is_role (role r).

(** The record carries the fields of the message. *)
Definition record_of (r : MessageRow) (x : Http.MessageRecord) : Prop :=
  Http.id x = message_id r
  /\ Http.rec_conversation_id x = conversation_id r
  /\ Http.rec_role x = role r
  /\ Http.rec_content_text x = content_text r
  /\ Http.rec_created_at_utc x = created_at_utc r
  /\ Http.rec_client_request_id x = client_request_id r
  /\ map RefDict (Http.rec_attachments x) = attachments r.

End HttpMoreSpec.

Module OrchestratorMoreSpec.

Import Orchestrator.

(** The rows of a conversation with a role. *)
Definition row_of (cid role : string) (x : Row) : Prop :=
  col_conversation_id x = cid /\ col_role x = role.

(** A context entry made from a stored row. *)
Definition entry_of (x : Row) : ChatMessage :=
  mkChatMessage (col_role x) (col_content_text x).

(** The characters of a text, one fragment each. *)
Fixpoint chars (s : string) : list string :=
  match s with
  | EmptyString => []
  | String c rest => String c "" :: chars rest
  end.

(** The generator polls the event before it yields: when its call number
    [k] finds the event set, so does the call [run_turn] makes on the
    [k]-th fragment or after the loop. *)
Definition polls_precede_checks (generator turn : CancelEvent) : Prop :=
  forall k, is_set generator k = true -> is_set turn k = true.

End OrchestratorMoreSpec.

Module PyTextSpec.

(** Whitespace only. *)
Fixpoint blank (s : string) : bool :=
  match s with
  | EmptyString => true
  | String c rest => PyStr.isspace c && blank rest
  end.

(** A text with no whitespace at either end. *)
Definition trimmed (s : string) : Prop := PyText.strip s = s.

End PyTextSpec.

Module AuthSpec.

Import PyText.

(** The token the server expects. *)
Definition token_of (env_token : option string) : string :=
  strip (match env_token with Some t => t | None => "" end).

(** The header is the word [bearer], in any mix of cases, one space, and
    text that is [credential] once the whitespace around it is removed. *)
Definition bearer_header (authorization : option string)
           (credential : string) : Prop :=
  exists scheme rest,
    authorization = Some (scheme ++ " " ++ rest)%string
    /\ lower scheme = "bearer"
    /\ strip rest = credential.

(** A token is configured and the header carries it. *)
Definition accepts (env_token authorization : option string) : Prop :=
  token_of env_token <> "" /\ bearer_header authorization (token_of env_token).

End AuthSpec.

Module WsMoreSpec.

Import Orchestrator Ws.

(** The variables of the current turn, the tasks and the table are in
    [s'] what they are in [s]. *)
Definition same_turn (s s' : Session) : Prop :=
  tasks s' = tasks s
  /\ current_task s' = current_task s
  /\ current_cancel s' = current_cancel s
  /\ current_trace_id s' = current_trace_id s
  /\ messages (world s') = messages (world s).

(** The error codes of the frames that answer a rejected request. *)
Definition rejection_codes : list string :=
  ["CONFLICT"; "INVALID_ARGUMENT"; "NOT_FOUND"].

(** Task [t] has returned [r] in [s]. *)
Definition finished (s : Session) (t : nat) (r : TurnResult) : Prop :=
  exists call, nth_error (tasks s) t = Some (call, Finished r).

(** Task [t] is not done in [s]: its [run_turn] call has not returned. *)
Definition running (s : Session) (t : nat) : Prop :=
  exists call, nth_error (tasks s) t = Some (call, Running).

(** A received object the handler cannot answer: it is no valid
    [user_message] or [cancel], and its [trace_id] is a truthy value that
    is no string. *)
Definition unanswerable (raw : Inbound) : bool :=
  match raw with
  | SchemaError (TraceOther true) _ => true
  | UnknownType (TraceOther true) _ => true
  | _ => false
  end.

End WsMoreSpec.

(** ** Example data *)

Module Examples.

Definition ids (n : nat) : string :=
  nth n ["01J0000000000000000000000A"; "01J0000000000000000000000B";
         "01J0000000000000000000000C"; "01J0000000000000000000000D";
         "01J0000000000000000000000E"; "01J0000000000000000000000F";
         "01J0000000000000000000000G"; "01J0000000000000000000000H"]
      "01J0000000000000000000000Z".

Definition clock (n : nat) : string :=
  nth n ["2024-05-01T10:00:00Z"; "2024-05-01T10:00:01Z";
         "2024-05-01T10:00:02Z"; "2024-05-01T10:00:03Z";
         "2024-05-01T10:00:04Z"; "2024-05-01T10:00:05Z";
         "2024-05-01T10:00:06Z"; "2024-05-01T10:00:07Z"]
      "2024-05-01T10:01:00Z".

(** A fresh database, no event published, no callback invoked. *)
Definition empty_world : World := mkWorld [] [] [] ids 0 clock 0.

Definition row (mid cid role text at_utc : string) : Row :=
  mkRow mid cid role text at_utc None (JsonList []).

(** Conversation ["c1"] with three messages, one second apart. *)
Definition three_messages : list Row :=
  [row "m1" "c1" "user" "one" "2024-05-01T09:00:01Z";
   row "m2" "c1" "assistant" "two" "2024-05-01T09:00:02Z";
   row "m3" "c1" "user" "three" "2024-05-01T09:00:03Z"].

Definition world_with (t : list Row) : World := mkWorld t [] [] ids 0 clock 0.

(** A provider that yields two fragments and ends. *)
Definition echo : Orchestrator.Orchestrator :=
  Orchestrator.init
    (fun _ => [Orchestrator.Fragment "Echo: "; Orchestrator.Fragment "hello"])
    30 "You are a helpful assistant.".

(** A provider that raises after the fragments ["a"] and ["b"]. *)
Definition failing : Orchestrator.Orchestrator :=
  Orchestrator.init
    (fun _ => [Orchestrator.Fragment "a"; Orchestrator.Fragment "b";
               Orchestrator.GenError "boom"])
    30 "You are a helpful assistant.".

(** A session on conversation ["c1"] in which the client has sent
    ["hello"]: the first generated identifier is the trace of the turn, and
    task 0 runs it. *)
Definition hello : Ws.WsUserMessage :=
  Ws.mkWsUserMessage None None "hello" [] None.

Definition running_session : Ws.Session :=
  Ws.after (Ws.step (Ws.Receive (Ws.UserMessage hello)))
           (Ws.accept empty_world (Some "c1")).

Definition hello_trace : string := ids 0.

(** The result of that turn when it is cancelled. *)
Definition hello_cancelled : Orchestrator.TurnResult :=
  Orchestrator.cancelled_result
    hello_trace
    (mkMessageRow (ids 1) "c1" "user" "hello" (clock 1) None []).

End Examples.

(* ===================================================================== *)
(** * The order on TEXT values *)
(* ===================================================================== *)

Module TextOrder.

Lemma ascii_compare_refl (a : ascii) : Ascii.compare a a = Eq.
Proof. unfold Ascii.compare. apply N.compare_refl. Qed.

Lemma ascii_compare_lt_trans (a b c : ascii) :
  Ascii.compare a b = Lt -> Ascii.compare b c = Lt -> Ascii.compare a c = Lt.
Proof.
  unfold Ascii.compare. rewrite !N.compare_lt_iff. lia.
Qed.

Lemma compare_refl (s : string) : String.compare s s = Eq.
Proof.
  induction s as [|a s IH]; simpl; [reflexivity|].
  now rewrite ascii_compare_refl.
Qed.

Lemma compare_lt_trans (x y z : string) :
  String.compare x y = Lt -> String.compare y z = Lt ->
  String.compare x z = Lt.
Proof.
  revert y z.
  induction x as [|a x IH]; intros [|b y] [|c z]; simpl;
    try congruence.
  destruct (Ascii.compare a b) eqn:Hab; try discriminate;
    destruct (Ascii.compare b c) eqn:Hbc; try discriminate; intros H1 H2.
  - apply Ascii.compare_eq_iff in Hab, Hbc. subst.
    rewrite ascii_compare_refl. eauto.
  - apply Ascii.compare_eq_iff in Hab. subst. now rewrite Hbc.
  - apply Ascii.compare_eq_iff in Hbc. subst. now rewrite Hab.
  - now rewrite (ascii_compare_lt_trans _ _ _ Hab Hbc).
Qed.

Lemma ltb_irrefl (s : string) : String.ltb s s = false.
Proof. unfold String.ltb. now rewrite compare_refl. Qed.

Lemma ltb_trans (x y z : string) :
  String.ltb x y = true -> String.ltb y z = true -> String.ltb x z = true.
Proof.
  unfold String.ltb.
  destruct (String.compare x y) eqn:Hxy; try discriminate.
  destruct (String.compare y z) eqn:Hyz; try discriminate.
  now rewrite (compare_lt_trans _ _ _ Hxy Hyz).
Qed.

Lemma ltb_leb (x y : string) : String.ltb x y = true -> String.leb x y = true.
Proof.
  unfold String.ltb, String.leb. now destruct (String.compare x y).
Qed.

Lemma leb_refl (x : string) : String.leb x x = true.
Proof. unfold String.leb. now rewrite compare_refl. Qed.

(** [x <= y] is [x < y] or [x = y]. *)
Lemma leb_cases (x y : string) :
  String.leb x y = true -> String.ltb x y = true \/ x = y.
Proof.
  unfold String.ltb, String.leb.
  destruct (String.compare x y) eqn:H; try discriminate; intros _.
  - right. now apply String.compare_eq_iff.
  - now left.
Qed.

Lemma leb_false_ltb (x y : string) :
  String.leb x y = false -> String.ltb y x = true.
Proof.
  unfold String.ltb, String.leb. rewrite (String.compare_antisym y x).
  now destruct (String.compare x y).
Qed.

Lemma ltb_false_leb (x y : string) :
  String.ltb x y = false -> String.leb y x = true.
Proof.
  unfold String.ltb, String.leb. rewrite (String.compare_antisym y x).
  now destruct (String.compare x y).
Qed.

Lemma leb_trans (x y z : string) :
  String.leb x y = true -> String.leb y z = true -> String.leb x z = true.
Proof.
  intros Hxy Hyz.
  destruct (leb_cases _ _ Hxy) as [Hlt | ->]; [|assumption].
  destruct (leb_cases _ _ Hyz) as [Hlt' | <-].
  - apply ltb_leb. eapply ltb_trans; eauto.
  - now apply ltb_leb.
Qed.

Lemma leb_ltb_trans (x y z : string) :
  String.leb x y = true -> String.ltb y z = true -> String.ltb x z = true.
Proof.
  intros Hxy Hyz.
  destruct (leb_cases _ _ Hxy) as [Hlt | ->]; [|assumption].
  eapply ltb_trans; eauto.
Qed.

Lemma ltb_leb_trans (x y z : string) :
  String.ltb x y = true -> String.leb y z = true -> String.ltb x z = true.
Proof.
  intros Hxy Hyz.
  destruct (leb_cases _ _ Hyz) as [Hlt | <-]; [|assumption].
  eapply ltb_trans; eauto.
Qed.

End TextOrder.

(* ===================================================================== *)
(** * Running effects *)
(* ===================================================================== *)

Lemma bind_ok {St A B} (c : Eff St A) (k : A -> Eff St B) w a w' :
  c w = (Ok a, w') -> bind c k w = k a w'.
Proof. intros H. unfold bind. now rewrite H. Qed.

Lemma bind_raised {St A B} (c : Eff St A) (k : A -> Eff St B) w e w' :
  c w = (Raised e, w') -> bind c k w = (Raised e, w').
Proof. intros H. unfold bind. now rewrite H. Qed.

(* ===================================================================== *)
(** * Facts about storage/db.py *)
(* ===================================================================== *)

Module DbFacts.

Import Db DbSpec.

(** ** [create_message] *)

Lemma create_message_unfold w mid cid role text key att :
  create_message mid cid role text key att w =
  if PyStr.truthy key
  then match find (matches_request cid (PyStr.or_else key "")) (messages w) with
       | Some row => (Ok (row_to_message row), tick w)
       | None => insert_path w mid cid role text key att
       end
  else insert_path w mid cid role text key att.
Proof.
  unfold create_message, insert_path, bind, utc_now_iso, select_by_request,
    gets, ret, INSERT, tick, new_row, matches_request.
  destruct (PyStr.truthy key); cbn.
  - destruct (find _ (messages w)); cbn; [reflexivity|].
    destruct (_ || _); reflexivity.
  - destruct (_ || _); reflexivity.
Qed.

Lemma find_app_new {A} (f : A -> bool) (l : list A) (x : A) :
  find f l = None -> f x = true -> find f (l ++ [x]) = Some x.
Proof.
  induction l as [|y l IH]; simpl; intros Hn Hx.
  - now rewrite Hx.
  - destruct (f y); [discriminate|auto].
Qed.

Lemma existsb_app_new {A} (f : A -> bool) (l : list A) (x : A) :
  f x = true -> existsb f (l ++ [x]) = true.
Proof.
  intros Hx. rewrite existsb_app. simpl. rewrite Hx.
  now rewrite orb_true_r.
Qed.

(** Retrying with a non-empty key returns the message the first call
    returned and writes nothing. *)
Lemma create_message_retry w mid cid role text key att m w1 :
  key <> "" ->
  create_message mid cid role text (Some key) att w = (Ok m, w1) ->
  forall mid' role' text' att',
    create_message mid' cid role' text' (Some key) att' w1 = (Ok m, tick w1).
Proof.
  intros Hkey H mid' role' text' att'.
  rewrite create_message_unfold in *.
  assert (Ht : PyStr.truthy (Some key) = true).
  { simpl. destruct (String.eqb_spec key ""); [contradiction|reflexivity]. }
  assert (Ho : PyStr.or_else (Some key) "" = key).
  { simpl. destruct (String.eqb_spec key ""); [contradiction|reflexivity]. }
  rewrite Ht, Ho in *.
  destruct (find (matches_request cid key) (messages w)) as [row|] eqn:Hf.
  - inversion H; subst. cbn [messages tick set_clock_reads]. now rewrite Hf.
  - unfold insert_path in H.
    destruct (_ || _); [discriminate|].
    inversion H; subst. cbn [messages tick set_clock_reads set_messages].
    rewrite (find_app_new _ _ _ Hf); [reflexivity|].
    unfold matches_request, new_row. cbn.
    now rewrite !String.eqb_refl.
Qed.

(** A successful call returns a message that carries the key it was
    called with. *)
Lemma create_message_key w mid cid role text key att m w1 :
  create_message mid cid role text key att w = (Ok m, w1) ->
  key <> Some "" ->
  client_request_id m = key.
Proof.
  intros H Hne. rewrite create_message_unfold in H.
  assert (Hins : insert_path w mid cid role text key att = (Ok m, w1) ->
                 client_request_id m = key).
  { unfold insert_path. destruct (_ || _); [discriminate|].
    intros E. inversion E. reflexivity. }
  destruct (PyStr.truthy key) eqn:Ht; [|auto].
  destruct key as [k|]; [|discriminate].
  simpl in Ht, H. destruct (String.eqb_spec k ""); [discriminate|].
  destruct (find _ _) as [row|] eqn:Hf; [|auto].
  inversion H; subst. apply find_some in Hf as [_ Hm].
  unfold matches_request in Hm. apply andb_true_iff in Hm as [_ Hm].
  destruct (col_client_request_id row) as [k'|] eqn:Hk; [|discriminate].
  simpl in Hm. apply String.eqb_eq in Hm. subst. simpl. now rewrite Hk.
Qed.

(** With the empty string as key the lookup is skipped: the call takes the
    insertion path whatever the table holds. *)
Lemma create_message_empty_key_inserts w mid cid role text att :
  create_message mid cid role text (Some "") att w =
  insert_path w mid cid role text (Some "") att.
Proof. now rewrite create_message_unfold. Qed.

(** C10.  A call of [create_message] with [client_request_id = ""] makes no
    idempotency lookup: when it succeeds it has inserted the row built from
    its arguments.  The unique index covers that row, the empty string not
    being NULL, so a second call with the same conversation and the empty
    string raises [IntegrityError] and writes nothing. *)
Theorem empty_request_id_second_call_raises
        w mid cid role text att m w1 :
  create_message mid cid role text (Some "") att w = (Ok m, w1) ->
  (m = row_to_message (new_row w mid cid role text (Some "") att)
   /\ messages w1 = messages w ++ [new_row w mid cid role text (Some "") att])
  /\ forall mid' role' text' att',
      create_message mid' cid role' text' (Some "") att' w1
      = (Raised IntegrityError, tick w1).
Proof.
  intros H. rewrite create_message_empty_key_inserts in H.
  unfold insert_path in H.
  destruct (_ || _) eqn:Hv; [discriminate|].
  inversion H; subst; clear H. split; [split; reflexivity|].
  intros mid' role' text' att'.
  rewrite create_message_empty_key_inserts. unfold insert_path.
  cbn [messages set_messages tick set_clock_reads].
  replace (violates_idx_messages_idempotent _ _) with true.
  { now rewrite orb_true_r. }
  symmetry. unfold violates_idx_messages_idempotent, new_row.
  cbn [col_client_request_id col_conversation_id].
  apply existsb_app_new. cbn. now rewrite String.eqb_refl.
Qed.

Lemma empty_request_id_second_call_raises_witness :
  exists m w1,
    create_message "m1" "c1" "user" "first" (Some "") None
                   Examples.empty_world = (Ok m, w1)
    /\ create_message "m2" "c1" "user" "second" (Some "") None w1
       = (Raised IntegrityError, tick w1).
Proof.
  eexists. eexists. split.
  - cbv. reflexivity.
  - eapply (empty_request_id_second_call_raises
              Examples.empty_world "m1" "c1" "user" "first" None).
    cbv. reflexivity.
Defined.

(** C1, at the key [""].  The first call stores the message; the retry
    with the same [(conversation_id, client_request_id)] and different
    content does not return it: [IntegrityError] leaves [create_message],
    and the table still holds the first row only. *)
Theorem create_message_retry_with_empty_key :
  let first := create_message "m1" "c1" "user" "first" (Some "") None
                              Examples.empty_world in
  let retry := create_message "m2" "c1" "user" "second" (Some "") None
                              (snd first) in
  fst first
  = Ok (mkMessageRow "m1" "c1" "user" "first" "2024-05-01T10:00:00Z"
                     (Some "") [])
  /\ fst retry = Raised IntegrityError
  /\ messages (snd retry) = messages (snd first).
Proof. repeat split. Qed.

(** ** [ORDER BY] *)

Section OrderByFacts.
Variable le : Row -> Row -> bool.
Hypothesis le_total : forall x y, le x y = true \/ le y x = true.
Hypothesis le_trans :
  forall x y z, le x y = true -> le y z = true -> le x z = true.

Let R (x y : Row) : Prop := le x y = true.

Lemma insert_row_perm x l : Permutation (insert_row le x l) (x :: l).
Proof.
  induction l as [|y l IH]; simpl; [reflexivity|].
  destruct (le x y); [reflexivity|].
  rewrite IH. apply perm_swap.
Qed.

Lemma order_by_perm l : Permutation (order_by le l) l.
Proof.
  induction l as [|x l IH]; simpl; [reflexivity|].
  rewrite insert_row_perm. now constructor.
Qed.

Lemma insert_row_sorted x l :
  StronglySorted R l -> StronglySorted R (insert_row le x l).
Proof.
  induction 1 as [|y l Hs IH Hy]; simpl.
  - repeat constructor.
  - destruct (le x y) eqn:Hxy.
    + constructor; [now constructor|].
      constructor; [exact Hxy|].
      eapply Forall_impl; [|exact Hy].
      intros z Hz. unfold R in *. eauto.
    + constructor; [exact IH|].
      assert (Hyx : R y x)
        by (destruct (le_total x y) as [E|E]; [congruence|exact E]).
      eapply Permutation_Forall.
      * symmetry. apply insert_row_perm.
      * now constructor.
Qed.

Lemma order_by_sorted l : StronglySorted R (order_by le l).
Proof.
  induction l as [|x l IH]; simpl; [constructor|].
  now apply insert_row_sorted.
Qed.

End OrderByFacts.

Lemma created_asc_total x y : created_asc x y = true \/ created_asc y x = true.
Proof. apply String.leb_total. Qed.

Lemma created_asc_trans x y z :
  created_asc x y = true -> created_asc y z = true -> created_asc x z = true.
Proof. apply TextOrder.leb_trans. Qed.

Lemma created_desc_total x y :
  created_desc x y = true \/ created_desc y x = true.
Proof. apply String.leb_total. Qed.

Lemma created_desc_trans x y z :
  created_desc x y = true -> created_desc y z = true ->
  created_desc x z = true.
Proof. intros H1 H2. eapply TextOrder.leb_trans; eauto. Qed.

(** ** Lists in general *)

Lemma StronglySorted_snoc {A} (R : A -> A -> Prop) l x :
  StronglySorted R l -> Forall (fun y => R y x) l ->
  StronglySorted R (l ++ [x]).
Proof.
  induction 1 as [|y l Hs IH Hy]; intros Hx; simpl.
  - repeat constructor.
  - inversion Hx; subst. constructor; [auto|].
    apply Forall_app. split; [exact Hy|]. now repeat constructor.
Qed.

Lemma StronglySorted_rev {A} (R : A -> A -> Prop) l :
  StronglySorted R l -> StronglySorted (fun x y => R y x) (rev l).
Proof.
  induction 1 as [|y l Hs IH Hy]; simpl; [constructor|].
  apply StronglySorted_snoc; [exact IH|].
  now apply Forall_rev.
Qed.

Lemma StronglySorted_map {A B} (f : A -> B) (R : B -> B -> Prop) l :
  StronglySorted (fun x y => R (f x) (f y)) l -> StronglySorted R (map f l).
Proof.
  induction 1 as [|y l Hs IH Hy]; simpl; constructor; [exact IH|].
  now apply Forall_map.
Qed.

Lemma in_firstn {A} n (l : list A) x : In x (firstn n l) -> In x l.
Proof.
  intros H. rewrite <- (firstn_skipn n l). apply in_or_app. now left.
Qed.

Lemma in_skipn {A} n (l : list A) x : In x (skipn n l) -> In x l.
Proof.
  intros H. rewrite <- (firstn_skipn n l). apply in_or_app. now right.
Qed.

Lemma StronglySorted_firstn {A} (R : A -> A -> Prop) n l :
  StronglySorted R l -> StronglySorted R (firstn n l).
Proof.
  intros H. revert n.
  induction H as [|y l Hs IH Hy]; intros [|n]; simpl; try constructor.
  - apply IH.
  - rewrite Forall_forall in *. intros z Hz. apply Hy.
    eapply in_firstn; eauto.
Qed.

(** In a sorted list everything kept by [firstn] is related to everything
    dropped. *)
Lemma StronglySorted_firstn_skipn {A} (R : A -> A -> Prop) n l x y :
  StronglySorted R l -> In x (firstn n l) -> In y (skipn n l) -> R x y.
Proof.
  intros H. revert n.
  induction H as [|z l Hs IH Hz]; intros [|n]; simpl; try tauto.
  intros [->|Hx] Hy.
  - rewrite Forall_forall in Hz. apply Hz. eapply in_skipn; eauto.
  - eauto.
Qed.

(** ** [select_messages] *)

Lemma where_clause_earlier cid before x :
  before <> Some "" ->
  where_clause cid before x = earlier_in_conversation cid before x.
Proof.
  intros Hne. unfold where_clause, earlier_in_conversation.
  destruct before as [ts|]; simpl; [|reflexivity].
  destruct (String.eqb_spec ts ""); [congruence|reflexivity].
Qed.

Lemma scanned_earlier cid before t :
  before <> Some "" ->
  filter (where_clause cid before) t
  = filter (earlier_in_conversation cid before) t.
Proof.
  intros Hne. apply filter_ext. intros x. now apply where_clause_earlier.
Qed.

Lemma sql_limit_nonneg n l :
  (0 <= n)%Z -> sql_limit n l = firstn (Z.to_nat n) l.
Proof.
  intros Hn. unfold sql_limit.
  destruct (Z.ltb_spec n 0); [lia|reflexivity].
Qed.

Lemma in_sql_limit n l x : In x (sql_limit n l) -> In x l.
Proof.
  unfold sql_limit. destruct (n <? 0)%Z; [auto|apply in_firstn].
Qed.

(** Every message listed is a row of the table that passes the [WHERE]
    clause. *)
Lemma list_messages_in t cid limit before m :
  In m (select_messages t cid limit before) ->
  exists x, In x t /\ where_clause cid before x = true
            /\ m = row_to_message x.
Proof.
  unfold select_messages. intros H.
  assert (Hx : exists x, In x (filter (where_clause cid before) t)
                         /\ m = row_to_message x).
  { destruct limit as [n|].
    - apply in_rev in H. apply in_map_iff in H as (x & <- & Hx).
      apply in_sql_limit in Hx. exists x. split; [|reflexivity].
      eapply Permutation_in; [apply order_by_perm|exact Hx].
    - apply in_map_iff in H as (x & <- & Hx).
      exists x. split; [|reflexivity].
      eapply Permutation_in; [apply order_by_perm|exact Hx]. }
  destruct Hx as (x & Hx & ->). apply filter_In in Hx as [? ?]. eauto.
Qed.

Lemma list_messages_before t cid limit ts m :
  ts <> "" ->
  In m (select_messages t cid limit (Some ts)) ->
  String.ltb (created_at_utc m) ts = true.
Proof.
  intros Hts H. apply list_messages_in in H as (x & _ & Hw & ->).
  rewrite where_clause_earlier in Hw by congruence.
  unfold earlier_in_conversation in Hw.
  now apply andb_true_iff in Hw as [_ Hw].
Qed.

Lemma list_messages_oldest_first t cid limit before :
  oldest_first (select_messages t cid limit before).
Proof.
  unfold select_messages, oldest_first.
  set (scanned := filter _ t).
  destruct limit as [n|].
  - apply StronglySorted_rev
      with (R := fun x y => String.leb (created_at_utc y) (created_at_utc x)
                            = true).
    apply StronglySorted_map.
    assert (Hs : StronglySorted (fun x y => created_desc x y = true)
                                (order_by created_desc scanned))
      by (apply order_by_sorted;
          [apply created_desc_total|apply created_desc_trans]).
    unfold sql_limit. destruct (n <? 0)%Z; [exact Hs|].
    now apply StronglySorted_firstn.
  - apply StronglySorted_map.
    apply order_by_sorted; [apply created_asc_total|apply created_asc_trans].
Qed.

(** The head of a listing is its oldest message. *)
Lemma oldest_first_head oldest later m :
  oldest_first (oldest :: later) -> In m (oldest :: later) ->
  String.leb (created_at_utc oldest) (created_at_utc m) = true.
Proof.
  intros Hs [<-|Hm].
  - apply TextOrder.leb_refl.
  - inversion Hs as [|? ? _ Hall]; subst.
    rewrite Forall_forall in Hall. now apply Hall.
Qed.

(** The statement of [list_messages], for a limit that is not negative. *)
Lemma select_messages_order_and_pages
        (t : list Row) (cid : string) (n : Z) (before : option string)
        (limit1 : option Z) (before1 : option string)
        (oldest : MessageRow) (later : list MessageRow) (limit2 : option Z) :
  (0 <= n)%Z ->
  before <> Some "" ->
  select_messages t cid limit1 before1 = oldest :: later ->
  created_at_utc oldest <> "" ->
  (oldest_first (select_messages t cid None None)
   /\ Permutation (select_messages t cid None None)
                  (map row_to_message (filter (in_conversation cid) t)))
  /\ (let candidates := filter (earlier_in_conversation cid before) t in
      let page := select_messages t cid (Some n) before in
      oldest_first page
      /\ (forall ts m, before = Some ts -> In m page ->
                       String.ltb (created_at_utc m) ts = true)
      /\ List.length page = Nat.min (Z.to_nat n) (List.length candidates)
      /\ exists older,
          Permutation (map row_to_message candidates) (older ++ page)
          /\ forall x y, In x older -> In y page ->
                         String.leb (created_at_utc x) (created_at_utc y)
                         = true)
  /\ (forall m,
        In m (select_messages t cid limit2 (Some (created_at_utc oldest))) ->
        ~ In m (oldest :: later)).
Proof.
  intros Hn Hbefore Hpage1 Holdest. split; [|split].
  - split; [apply list_messages_oldest_first|].
    unfold select_messages. apply Permutation_map.
    rewrite order_by_perm.
    erewrite filter_ext; [reflexivity|].
    intros x. unfold where_clause, in_conversation. simpl.
    now rewrite andb_true_r.
  - cbv zeta. split; [apply list_messages_oldest_first|]. split; [|split].
    + intros ts m -> Hm. eapply list_messages_before; eauto. congruence.
    + unfold select_messages.
      rewrite length_rev, length_map, sql_limit_nonneg, length_firstn by lia.
      rewrite (Permutation_length (order_by_perm created_desc _)).
      now rewrite scanned_earlier.
    + unfold select_messages. rewrite sql_limit_nonneg by lia.
      rewrite scanned_earlier by assumption.
      set (sorted := order_by created_desc _).
      exists (map row_to_message (skipn (Z.to_nat n) sorted)). split.
      * rewrite <- (Permutation_rev (map _ (firstn _ _))).
        rewrite <- map_app, Permutation_app_comm, firstn_skipn.
        apply Permutation_map. symmetry. apply order_by_perm.
      * intros x y Hx Hy. apply in_rev in Hy.
        apply in_map_iff in Hx as (x' & <- & Hx).
        apply in_map_iff in Hy as (y' & <- & Hy).
        assert (Hs : StronglySorted (fun a b => created_desc a b = true)
                                    sorted)
          by (apply order_by_sorted;
              [apply created_desc_total|apply created_desc_trans]).
        exact (@StronglySorted_firstn_skipn
                 _ (fun a b => created_desc a b = true) _ _ _ _ Hs Hy Hx).
  - intros m Hm2 Hm1.
    apply list_messages_before in Hm2; [|assumption].
    assert (Hle : String.leb (created_at_utc oldest) (created_at_utc m) = true).
    { apply (oldest_first_head (later := later)); [|assumption].
      rewrite <- Hpage1. apply list_messages_oldest_first. }
    pose proof (TextOrder.leb_ltb_trans _ _ _ Hle Hm2) as Hlt.
    rewrite TextOrder.ltb_irrefl in Hlt. discriminate.
Qed.

Lemma list_messages_selects t cid limit before l :
  list_messages t cid limit before = Ok l ->
  l = select_messages t cid limit before.
Proof.
  unfold list_messages. destruct limit as [n|]; [destruct (sqlite_int n)|];
    congruence.
Qed.

Lemma sqlite_int_range n : (0 <= n < 2 ^ 63)%Z -> sqlite_int n = true.
Proof.
  intros H. unfold sqlite_int. apply andb_true_iff.
  split; [apply Z.leb_le|apply Z.ltb_lt]; lia.
Qed.

(** C8.  Without a cursor [list_messages] returns the messages of the
    conversation, oldest first.  With a limit [n] that is a 64-bit integer
    and not negative it returns a page that is oldest first, in which every
    message is strictly before [before] when that is given, and which holds
    the [n] most recent such messages: the candidates split into the page
    and messages that are no more recent than any message of the page.
    Listing again with [before] set to the timestamp of the oldest message
    of a page returns no message of that page. *)
Theorem list_messages_order_and_pages
        (t : list Row) (cid : string) (n : Z) (before : option string)
        (limit1 : option Z) (before1 : option string)
        (oldest : MessageRow) (later : list MessageRow) (limit2 : option Z) :
  (0 <= n < 2 ^ 63)%Z ->
  before <> Some "" ->
  list_messages t cid limit1 before1 = Ok (oldest :: later) ->
  created_at_utc oldest <> "" ->
  (exists all,
      list_messages t cid None None = Ok all
      /\ oldest_first all
      /\ Permutation all
                     (map row_to_message (filter (in_conversation cid) t)))
  /\ (let candidates := filter (earlier_in_conversation cid before) t in
      exists page,
        list_messages t cid (Some n) before = Ok page
        /\ oldest_first page
        /\ (forall ts m, before = Some ts -> In m page ->
                         String.ltb (created_at_utc m) ts = true)
        /\ List.length page = Nat.min (Z.to_nat n) (List.length candidates)
        /\ exists older,
            Permutation (map row_to_message candidates) (older ++ page)
            /\ forall x y, In x older -> In y page ->
                           String.leb (created_at_utc x) (created_at_utc y)
                           = true)
  /\ (forall again m,
        list_messages t cid limit2 (Some (created_at_utc oldest)) = Ok again ->
        In m again ->
        ~ In m (oldest :: later)).
Proof.
  intros Hn Hbefore Hpage1 Holdest.
  apply list_messages_selects in Hpage1. symmetry in Hpage1.
  assert (Hn0 : (0 <= n)%Z) by lia.
  destruct (@select_messages_order_and_pages
              t cid n before limit1 before1 oldest later limit2
              Hn0 Hbefore Hpage1 Holdest) as (Hall & Hpage & Hagain).
  split; [|split].
  - eexists. split; [reflexivity|exact Hall].
  - cbv zeta in *. eexists. split; [|exact Hpage].
    unfold list_messages. now rewrite sqlite_int_range.
  - intros again m Hl. apply list_messages_selects in Hl. subst again.
    apply Hagain.
Qed.

Lemma list_messages_order_and_pages_witness :
  let t := Examples.three_messages in
  let m2 := mkMessageRow "m2" "c1" "assistant" "two" "2024-05-01T09:00:02Z"
                         None [] in
  let m3 := mkMessageRow "m3" "c1" "user" "three" "2024-05-01T09:00:03Z"
                         None [] in
  (0 <= 2 < 2 ^ 63)%Z
  /\ (None : option string) <> Some ""
  /\ list_messages t "c1" (Some 2%Z) None = Ok [m2; m3]
  /\ created_at_utc m2 <> ""
  /\ (forall again m,
        list_messages t "c1" (Some 2%Z) (Some (created_at_utc m2)) = Ok again ->
        In m again ->
        ~ In m [m2; m3]).
Proof.
  cbv zeta.
  assert (H1 : (0 <= 2 < 2 ^ 63)%Z) by lia.
  assert (H2 : (None : option string) <> Some "") by discriminate.
  assert (H3 : list_messages Examples.three_messages "c1" (Some 2%Z) None
               = Ok [mkMessageRow "m2" "c1" "assistant" "two"
                                  "2024-05-01T09:00:02Z" None [];
                     mkMessageRow "m3" "c1" "user" "three"
                                  "2024-05-01T09:00:03Z" None []])
    by reflexivity.
  assert (H4 : "2024-05-01T09:00:02Z" <> "") by discriminate.
  split; [exact H1|]. split; [exact H2|]. split; [exact H3|].
  split; [exact H4|].
  exact (proj2 (proj2 (@list_messages_order_and_pages
                         Examples.three_messages "c1" 2%Z None (Some 2%Z)
                         None _ _ (Some 2%Z) H1 H2 H3 H4))).
Defined.

End DbFacts.

(* ===================================================================== *)
(** * Facts about api/http.py *)
(* ===================================================================== *)

Module HttpFacts.

Import Http HttpSpec.

(** A limit the endpoint lets through is one [sqlite3] binds. *)
Lemma query_limit_sqlite_int n :
  (1 <=? n)%Z && (n <=? 200)%Z = true -> Db.sqlite_int n = true.
Proof.
  intros H. apply andb_true_iff in H as [H1 H2].
  apply Z.leb_le in H1, H2. unfold Db.sqlite_int.
  apply andb_true_iff. split; [apply Z.leb_le|apply Z.ltb_lt]; lia.
Qed.

Lemma list_messages_unfold cid limit before w :
  list_messages cid limit before w
  = let n := match limit with Some n => n | None => 50%Z end in
    if negb ((1 <=? n)%Z && (n <=? 200)%Z)
    then (Raised RequestValidationError, w)
    else
      let w1 := set_ids_drawn w (S (ids_drawn w)) in
      match before_timestamp before w with
      | Raised e => (Raised e, w1)
      | Ok before_ts =>
          match each to_record
                     (Db.select_messages (messages w) cid (Some n) before_ts)
          with
          | Raised e => (Raised e, w1)
          | Ok its =>
              (Ok (ok (id_source w (ids_drawn w))
                      (mkMessageListResult
                         its
                         (if (Z.of_nat (List.length its) =? n)%Z
                          then option_map id (hd_error (rev its))
                          else None))),
               w1)
          end
      end.
Proof.
  unfold list_messages. cbv zeta.
  set (n := match limit with Some n => n | None => 50%Z end).
  destruct ((1 <=? n)%Z && (n <=? 200)%Z) eqn:Hr; cbn [negb];
    [|reflexivity].
  pose proof (query_limit_sqlite_int n Hr) as Hint.
  apply andb_true_iff in Hr as [H1 _]. apply Z.leb_le in H1.
  unfold before_timestamp, bind, new_trace_id, new_id, attempt, gets, ret,
    raise.
  assert (Hrest : forall before_ts,
    match Db.list_messages (messages w) cid (Some n) before_ts with
    | Ok rows =>
        match each to_record rows with
        | Ok a =>
            match
              (if (Z.of_nat (List.length a) =? n)%Z
               then fun w0 : World =>
                      match last_item a w0 with
                      | (Ok x, w'0) => (Ok (Some (id x)), w'0)
                      | (Raised e, w'0) => (Raised e, w'0)
                      end
               else fun w0 : World => (Ok None, w0))
                (set_ids_drawn w (S (ids_drawn w)))
            with
            | (Ok nb, w'0) =>
                (Ok (ok (id_source w (ids_drawn w))
                        (mkMessageListResult a nb)), w'0)
            | (Raised e, w'0) => (Raised e, w'0)
            end
        | Raised e => (Raised e, set_ids_drawn w (S (ids_drawn w)))
        end
    | Raised e => (Raised e, set_ids_drawn w (S (ids_drawn w)))
    end
    = match each to_record
                 (Db.select_messages (messages w) cid (Some n) before_ts)
      with
      | Raised e => (Raised e, set_ids_drawn w (S (ids_drawn w)))
      | Ok its =>
          (Ok (ok (id_source w (ids_drawn w))
                  (mkMessageListResult
                     its
                     (if (Z.of_nat (List.length its) =? n)%Z
                      then option_map id (hd_error (rev its))
                      else None))),
           set_ids_drawn w (S (ids_drawn w)))
      end).
  { intros before_ts. unfold Db.list_messages. rewrite Hint.
    destruct (each to_record _) as [its|e]; [|reflexivity].
    destruct (Z.eqb_spec (Z.of_nat (List.length its)) n) as [E|E];
      [|reflexivity].
    unfold last_item, ret, raise. destruct (rev its) as [|x l] eqn:Er.
    - apply (f_equal (@List.length _)) in Er. rewrite length_rev in Er.
      cbn in Er. lia.
    - reflexivity. }
  destruct (PyStr.truthy before).
  - cbn [messages set_ids_drawn].
    destruct (Db.get_message (messages w) (PyStr.or_else before ""))
      as [row|]; [|reflexivity].
    apply Hrest.
  - apply Hrest.
Qed.

(** A cursor is returned only with a full page, and then it names the
    last item of [items]. *)
Lemma list_messages_cursor cid limit before w env w' :
  list_messages cid (Some limit) before w = (Ok env, w') ->
  next_before (data env)
  = if (Z.of_nat (List.length (items (data env))) =? limit)%Z
    then option_map id (hd_error (rev (items (data env))))
    else None.
Proof.
  rewrite list_messages_unfold. cbv zeta.
  destruct (negb _); [discriminate|].
  destruct (before_timestamp before w); [|discriminate].
  destruct (each to_record _); [|discriminate].
  intros H. inversion H; subst. reflexivity.
Qed.

(** C2, on the conversation of [Examples.three_messages] with
    [limit = 2].  The first page holds [m2] and [m3], oldest first, and its
    cursor names [m3], the newest item of the page, not the oldest.
    Following the cursor returns [m1] and [m2]: [m2] was on the first
    page. *)
Theorem list_messages_cursor_names_newest_item :
  let w := Examples.world_with Examples.three_messages in
  let page1 := list_messages "c1" (Some 2%Z) None w in
  let page2 := list_messages "c1" (Some 2%Z) (page_cursor (fst page1))
                             (snd page1) in
  page_ids (fst page1) = ["m2"; "m3"]
  /\ page_cursor (fst page1) = Some "m3"
  /\ page_ids (fst page2) = ["m1"; "m2"]
  /\ In "m2" (page_ids (fst page1)) /\ In "m2" (page_ids (fst page2)).
Proof. cbv. intuition. Qed.

End HttpFacts.

(* ===================================================================== *)
(** * Facts about core/orchestrator.py *)
(* ===================================================================== *)

Module OrchestratorFacts.

Import Orchestrator OrchestratorSpec.

(** ** The cancellation event *)

Lemma is_set_mono ev k k' :
  k <= k' -> is_set ev k = true -> is_set ev k' = true.
Proof.
  destruct ev as [c|]; simpl; [|discriminate].
  rewrite !Nat.leb_le. lia.
Qed.

Lemma is_set_earlier ev k k' :
  k <= k' -> is_set ev k' = false -> is_set ev k = false.
Proof.
  intros Hle H. destruct (is_set ev k) eqn:E; [|reflexivity].
  rewrite (is_set_mono ev Hle E) in H. discriminate.
Qed.

(** ** Effects that leave the callbacks, or the table, alone *)

Lemma keeps_ret {A B} (f : World -> B) (a : A) : keeps f (ret a).
Proof. intros w. reflexivity. Qed.

Lemma keeps_raise {A B} (f : World -> B) e : keeps f (@raise World A e).
Proof. intros w. reflexivity. Qed.

Lemma keeps_gets {A B} (f : World -> B) (g : World -> A) : keeps f (gets g).
Proof. intros w. reflexivity. Qed.

Lemma keeps_bind {A A' B} (f : World -> B) (c : M A) (k : A -> M A') :
  keeps f c -> (forall a, keeps f (k a)) -> keeps f (bind c k).
Proof.
  intros Hc Hk w. unfold bind. specialize (Hc w).
  destruct (c w) as [[a|e] w']; simpl in *.
  - now rewrite Hk.
  - exact Hc.
Qed.

Lemma keeps_if {A B} (f : World -> B) (b : bool) (c1 c2 : M A) :
  keeps f c1 -> keeps f c2 -> keeps f (if b then c1 else c2).
Proof. now destruct b. Qed.

Lemma new_id_keeps_callbacks : keeps callbacks new_id.
Proof. intros w. reflexivity. Qed.

Lemma utc_now_iso_keeps_callbacks : keeps callbacks utc_now_iso.
Proof. intros w. reflexivity. Qed.

Lemma publish_keeps_callbacks topic env : keeps callbacks (publish topic env).
Proof. intros w. reflexivity. Qed.

Lemma create_message_keeps_callbacks mid cid role text key att :
  keeps callbacks (Db.create_message mid cid role text key att).
Proof.
  intros w. rewrite DbFacts.create_message_unfold.
  unfold DbSpec.insert_path.
  destruct (PyStr.truthy key); [destruct (find _ _)|];
    try destruct (_ || _); reflexivity.
Qed.

Lemma _publish_keeps_callbacks ty tid pl np :
  keeps callbacks (_publish ty tid pl np).
Proof.
  unfold _publish.
  apply keeps_bind; [apply new_id_keeps_callbacks|intros].
  apply keeps_bind; [apply utc_now_iso_keeps_callbacks|intros].
  apply publish_keeps_callbacks.
Qed.

Lemma or_call_keeps_callbacks x c :
  keeps callbacks c -> keeps callbacks (or_call x c).
Proof. intros H. unfold or_call. apply keeps_if; [apply keeps_ret|exact H]. Qed.

Lemma store_user_message_keeps_callbacks cid text att tid umid key :
  keeps callbacks (store_user_message cid text att tid umid key).
Proof.
  unfold store_user_message.
  apply keeps_bind;
    [apply or_call_keeps_callbacks, new_id_keeps_callbacks|intros].
  apply keeps_bind;
    [apply or_call_keeps_callbacks, new_id_keeps_callbacks|intros].
  apply keeps_bind; [apply create_message_keeps_callbacks|intros].
  apply keeps_bind; [apply _publish_keeps_callbacks|intros].
  apply keeps_ret.
Qed.

Lemma store_assistant_message_keeps_callbacks cid text tid urow out :
  keeps callbacks (store_assistant_message cid text tid urow out).
Proof.
  unfold store_assistant_message.
  apply keeps_bind; [apply new_id_keeps_callbacks|intros].
  apply keeps_bind; [apply create_message_keeps_callbacks|intros].
  apply keeps_bind; [apply _publish_keeps_callbacks|intros].
  apply keeps_ret.
Qed.

(** [build_context] reads the table and changes nothing; it raises when
    [context_limit] is not an integer that [sqlite3] binds. *)
Lemma build_context_cases o cid text urow w :
  (Db.sqlite_int (context_limit o) = true
   /\ exists ctx, build_context o cid text urow w = (Ok ctx, w))
  \/ (Db.sqlite_int (context_limit o) = false
      /\ build_context o cid text urow w = (Raised OverflowError, w)).
Proof.
  unfold build_context, bind, attempt, ret, Db.list_messages.
  destruct (Db.sqlite_int (context_limit o)); [left|right];
    (split; [reflexivity|]); [eexists|]; reflexivity.
Qed.

Lemma build_context_state o cid text urow w r w' :
  build_context o cid text urow w = (r, w') -> w' = w.
Proof.
  unfold build_context, bind, attempt, ret.
  destruct (Db.list_messages _ _ _ _); congruence.
Qed.

(** ** The streaming loop *)

Lemma set_callbacks_twice w l1 l2 :
  set_callbacks (set_callbacks w l1) l2 = set_callbacks w l2.
Proof. reflexivity. Qed.

(** Fragments that arrive while the event is not set are delivered and
    accumulated, and the loop goes on. *)
Lemma astream_loop_fragments cancel ds :
  forall rest check parts w,
    (forall k, k < check + List.length ds -> is_set cancel k = false) ->
    astream_loop cancel check (map Fragment ds ++ rest) parts w
    = astream_loop cancel (check + List.length ds) rest (parts ++ ds)
                   (set_callbacks w (callbacks w ++ map OnDelta ds)).
Proof.
  induction ds as [|d ds IH]; intros rest check parts w Hk.
  - simpl. rewrite Nat.add_0_r, !app_nil_r. now destruct w.
  - cbn [map app astream_loop List.length].
    rewrite (Hk check) by (simpl; lia).
    unfold bind at 1. cbn [on_delta modify].
    rewrite IH by (intros k Hlt; apply Hk; simpl; lia).
    cbn [callbacks set_callbacks].
    rewrite <- !app_assoc. cbn [app].
    now rewrite Nat.add_succ_r.
Qed.

(** The callbacks of a loop are deltas only, and the loop never raises. *)
Lemma astream_loop_callbacks cancel stream :
  forall check parts w,
  exists exit ds,
    fst (astream_loop cancel check stream parts w) = Ok exit
    /\ callbacks (snd (astream_loop cancel check stream parts w))
       = callbacks w ++ map OnDelta ds
    /\ messages (snd (astream_loop cancel check stream parts w)) = messages w
    /\ bus_log (snd (astream_loop cancel check stream parts w)) = bus_log w.
Proof.
  induction stream as [|[d|msg] stream IH]; intros check parts w.
  - exists (Exhausted, parts, check), []. cbn. now rewrite app_nil_r.
  - cbn [astream_loop]. destruct (is_set cancel check).
    + exists (Broke, parts, S check), []. cbn. now rewrite app_nil_r.
    + unfold bind at 1 2 3 4. cbn [on_delta modify].
      destruct (IH (S check) (parts ++ [d])
                   (set_callbacks w (callbacks w ++ [OnDelta d])))
        as (exit & ds & H1 & H2 & H3 & H4).
      exists exit, (d :: ds). rewrite H1, H2, H3, H4.
      cbn. now rewrite <- app_assoc.
  - exists (Failed msg, parts, check), []. cbn. now rewrite app_nil_r.
Qed.

(** ** [run_turn], from the stored user message on *)

Lemma run_turn_from_stored o cid text att cancel tid umid key w tid' urow w1 ctx w2 :
  store_user_message cid text att tid umid key w = (Ok (tid', urow), w1) ->
  build_context o cid text urow w1 = (Ok ctx, w2) ->
  run_turn o cid text att cancel tid umid key w
  = run_llm_streaming o cid text cancel tid' urow ctx w1.
Proof.
  intros Hs Hc. unfold run_turn.
  rewrite (bind_ok _ _ _ Hs).
  assert (w2 = w1) by (eapply build_context_state; exact Hc).
  subst. now rewrite (bind_ok _ _ _ Hc).
Qed.

Lemma run_turn_context_raises o cid text att cancel tid umid key w tid' urow w1 e :
  store_user_message cid text att tid umid key w = (Ok (tid', urow), w1) ->
  build_context o cid text urow w1 = (Raised e, w1) ->
  run_turn o cid text att cancel tid umid key w = (Raised e, w1).
Proof.
  intros Hs Hc. unfold run_turn.
  rewrite (bind_ok _ _ _ Hs). now rewrite (bind_raised _ _ _ Hc).
Qed.

Lemma run_turn_store_raises o cid text att cancel tid umid key w e w1 :
  store_user_message cid text att tid umid key w = (Raised e, w1) ->
  run_turn o cid text att cancel tid umid key w = (Raised e, w1).
Proof. intros Hs. unfold run_turn. now rewrite (bind_raised _ _ _ Hs). Qed.

(** Cancelled before generation starts. *)
Lemma run_llm_streaming_precancelled o cid text cancel tid urow ctx w :
  is_set cancel 0 = true ->
  run_llm_streaming o cid text cancel tid urow ctx w
  = (Ok (cancelled_result tid urow), called w [OnStatus "queued"]).
Proof.
  intros H. unfold run_llm_streaming, bind, on_status, modify.
  now rewrite H.
Qed.

(** Generation started: the three checkpoints, then the loop. *)
Lemma run_llm_streaming_started o cid text cancel tid urow ctx w :
  is_set cancel 0 = false ->
  run_llm_streaming o cid text cancel tid urow ctx w
  = bind (astream_loop cancel 1 (llm o ctx) [])
         (fun exit =>
            match exit with
            | (Failed e, _, _) => ret (error_result tid urow e)
            | (_, out_text_parts, check) =>
                if is_set cancel check
                then ret (cancelled_result tid urow)
                else store_assistant_message cid text tid urow
                                             (PyStr.join out_text_parts)
            end)
         (called w checkpoints).
Proof.
  intros H. unfold run_llm_streaming, bind at 1, on_status, modify.
  rewrite H. unfold bind at 1 2. cbn [callbacks set_callbacks].
  unfold called, checkpoints. rewrite <- !app_assoc. reflexivity.
Qed.

(** ** Generation errors *)

(** C4.  The user message being stored, if the generator raises [msg]
    after yielding the fragments [ds], none of the checks made so far
    having found the event set, then [run_turn] returns [reason = "error"]
    with the error [{code: UNAVAILABLE, message: msg}] and the warning that
    [llm] is down; the table is as it was after the user message was stored,
    so no assistant message exists; the deltas [ds] were handed to the delta
    callback and stay in the record of callbacks. *)
Theorem generation_error_result
        o cid text att cancel tid umid key w tid' urow w1 ctx w2 ds msg rest :
  store_user_message cid text att tid umid key w = (Ok (tid', urow), w1) ->
  build_context o cid text urow w1 = (Ok ctx, w2) ->
  llm o ctx = map Fragment ds ++ GenError msg :: rest ->
  is_set cancel (List.length ds) = false ->
  exists r w',
    run_turn o cid text att cancel tid umid key w = (Ok r, w')
    /\ reason r = "error"
    /\ error r = Some (mkErrorInfo "UNAVAILABLE" msg)
    /\ capability_warnings r = [mkCapabilityWarning "llm" "down" "explicit"]
    /\ assistant_message r = None
    /\ usage r = mkUsage 0 0
    /\ messages w' = messages w1
    /\ callbacks w' = callbacks w1 ++ checkpoints ++ map OnDelta ds.
Proof.
  intros Hs Hc Hllm Hcancel.
  exists (error_result tid' urow msg),
         (called w1 (checkpoints ++ map OnDelta ds)).
  split; [|cbn; intuition].
  rewrite (@run_turn_from_stored o cid text att cancel tid umid key w
                                 tid' urow w1 ctx w2 Hs Hc).
  rewrite run_llm_streaming_started
    by (eapply is_set_earlier; [|exact Hcancel]; lia).
  rewrite Hllm. unfold bind.
  rewrite astream_loop_fragments
    by (intros k Hk; eapply is_set_earlier; [|exact Hcancel]; lia).
  cbn. unfold called. cbn. now rewrite <- !app_assoc.
Qed.

(** ** Cancellation *)

Lemma fragments_map l :
  Forall (fun e => is_fragment e = true) l -> map Fragment (deltas l) = l.
Proof.
  induction 1 as [|[d|m] l Hx Hl IH]; simpl in *; try discriminate;
    congruence.
Qed.

Lemma deltas_length l :
  Forall (fun e => is_fragment e = true) l ->
  List.length (deltas l) = List.length l.
Proof.
  intros H. rewrite <- (fragments_map H) at 2. now rewrite length_map.
Qed.

Lemma firstn_succ_skipn {A} n (l : list A) x rest :
  skipn n l = x :: rest -> firstn (S n) l = firstn n l ++ [x].
Proof.
  revert l. induction n as [|n IH]; intros [|y l] H; simpl in H;
    try discriminate.
  - injection H as -> ->. reflexivity.
  - rewrite !firstn_cons, (IH _ H). reflexivity.
Qed.

Lemma in_firstn_le {A} n m (l : list A) x :
  n <= m -> In x (firstn n l) -> In x (firstn m l).
Proof.
  revert m l. induction n as [|n IH]; intros m l Hle; [intros []|].
  destruct m as [|m]; [lia|]. destruct l as [|y l]; [intros []|].
  rewrite !firstn_cons. intros [->|H]; [now left|right].
  apply IH; [lia|exact H].
Qed.

(** The loop of a turn cancelled during generation: the fragments before
    the check that finds the event set are delivered, the loop ends without
    an error, and the check after it finds the event set. *)
Lemma astream_loop_cancelled c stream w :
  1 <= c -> cancellation_observed c stream ->
  exists exit parts check,
    astream_loop (Some c) 1 stream [] w
    = (Ok (exit, parts, check),
       called w (map OnDelta (deltas (firstn (c - 1) stream))))
    /\ (exit = Exhausted \/ exit = Broke)
    /\ is_set (Some c) check = true.
Proof.
  intros Hc [Hfr Hlen].
  assert (Hpre : Forall (fun e => is_fragment e = true) (firstn (c - 1) stream)).
  { rewrite Forall_forall in *. intros e He. apply Hfr.
    eapply in_firstn_le; [|exact He]. lia. }
  assert (Hlenpre : List.length (deltas (firstn (c - 1) stream)) = c - 1).
  { rewrite (deltas_length Hpre), length_firstn. lia. }
  pose proof (@astream_loop_fragments
                (Some c) (deltas (firstn (c - 1) stream))
                (skipn (c - 1) stream) 1 [] w) as Hloop.
  rewrite (fragments_map Hpre), firstn_skipn, Hlenpre in Hloop.
  rewrite Hloop by (intros k Hk; simpl; apply Nat.leb_gt; lia).
  clear Hloop. replace (1 + (c - 1)) with c by lia.
  fold (called w (map OnDelta (deltas (firstn (c - 1) stream)))).
  destruct (skipn (c - 1) stream) as [|e rest] eqn:Hrest.
  - eexists Exhausted, _, c. cbn. split; [reflexivity|].
    split; [now left|apply Nat.leb_refl].
  - assert (He : is_fragment e = true).
    { rewrite Forall_forall in Hfr. apply Hfr.
      replace c with (S (c - 1)) by lia.
      rewrite (firstn_succ_skipn _ _ Hrest). apply in_or_app. right.
      now left. }
    destruct e as [d|m]; [|discriminate].
    cbn [astream_loop]. replace (is_set (Some c) c) with true
      by (symmetry; apply Nat.leb_refl).
    eexists Broke, _, (S c). cbn. split; [reflexivity|].
    split; [now right|apply Nat.leb_le; lia].
Qed.

(** C3.  The user message being stored, if the cancellation event is found
    set by a check that [run_turn] makes (the check before generation, the
    check made on a fragment, or the check after the loop), then [run_turn]
    returns [reason = "cancelled"] with no assistant message and zero usage;
    the table and the bus are as they were after the user message was
    stored, so the text accumulated so far is not persisted. *)
Theorem cancelled_turn_result
        o cid text att c tid umid key w tid' urow w1 ctx w2 :
  store_user_message cid text att tid umid key w = (Ok (tid', urow), w1) ->
  build_context o cid text urow w1 = (Ok ctx, w2) ->
  cancellation_observed c (llm o ctx) ->
  exists r w',
    run_turn o cid text att (Some c) tid umid key w = (Ok r, w')
    /\ reason r = "cancelled"
    /\ assistant_message r = None
    /\ usage r = mkUsage 0 0
    /\ error r = None
    /\ messages w' = messages w1
    /\ bus_log w' = bus_log w1
    /\ callbacks w'
       = callbacks w1
           ++ (if (c =? 0)%nat then [OnStatus "queued"]
               else checkpoints
                      ++ map OnDelta (deltas (firstn (c - 1) (llm o ctx)))).
Proof.
  intros Hs Hc Hobs.
  rewrite (@run_turn_from_stored o cid text att (Some c) tid umid key w
                                 tid' urow w1 ctx w2 Hs Hc).
  destruct c as [|c'].
  - exists (cancelled_result tid' urow), (called w1 [OnStatus "queued"]).
    split; [now apply run_llm_streaming_precancelled|cbn; intuition].
  - set (c := S c') in *.
    rewrite run_llm_streaming_started by reflexivity.
    destruct (astream_loop_cancelled (called w1 checkpoints)
                                     (c := c) ltac:(lia) Hobs)
      as (exit & parts & check & Hloop & Hexit & Hset).
    exists (cancelled_result tid' urow),
           (called (called w1 checkpoints)
                   (map OnDelta (deltas (firstn (c - 1) (llm o ctx))))).
    split.
    + unfold bind. rewrite Hloop.
      destruct Hexit as [-> | ->]; now rewrite Hset.
    + cbn. rewrite <- !app_assoc. intuition.
Qed.

(** ** Completion *)

Lemma fresh_id_no_violation t mid cid role text at_utc js :
  (forall x, In x t -> col_message_id x <> mid) ->
  Db.violates_primary_key t (mkRow mid cid role text at_utc None js)
  || Db.violates_idx_messages_idempotent
       t (mkRow mid cid role text at_utc None js) = false.
Proof.
  intros Hfresh. rewrite orb_false_r.
  unfold Db.violates_primary_key. cbn [col_message_id].
  induction t as [|x t IH]; simpl; [reflexivity|].
  rewrite IH by (intros y Hy; apply Hfresh; now right).
  rewrite orb_false_r. apply String.eqb_neq. apply Hfresh. now left.
Qed.

(** C6.  The user message being stored, if the generator yields the
    fragments [ds] and ends, no check having found the event set, and the
    identifier generated for the assistant message is not in the table, then
    [run_turn] returns [reason = "completed"]; the text [ds] joined is stored
    as one new row with role [assistant] and no [client_request_id]; one
    [message.stored] event with role [assistant] is published; usage holds
    the numbers of whitespace-delimited words of the input and of the output
    text. *)
Theorem completed_turn_result
        o cid text att cancel tid umid key w tid' urow w1 ctx w2 ds :
  store_user_message cid text att tid umid key w = (Ok (tid', urow), w1) ->
  build_context o cid text urow w1 = (Ok ctx, w2) ->
  llm o ctx = map Fragment ds ->
  is_set cancel (S (List.length ds)) = false ->
  (forall x, In x (messages w1) ->
             col_message_id x <> id_source w1 (ids_drawn w1)) ->
  let mid := id_source w1 (ids_drawn w1) in
  let now := clock_source w1 (clock_reads w1) in
  let out_text := PyStr.join ds in
  exists r w',
    run_turn o cid text att cancel tid umid key w = (Ok r, w')
    /\ reason r = "completed"
    /\ assistant_message r
       = Some (mkMessageRow mid cid "assistant" out_text now None [])
    /\ usage r
       = mkUsage (Z.of_nat (List.length (PyStr.split text)))
                 (Z.of_nat (List.length (PyStr.split out_text)))
    /\ error r = None
    /\ messages w'
       = messages w1
           ++ [mkRow mid cid "assistant" out_text now None (JsonList [])]
    /\ bus_log w'
       = bus_log w1
           ++ [stored_event (id_source w1 (S (ids_drawn w1)))
                            (clock_source w1 (S (clock_reads w1)))
                            tid' cid mid "assistant"]
    /\ callbacks w' = callbacks w1 ++ checkpoints ++ map OnDelta ds.
Proof.
  intros Hs Hc Hllm Hcancel Hfresh mid now out_text.
  rewrite (@run_turn_from_stored o cid text att cancel tid umid key w
                                 tid' urow w1 ctx w2 Hs Hc).
  rewrite run_llm_streaming_started
    by (eapply is_set_earlier; [|exact Hcancel]; lia).
  rewrite Hllm. unfold bind at 1.
  rewrite <- (app_nil_r (map Fragment ds)).
  rewrite astream_loop_fragments
    by (intros k Hk; eapply is_set_earlier; [|exact Hcancel]; lia).
  cbn [astream_loop ret]. cbn [Nat.add]. rewrite Hcancel. cbn [app].
  unfold store_assistant_message, bind at 1, new_id.
  cbn [id_source ids_drawn called set_callbacks].
  unfold bind at 1. rewrite DbFacts.create_message_unfold.
  cbn [PyStr.truthy]. unfold DbSpec.insert_path, DbSpec.new_row.
  cbn [messages set_ids_drawn clock_source clock_reads].
  rewrite fresh_id_no_violation by exact Hfresh.
  rewrite !Z.max_r by lia.
  eexists. eexists. split; [reflexivity|].
  cbn. unfold stored_event. rewrite <- !app_assoc. intuition.
Qed.

(** ** The order of the callbacks *)

(** C9.  Whatever the arguments and the world, the callbacks [run_turn]
    invokes are settled by how far the call gets.  When the user message
    cannot be stored, or the context cannot be read because
    [context_limit] is not an integer the store accepts, [run_turn] raises
    and has invoked nothing.  In every other call it invokes [queued]
    first; when the event is found set then, nothing more; otherwise
    [thinking] and [streaming] follow in this order, and after [streaming]
    only delta callbacks. *)
Theorem status_checkpoints_in_order o cid text att cancel tid umid key w :
  let res := run_turn o cid text att cancel tid umid key w in
  exists invoked,
    callbacks (snd res) = callbacks w ++ invoked
    /\ match fst (store_user_message cid text att tid umid key w) with
       | Raised e => fst res = Raised e /\ invoked = []
       | Ok _ =>
           if negb (Db.sqlite_int (context_limit o))
           then fst res = Raised OverflowError /\ invoked = []
           else if is_set cancel 0
                then invoked = [OnStatus "queued"]
                else exists ds,
                    invoked = [OnStatus "queued"; OnStatus "thinking";
                               OnStatus "streaming"] ++ map OnDelta ds
       end.
Proof.
  cbv zeta.
  pose proof (store_user_message_keeps_callbacks cid text att tid umid key w)
    as Hcb.
  destruct (store_user_message cid text att tid umid key w)
    as [[[tid' urow]|e] w1] eqn:Hs; simpl in Hcb; cbn [fst].
  - destruct (build_context_cases o cid text urow w1)
      as [(Hint & ctx & Hc)|(Hint & Hc)]; rewrite Hint; cbn [negb].
    + rewrite (@run_turn_from_stored o cid text att cancel tid umid key w
                                     tid' urow w1 ctx w1 Hs Hc).
      destruct (is_set cancel 0) eqn:H0.
      * rewrite run_llm_streaming_precancelled by exact H0.
        exists [OnStatus "queued"]. cbn. rewrite Hcb. auto.
      * rewrite run_llm_streaming_started by exact H0.
        destruct (astream_loop_callbacks cancel (llm o ctx) 1 []
                                         (called w1 checkpoints))
          as (exit & ds & Hexit & Hcbs & _).
        exists (checkpoints ++ map OnDelta ds). split; [|eauto].
        unfold bind.
        destruct (astream_loop cancel 1 (llm o ctx) []
                               (called w1 checkpoints))
          as [[x|e] w3]; simpl in Hexit, Hcbs; [|discriminate].
        injection Hexit as ->.
        assert (Hw3 : callbacks w3
                      = callbacks w ++ checkpoints ++ map OnDelta ds).
        { rewrite Hcbs. cbn. now rewrite Hcb, <- app_assoc. }
        destruct exit as [[[| |msg] parts] check]; try exact Hw3;
          (destruct (is_set cancel check); [exact Hw3|];
           now rewrite store_assistant_message_keeps_callbacks).
    + rewrite (@run_turn_context_raises o cid text att cancel tid umid key w
                                         tid' urow w1 OverflowError Hs Hc).
      exists []. cbn. rewrite app_nil_r. auto.
  - exists [].
    rewrite (@run_turn_store_raises o cid text att cancel tid umid key w
                                    e w1 Hs). cbn.
    rewrite app_nil_r. auto.
Qed.

(** ** The theorems at work *)

Lemma generation_error_result_witness :
  exists r w',
    run_turn Examples.failing "c1" "hello" [] None None None None
             Examples.empty_world = (Ok r, w')
    /\ reason r = "error"
    /\ error r = Some (mkErrorInfo "UNAVAILABLE" "boom")
    /\ assistant_message r = None
    /\ map col_role (messages w') = ["user"]
    /\ callbacks w' = checkpoints ++ [OnDelta "a"; OnDelta "b"].
Proof.
  edestruct generation_error_result
    with (o := Examples.failing) (cid := "c1") (text := "hello")
         (att := @nil AttachmentDict) (cancel := @None nat)
         (tid := @None string) (umid := @None string) (key := @None string)
         (w := Examples.empty_world) (ds := ["a"; "b"]) (msg := "boom")
         (rest := @nil GenEvent)
    as (r & w' & Hrun & Hreason & Herror & _ & Hnone & _ & Hmsgs & Hcbs).
  - cbv. reflexivity.
  - cbv. reflexivity.
  - reflexivity.
  - reflexivity.
  - exists r, w'. rewrite Hmsgs, Hcbs. repeat split; assumption.
Defined.

Lemma cancelled_turn_result_witness :
  exists r w',
    run_turn Examples.echo "c1" "hello" [] (Some 2) None None None
             Examples.empty_world = (Ok r, w')
    /\ reason r = "cancelled"
    /\ assistant_message r = None
    /\ usage r = mkUsage 0 0
    /\ map col_role (messages w') = ["user"]
    /\ callbacks w' = checkpoints ++ [OnDelta "Echo: "].
Proof.
  edestruct cancelled_turn_result
    with (o := Examples.echo) (cid := "c1") (text := "hello")
         (att := @nil AttachmentDict) (c := 2)
         (tid := @None string) (umid := @None string) (key := @None string)
         (w := Examples.empty_world)
    as (r & w' & Hrun & Hreason & Hnone & Husage & _ & Hmsgs & _ & Hcbs).
  - cbv. reflexivity.
  - cbv. reflexivity.
  - split; [repeat constructor|simpl; lia].
  - exists r, w'. rewrite Hmsgs, Hcbs. repeat split; assumption.
Defined.

Lemma completed_turn_result_witness :
  exists r w',
    run_turn Examples.echo "c1" "hello" [] None None None None
             Examples.empty_world = (Ok r, w')
    /\ reason r = "completed"
    /\ input_tokens (usage r) = 1%Z
    /\ output_tokens (usage r) = 2%Z
    /\ map col_role (messages w') = ["user"; "assistant"]
    /\ map col_content_text (messages w') = ["hello"; "Echo: hello"]
    /\ map col_client_request_id (messages w') = [None; None].
Proof.
  edestruct completed_turn_result
    with (o := Examples.echo) (cid := "c1") (text := "hello")
         (att := @nil AttachmentDict) (cancel := @None nat)
         (tid := @None string) (umid := @None string) (key := @None string)
         (w := Examples.empty_world) (ds := ["Echo: "; "hello"])
    as (r & w' & Hrun & Hreason & _ & Husage & _ & Hmsgs & _).
  - cbv. reflexivity.
  - cbv. reflexivity.
  - reflexivity.
  - reflexivity.
  - cbv. intros x [<-|[]]. discriminate.
  - exists r, w'. rewrite Hmsgs, Husage. repeat split; assumption.
Defined.

Lemma status_checkpoints_in_order_witness :
  exists ds,
    callbacks (snd (run_turn Examples.echo "c1" "hello" [] None None None
                             None Examples.empty_world))
    = [OnStatus "queued"; OnStatus "thinking"; OnStatus "streaming"]
        ++ map OnDelta ds.
Proof.
  destruct (status_checkpoints_in_order
              Examples.echo "c1" "hello" [] None None None None
              Examples.empty_world) as (invoked & Hcb & Hcase).
  cbv in Hcase. destruct Hcase as (ds & ->). exists ds. exact Hcb.
Defined.

End OrchestratorFacts.

(* ===================================================================== *)
(** * Facts about api/ws.py *)
(* ===================================================================== *)

Module WsFacts.

Import Orchestrator Ws WsSpec.

(** ** The loop *)

Lemma run_cons e evs s :
  fst (step e s) = Ok tt -> run (e :: evs) s = run evs (after (step e) s).
Proof.
  unfold run, after. cbn [main_loop]. unfold bind.
  destruct (step e s) as [[[]|x] s']; [reflexivity|discriminate].
Qed.

Lemma run_cons_raised e evs s x :
  fst (step e s) = Raised x -> run (e :: evs) s = after (step e) s.
Proof.
  unfold run, after. cbn [main_loop]. unfold bind.
  destruct (step e s) as [[[]|y] s']; [discriminate|reflexivity].
Qed.

Lemma run_cons_cases e evs s :
  run (e :: evs) s = run evs (after (step e) s)
  \/ run (e :: evs) s = after (step e) s.
Proof.
  destruct (fst (step e s)) as [[]|x] eqn:H.
  - left. now apply run_cons.
  - right. now apply run_cons_raised with x.
Qed.

Lemma run_app evs1 evs2 s :
  fst (main_loop evs1 s) = Ok tt ->
  run (evs1 ++ evs2) s = run evs2 (run evs1 s).
Proof.
  revert s. induction evs1 as [|e evs1 IH]; intros s H; [reflexivity|].
  cbn [main_loop] in H. unfold bind in H.
  destruct (step e s) as [[[]|x] s'] eqn:Hs; [|discriminate].
  assert (Hok : fst (step e s) = Ok tt) by now rewrite Hs.
  cbn [app]. rewrite !(@run_cons e _ s Hok). unfold after. rewrite Hs.
  now apply IH.
Qed.

Lemma start_turn_ok msg s : fst (start_turn msg s) = Ok tt.
Proof.
  unfold start_turn, bind at 1, gets.
  destruct (turn_in_flight s).
  - unfold bind, in_world, or_call, error_frame, send_done, send_json,
      modify. destruct (PyStr.truthy _); reflexivity.
  - destruct (negb _).
    + unfold bind, in_world, or_call, error_frame, send_done, send_json,
        modify. destruct (PyStr.truthy _); reflexivity.
    + unfold bind, in_world, or_call, modify.
      destruct (PyStr.truthy _); reflexivity.
Qed.

Lemma handle_cancel_ok msg s : fst (handle_cancel msg s) = Ok tt.
Proof.
  unfold handle_cancel, bind at 1, gets.
  destruct (_ || _); [reflexivity|]. destruct (_ && _); reflexivity.
Qed.

Lemma invalid_argument_cases tid m s :
  (tid = TraceOther true /\ invalid_argument tid m s = (Raised ValidationError, s))
  \/ (tid <> TraceOther true
      /\ exists x,
          invalid_argument tid m s
          = bind (in_world (or_call x new_trace_id))
                 (fun trace_id => error_frame trace_id "INVALID_ARGUMENT" m) s).
Proof.
  destruct tid as [|x|[|]]; [right|right|left|right];
    (split; [first [discriminate|reflexivity]|]).
  - exists None. reflexivity.
  - exists (Some x). reflexivity.
  - reflexivity.
  - exists None. reflexivity.
Qed.

Lemma error_reply_ok x code m s :
  fst (bind (in_world (or_call x new_trace_id))
            (fun trace_id => error_frame trace_id code m) s) = Ok tt.
Proof.
  unfold bind, in_world, or_call. destruct (PyStr.truthy x); reflexivity.
Qed.

(** The handler goes on after every event but the two that end it. *)
Lemma step_proceeds e s : proceeds e s -> fst (step e s) = Ok tt.
Proof.
  intros H. destruct e as [raw|t cb|t r|t x| |].
  - assert (Hraw : fst (handle_raw raw s) = Ok tt).
    { destruct raw as [| |msg|msg|tid m|tid ty]; cbn [handle_raw].
      - apply (error_reply_ok None).
      - apply (error_reply_ok None).
      - apply start_turn_ok.
      - apply handle_cancel_ok.
      - destruct (invalid_argument_cases tid m s) as [[-> _]|(_ & x & ->)];
          [contradiction|apply error_reply_ok].
      - destruct (invalid_argument_cases
                    tid ("unknown message type: " ++ ty)%string s)
          as [[-> _]|(_ & x & ->)]; [contradiction|apply error_reply_ok]. }
    unfold step, bind.
    destruct (handle_raw raw s) as [[[]|x] s']; [reflexivity|discriminate].
  - unfold step, bind, gets.
    destruct (nth_error (tasks s) t) as [[call [|r|x]]|]; reflexivity.
  - reflexivity.
  - reflexivity.
  - unfold step, finish_turn_resume, bind, gets.
    destruct (turn_task s) as [[t| | |x]|]; try reflexivity.
    destruct (nth_error (tasks s) t) as [[call [|r|x]]|]; reflexivity.
  - unfold step, bind, gets. cbn [proceeds] in H.
    destruct (turn_task s) as [[t| | |x]|]; [| | |contradiction|];
      reflexivity.
Qed.

Ltac run_step :=
  rewrite run_cons by (apply step_proceeds; exact I).

Lemma truthy_some tid : tid <> "" -> PyStr.truthy (Some tid) = true.
Proof.
  intros H. simpl. now destruct (String.eqb_spec tid "").
Qed.

Lemma or_else_some tid : tid <> "" -> PyStr.or_else (Some tid) "" = tid.
Proof.
  intros H. simpl. now destruct (String.eqb_spec tid "").
Qed.

Lemma turn_running_in_flight s t tid :
  turn_running s t tid -> turn_in_flight s = true.
Proof.
  intros (Hct & (call & Hnth) & _). unfold turn_in_flight, task_done.
  now rewrite Hct, Hnth.
Qed.

(** ** A start request while a turn is in flight *)

Lemma start_turn_in_flight s msg tid :
  turn_in_flight s = true -> current_trace_id s = Some tid -> tid <> "" ->
  start_turn msg s = (Ok tt, set_sent s (sent s ++ [conflict_frame tid])).
Proof.
  intros Hfl Htid Hne.
  unfold start_turn, bind at 1, gets. rewrite Hfl.
  unfold bind, in_world, or_call. rewrite Htid, (truthy_some Hne).
  unfold ret. rewrite (or_else_some Hne).
  destruct s; reflexivity.
Qed.

Lemma receive_start_in_flight s msg t tid :
  turn_running s t tid ->
  after (step (Receive (UserMessage msg))) s
  = set_turn_task (set_sent s (sent s ++ [conflict_frame tid]))
                  (Some (AwaitingTask t)).
Proof.
  intros Hrun. pose proof (turn_running_in_flight Hrun) as Hfl.
  destruct Hrun as (Hct & _ & Htid & Hne & _ & Htt).
  unfold after, step, handle_raw, bind.
  rewrite (@start_turn_in_flight s msg tid Hfl Htid Hne).
  unfold arm_finish_turn, modify.
  destruct s; cbn in *; subst.
  destruct Htt as [-> | ->]; reflexivity.
Qed.

(** ** The end of a turn *)

Lemma nth_error_replaced {A} (l : list A) t x y :
  nth_error l t = Some x ->
  nth_error (firstn t l ++ y :: skipn (S t) l) t = Some y.
Proof.
  intros H.
  assert (Hlt : t < List.length l) by (apply nth_error_Some; congruence).
  rewrite nth_error_app2 by (rewrite length_firstn; lia).
  rewrite length_firstn. replace (t - Nat.min t (List.length l)) with 0 by lia.
  reflexivity.
Qed.

Lemma length_replaced {A} (l : list A) t y :
  t < List.length l ->
  List.length (firstn t l ++ y :: skipn (S t) l) = List.length l.
Proof.
  intros H. rewrite length_app, length_firstn. cbn [List.length].
  rewrite length_skipn. lia.
Qed.

(** While the task runs, resuming [finish_turn] does nothing. *)
Lemma finish_turn_resume_waits s t tid :
  turn_running s t tid -> after (step FinishResumes) s = s.
Proof.
  intros (_ & (call & Hnth) & _ & _ & _ & Htt).
  unfold after, step, finish_turn_resume, bind, gets.
  destruct Htt as [-> | ->]; [reflexivity|]. now rewrite Hnth.
Qed.

Lemma step_task_returns s t call r :
  nth_error (tasks s) t = Some (call, Running) ->
  after (step (TaskReturns t r)) s
  = set_tasks s (firstn t (tasks s)
                   ++ (call, Finished r) :: skipn (S t) (tasks s)).
Proof.
  intros H. unfold after, step, modify. cbn [snd]. now rewrite H.
Qed.

Lemma step_finish_sends s t call r :
  turn_task s = Some (AwaitingTask t) ->
  nth_error (tasks s) t = Some (call, Finished r) ->
  after (step FinishResumes) s
  = set_turn_task (set_sent s (sent s ++ [done_of_result r]))
                  (Some AwaitingSend).
Proof.
  intros Htt Hnth. unfold after, step, finish_turn_resume, bind, gets.
  now rewrite Htt, Hnth.
Qed.

Lemma step_finish_clears s :
  turn_task s = Some AwaitingSend ->
  after (step FinishResumes) s
  = set_turn_task
      (set_current_trace_id
         (set_current_cancel (set_current_task s None) None) None)
      (Some Returned).
Proof.
  intros Htt. unfold after, step, finish_turn_resume, bind, gets.
  now rewrite Htt.
Qed.

Lemma step_collects s :
  turn_task s = Some Returned -> current_task s = None ->
  after (step LoopCollects) s = set_turn_task s None.
Proof.
  intros Htt Hct. destruct s. cbn in *. subst. reflexivity.
Qed.

(** The task returns, [finish_turn] sends the frame of its result and
    clears the variables, the loop collects [finish_turn]. *)
Lemma turn_finishes s t tid r :
  turn_running s t tid -> turn_task s = Some (AwaitingTask t) ->
  let s' := run [TaskReturns t r; FinishResumes; FinishResumes; LoopCollects]
                s in
  sent s' = sent s ++ [done_of_result r] /\ idle s' /\ world s' = world s.
Proof.
  intros (Hct & (call & Hnth) & Htid & Hne & Hcc & _) Htt. cbv zeta.
  do 3 run_step.
  pose proof (@step_task_returns s t call r Hnth) as Ha.
  set (sa := after (step (TaskReturns t r)) s) in *.
  assert (Hb : after (step FinishResumes) sa
               = set_turn_task (set_sent sa (sent sa ++ [done_of_result r]))
                               (Some AwaitingSend)).
  { apply (@step_finish_sends sa t call r); rewrite Ha; cbn [turn_task tasks set_tasks].
    - exact Htt.
    - eapply nth_error_replaced; eauto. }
  set (sb := after (step FinishResumes) sa) in *.
  assert (Hc : after (step FinishResumes) sb
               = set_turn_task
                   (set_current_trace_id
                      (set_current_cancel (set_current_task sb None) None)
                      None)
                   (Some Returned))
    by (apply step_finish_clears; now rewrite Hb).
  set (sc := after (step FinishResumes) sb) in *.
  rewrite run_cons by (apply step_proceeds; cbn; now rewrite Hc).
  change (run [] ?x) with x.
  rewrite step_collects by (now rewrite Hc).
  rewrite Hc, Hb, Ha. unfold idle. cbn. intuition.
Qed.

(** Once idle, a session sends nothing until a frame is received. *)
Lemma idle_stays_quiet evs :
  forall s, idle s -> Forall quiet evs ->
            sent (run evs s) = sent s /\ idle (run evs s).
Proof.
  induction evs as [|e evs IH]; intros s Hidle Hq; [now split|].
  inversion Hq as [|? ? He Hq']; subst.
  assert (Hok : fst (step e s) = Ok tt).
  { apply step_proceeds. destruct e as [raw|t cb|t r|t x| |];
      try contradiction; try exact I.
    cbn. destruct Hidle as (_ & _ & _ & ->). exact I. }
  assert (Hstep : sent (after (step e) s) = sent s /\ idle (after (step e) s)).
  { destruct Hidle as (Hct & Hcc & Htid & Htt).
    destruct s as [w pc snt tks ct cc ctid tt]. cbn in *. subst.
    destruct e as [raw|t cb|t r|t x| |]; try contradiction; unfold idle.
    - unfold after, step, modify. cbn.
      destruct (nth_error tks t) as [[call [|r'|x']]|]; cbn; intuition.
    - unfold after, step, modify. cbn.
      destruct (nth_error tks t) as [[call [|r'|x']]|]; cbn; intuition.
    - cbn. intuition.
    - cbn. intuition. }
  destruct Hstep as [Hsent Hidle'].
  rewrite (@run_cons e _ s Hok).
  destruct (IH _ Hidle' Hq') as [H1 H2]. split; [congruence|exact H2].
Qed.

(** In the state [turn-running] a start request is answered with one
    [CONFLICT] frame and changes nothing else; the turn then ends as usual:
    the frame of its result is sent once and the session is idle. *)
Lemma conflict_then_turn_finishes s t tid msg r evs :
  turn_running s t tid ->
  Forall quiet evs ->
  let s1 := after (step (Receive (UserMessage msg))) s in
  let s2 := run [TaskReturns t r; FinishResumes; FinishResumes; LoopCollects]
                s1 in
  (sent s1 = sent s ++ [conflict_frame tid]
   /\ tasks s1 = tasks s
   /\ current_task s1 = current_task s
   /\ current_cancel s1 = current_cancel s
   /\ current_trace_id s1 = current_trace_id s
   /\ world s1 = world s
   /\ turn_running s1 t tid)
  /\ after (step FinishResumes) s1 = s1
  /\ sent s2 = sent s1 ++ [done_of_result r]
  /\ idle s2
  /\ sent (run evs s2) = sent s2.
Proof.
  intros Hrun Hq s1 s2.
  assert (Hs1 : s1 = set_turn_task
                       (set_sent s (sent s ++ [conflict_frame tid]))
                       (Some (AwaitingTask t)))
    by (apply receive_start_in_flight; exact Hrun).
  assert (Hrun1 : turn_running s1 t tid).
  { rewrite Hs1. destruct Hrun as (H1 & H2 & H3 & H4 & H5 & H6).
    repeat split; cbn; auto. }
  assert (Htt1 : turn_task s1 = Some (AwaitingTask t)) by now rewrite Hs1.
  destruct (@turn_finishes s1 t tid r Hrun1 Htt1) as (Hsent & Hidle & _).
  fold s2 in Hsent, Hidle.
  split; [|split; [|split; [|split]]].
  - repeat (split; [rewrite Hs1; reflexivity|]). exact Hrun1.
  - eapply finish_turn_resume_waits; eauto.
  - exact Hsent.
  - exact Hidle.
  - now apply idle_stays_quiet.
Qed.

(** ** Cancel frames *)

Lemma handle_cancel_accepts s msg :
  session_inv s -> addresses_running_turn s msg = true ->
  handle_cancel msg s = (Ok tt, set_current_cancel s (Some true)).
Proof.
  intros [_ Hinv] Hadd. unfold addresses_running_turn in Hadd.
  apply andb_true_iff in Hadd as [Hfl Heq].
  unfold handle_cancel, bind at 1, gets. rewrite Hfl, Heq.
  unfold turn_in_flight in Hfl.
  destruct (current_task s) as [t|]; [|discriminate].
  destruct Hinv as (_ & Hcc & Htr).
  destruct (current_cancel s); [|congruence].
  cbn. now rewrite andb_false_r.
Qed.

Lemma handle_cancel_rejects s msg :
  session_inv s -> addresses_running_turn s msg = false ->
  exists m,
    handle_cancel msg s
    = (Ok tt, set_sent s (sent s ++ [rejection (cancel_trace_id msg)
                                               "NOT_FOUND" m])).
Proof.
  intros [_ Hinv] Hadd. unfold addresses_running_turn in Hadd.
  unfold handle_cancel, bind at 1, gets.
  destruct (turn_in_flight s) eqn:Hfl; cbn [negb orb andb] in *.
  - unfold turn_in_flight in Hfl.
    destruct (current_task s) as [t|]; [|discriminate].
    destruct Hinv as (_ & Hcc & Htr).
    destruct (current_cancel s); [|congruence].
    rewrite Htr, Hadd. cbn [negb andb]. eexists. reflexivity.
  - eexists. reflexivity.
Qed.

Ltac still_in_flight :=
  unfold in_flight; cbn; repeat split; eauto.

(** While the current task runs, callbacks and resumptions of the loop
    and of [finish_turn] send no terminal frame. *)
Lemma waiting_sends_no_done evs :
  forall s t,
    in_flight s t -> Forall waiting evs ->
    exists frames,
      sent (run evs s) = sent s ++ frames
      /\ Forall (fun f => is_done f = false) frames.
Proof.
  induction evs as [|e evs IH]; intros s t Hfl Hw.
  - exists []. now rewrite app_nil_r.
  - inversion Hw as [|? ? He Hw']; subst.
    assert (Hok : fst (step e s) = Ok tt).
    { apply step_proceeds. destruct e as [raw|t' cb|t' r|t' x| |];
        try contradiction; try exact I.
      cbn. destruct Hfl as (_ & _ & [-> | ->]); exact I. }
    assert (Hstep : exists fs,
               sent (after (step e) s) = sent s ++ fs
               /\ Forall (fun f => is_done f = false) fs
               /\ in_flight (after (step e) s) t).
    { destruct Hfl as (Hct & (call & Hnth) & Htt).
      destruct s as [w pc snt tks ct cc ctid tt]. cbn in *. subst.
      destruct e as [raw|t' cb|t' r|t' x| |]; try contradiction.
      - unfold after, step, bind, gets. cbn [tasks].
        destruct (nth_error tks t') as [[call' [|r'|x']]|] eqn:Hn'; cbn.
        + exists [frame_of_callback (call_trace_id call') cb].
          split; [reflexivity|]. split.
          * constructor; [now destruct cb|constructor].
          * still_in_flight.
        + exists []. rewrite app_nil_r. still_in_flight.
        + exists []. rewrite app_nil_r. still_in_flight.
        + exists []. rewrite app_nil_r. still_in_flight.
      - exists []. rewrite app_nil_r.
        unfold after, step, finish_turn_resume, bind, gets. cbn [turn_task].
        destruct Htt as [-> | ->]; cbn [tasks]; try rewrite Hnth;
          still_in_flight.
      - exists []. rewrite app_nil_r.
        destruct Htt as [-> | ->]; still_in_flight. }
    destruct Hstep as (fs & Hsent & Hfs & Hfl').
    rewrite (@run_cons e _ s Hok).
    destruct (IH _ _ Hfl' Hw') as (frames & Hsent' & Hframes).
    exists (fs ++ frames). rewrite Hsent', Hsent, app_assoc.
    split; [reflexivity|]. apply Forall_app. now split.
Qed.

(** ** The invariant *)

Lemma session_inv_accept w cid :
  (forall n, id_source w n <> "") -> session_inv (accept w cid).
Proof. intros H. split; [exact H|]. cbn. auto. Qed.

Lemma or_call_new_trace_id x w :
  (forall n, id_source w n <> "") ->
  exists tid w',
    or_call x new_trace_id w = (Ok tid, w')
    /\ tid <> "" /\ id_source w' = id_source w
    /\ PyStr.truthy (Some tid) = true.
Proof.
  intros Hids. unfold or_call.
  destruct x as [x|]; cbn.
  - destruct (String.eqb_spec x ""); cbn.
    + eexists _, _. split; [reflexivity|]. split; [apply Hids|].
      split; [reflexivity|]. apply truthy_some, Hids.
    + eexists _, _. split; [reflexivity|]. split; [assumption|].
      split; [reflexivity|]. now apply truthy_some.
  - eexists _, _. split; [reflexivity|]. split; [apply Hids|].
    split; [reflexivity|]. apply truthy_some, Hids.
Qed.

Lemma session_inv_arm s :
  session_inv s -> session_inv (after arm_finish_turn s).
Proof.
  intros H. destruct s as [w pc snt tks [t|] cc ctid [tt|]]; exact H.
Qed.

Lemma session_inv_sent s l : session_inv s -> session_inv (set_sent s l).
Proof. intros H. exact H. Qed.

Lemma session_inv_error_frame x code m s :
  session_inv s ->
  session_inv
    (after (bind (in_world (or_call x new_trace_id))
                 (fun tid => error_frame tid code m)) s).
Proof.
  intros [Hids Hinv].
  destruct (@or_call_new_trace_id x (world s) Hids) as (tid & w' & Hcall & _ & Hsrc & _).
  unfold after, bind, in_world. rewrite Hcall.
  split; cbn; [now rewrite Hsrc|exact Hinv].
Qed.

Lemma session_inv_start_turn msg s :
  session_inv s -> session_inv (after (start_turn msg) s).
Proof.
  intros Hinv. unfold start_turn, after, bind at 1, gets.
  destruct (turn_in_flight s) eqn:Hfl;
    [now apply session_inv_error_frame|].
  destruct (negb _) eqn:Hcid;
    [now apply session_inv_error_frame|].
  destruct Hinv as [Hids Hinv].
  destruct (@or_call_new_trace_id (um_trace_id msg) (world s) Hids)
    as (tid & w' & Hcall & Hne & Hsrc & Htr).
  unfold bind at 1, in_world at 1. rewrite Hcall.
  split.
  - cbn. now rewrite Hsrc.
  - cbn. rewrite length_app. cbn.
    split; [lia|]. split; [discriminate|].
    now destruct (String.eqb_spec tid "").
Qed.

Lemma session_inv_handle_cancel msg s :
  session_inv s -> session_inv (after (handle_cancel msg) s).
Proof.
  intros Hinv. unfold after.
  destruct (addresses_running_turn s msg) eqn:Hadd.
  - rewrite (@handle_cancel_accepts s msg Hinv Hadd).
    destruct Hinv as [Hids Hinv]. split; [exact Hids|].
    unfold addresses_running_turn, turn_in_flight in Hadd.
    cbn. destruct (current_task s); [|discriminate].
    destruct Hinv as (? & ? & ?).
    split; [assumption|]. split; [discriminate|assumption].
  - destruct (@handle_cancel_rejects s msg Hinv Hadd) as [m ->]. exact Hinv.
Qed.

Lemma session_inv_step e s : session_inv s -> session_inv (after (step e) s).
Proof.
  intros Hinv. destruct e as [raw|t cb|t r|t x| |].
  - assert (Hraw : session_inv (after (handle_raw raw) s)).
    { destruct raw as [| |msg|msg|tid m|tid ty]; cbn [handle_raw].
      - now apply (session_inv_error_frame None).
      - now apply (session_inv_error_frame None).
      - now apply session_inv_start_turn.
      - now apply session_inv_handle_cancel.
      - unfold after.
        destruct (invalid_argument_cases tid m s) as [[_ ->]|(_ & x & ->)];
          [exact Hinv|now apply session_inv_error_frame].
      - unfold after.
        destruct (invalid_argument_cases
                    tid ("unknown message type: " ++ ty)%string s)
          as [[_ ->]|(_ & x & ->)];
          [exact Hinv|now apply session_inv_error_frame]. }
    unfold after, step, bind in *.
    destruct (handle_raw raw s) as [[[]|e] s']; cbn in *.
    + now apply session_inv_arm.
    + exact Hraw.
  - unfold after, step, bind, gets. cbn.
    destruct (nth_error (tasks s) t) as [[call [|r'|x']]|]; exact Hinv.
  - unfold after, step, modify. cbn [snd].
    destruct (nth_error (tasks s) t) as [[call [|r'|x']]|] eqn:Hn;
      try exact Hinv.
    destruct Hinv as [Hids Hinv]. split; [exact Hids|].
    cbn [current_task tasks set_tasks current_cancel current_trace_id].
    destruct (current_task s); [|exact Hinv].
    rewrite length_replaced by (apply nth_error_Some; congruence).
    exact Hinv.
  - unfold after, step, modify. cbn [snd].
    destruct (nth_error (tasks s) t) as [[call [|r'|x']]|] eqn:Hn;
      try exact Hinv.
    destruct Hinv as [Hids Hinv]. split; [exact Hids|].
    cbn [current_task tasks set_tasks current_cancel current_trace_id].
    destruct (current_task s); [|exact Hinv].
    rewrite length_replaced by (apply nth_error_Some; congruence).
    exact Hinv.
  - unfold after, step, finish_turn_resume, bind, gets.
    destruct (turn_task s) as [[t'| | |x]|]; cbn; try exact Hinv.
    + destruct (nth_error (tasks s) t') as [[call [|r'|x']]|]; exact Hinv.
    + destruct Hinv as [Hids _]. split; [exact Hids|]. cbn. auto.
  - unfold after, step, bind, gets, modify.
    destruct (turn_task s) as [[t'| | |x]|] eqn:Htt; cbn [fst snd raise];
      try exact Hinv; apply session_inv_arm; rewrite Htt; exact Hinv.
Qed.

(** Every state a session reaches satisfies the invariant. *)
Lemma session_inv_run evs :
  forall s, session_inv s -> session_inv (run evs s).
Proof.
  induction evs as [|e evs IH]; intros s H; [exact H|].
  destruct (run_cons_cases e evs s) as [-> | ->].
  - apply IH. now apply session_inv_step.
  - now apply session_inv_step.
Qed.

(** ** Cancel frames, as the loop handles them *)

Lemma arm_finish_turn_fields s :
  let s' := after arm_finish_turn s in
  sent s' = sent s /\ tasks s' = tasks s /\ world s' = world s
  /\ current_task s' = current_task s
  /\ current_cancel s' = current_cancel s
  /\ current_trace_id s' = current_trace_id s.
Proof.
  destruct s as [w pc snt tks [t|] cc ctid [tt|]]; cbn; intuition.
Qed.

Lemma arm_finish_turn_in_flight s t :
  in_flight s t ->
  after arm_finish_turn s = set_turn_task s (Some (AwaitingTask t)).
Proof.
  intros (Hct & _ & Htt).
  destruct s as [w pc snt tks ct cc ctid tt]. cbn in *. subst.
  destruct Htt as [-> | ->]; reflexivity.
Qed.

Lemma in_flight_of_bool s :
  session_inv s -> settled s -> turn_in_flight s = true ->
  exists t, in_flight s t.
Proof.
  intros [_ Hinv] Hset Hfl. unfold turn_in_flight, task_done in Hfl.
  destruct (current_task s) as [t|] eqn:Hct; [|discriminate].
  exists t. split; [exact Hct|]. split.
  - destruct Hinv as (Hlt & _).
    apply nth_error_Some in Hlt.
    destruct (nth_error (tasks s) t) as [[call [|r|x]]|]; try easy. eauto.
  - unfold settled in Hset.
    destruct (turn_task s) as [[t'| | |x]|]; try contradiction; auto.
    rewrite Hct in Hset. injection Hset as ->. now right.
Qed.

(** What [handle_cancel] goes by is the variables of the session.  A
    cancel frame changes neither the tasks nor the current task and its
    trace.  If the current task is not done and the frame carries the
    current [trace_id], the cancellation event is set and nothing is sent;
    no [finish_turn] of an earlier turn being pending, no terminal frame
    follows while the task runs, whatever callbacks it makes and however
    often the loop and [finish_turn] are resumed, and the frame of the
    result is sent once the task has returned.  In every other case the
    answer is one terminal frame with code [NOT_FOUND] for the [trace_id] of
    the cancel frame, and the cancellation event is left as it was. *)
Lemma handle_cancel_by_variables s msg :
  session_inv s ->
  let s1 := after (step (Receive (Cancel msg))) s in
  (tasks s1 = tasks s /\ current_task s1 = current_task s
   /\ current_trace_id s1 = current_trace_id s /\ world s1 = world s)
  /\ if addresses_running_turn s msg
     then current_cancel s1 = Some true
          /\ sent s1 = sent s
          /\ (settled s ->
              (forall evs,
                  Forall waiting evs ->
                  exists frames,
                    sent (run evs s1) = sent s1 ++ frames
                    /\ Forall (fun f => is_done f = false) frames)
              /\ (forall t r,
                     current_task s = Some t ->
                     sent (run [TaskReturns t r; FinishResumes] s1)
                     = sent s1 ++ [done_of_result r]))
     else current_cancel s1 = current_cancel s
          /\ exists m,
              sent s1
              = sent s ++ [rejection (cancel_trace_id msg) "NOT_FOUND" m].
Proof.
  intros Hinv s1.
  destruct (addresses_running_turn s msg) eqn:Hadd.
  - assert (Hs1 : s1 = after arm_finish_turn
                             (set_current_cancel s (Some true))).
    { unfold s1, after, step, handle_raw, bind.
      now rewrite (@handle_cancel_accepts s msg Hinv Hadd). }
    destruct (arm_finish_turn_fields (set_current_cancel s (Some true)))
      as (H1 & H2 & H3 & H4 & H5 & H6).
    rewrite <- Hs1 in *. cbn in H1, H2, H3, H4, H5, H6.
    split; [auto|]. split; [assumption|]. split; [assumption|].
    intros Hset.
    assert (Hfl : turn_in_flight s = true).
    { unfold addresses_running_turn in Hadd.
      now apply andb_true_iff in Hadd as [? _]. }
    destruct (in_flight_of_bool Hinv Hset Hfl) as [t Ht].
    assert (Ht' : in_flight (set_current_cancel s (Some true)) t) by exact Ht.
    rewrite (arm_finish_turn_in_flight Ht') in Hs1.
    assert (Ht1 : in_flight s1 t).
    { rewrite Hs1. destruct Ht as (? & ? & ?). split; [|split]; cbn; auto. }
    split.
    + intros evs Hw. exact (waiting_sends_no_done Ht1 Hw).
    + intros t0 r Hct. destruct Ht1 as (Hct1 & (call & Hnth) & _).
      assert (t0 = t) as -> by (destruct Ht as (E & _); congruence).
      do 2 run_step. change (run [] ?x) with x.
      rewrite (@step_task_returns s1 t call r Hnth).
      rewrite (@step_finish_sends _ t call r).
      * reflexivity.
      * now rewrite Hs1.
      * cbn [tasks set_tasks]. eapply nth_error_replaced; eauto.
  - destruct (@handle_cancel_rejects s msg Hinv Hadd) as [m Hm].
    assert (Hs1 : s1 = after arm_finish_turn
                             (set_sent s (sent s ++
                                            [rejection (cancel_trace_id msg)
                                                       "NOT_FOUND" m]))).
    { unfold s1, after, step, handle_raw, bind. now rewrite Hm. }
    destruct (arm_finish_turn_fields
                (set_sent s (sent s ++ [rejection (cancel_trace_id msg)
                                                  "NOT_FOUND" m])))
      as (H1 & H2 & H3 & H4 & H5 & H6).
    rewrite <- Hs1 in *. cbn in *.
    split; [auto|]. split; [assumption|]. exists m. assumption.
Qed.

(** ** What was sent is never read *)

Lemma oblivious_ret {A} (a : A) : oblivious (ret a).
Proof. intros pre s. reflexivity. Qed.

Lemma oblivious_raise {A} e : oblivious (@raise Session A e).
Proof. intros pre s. reflexivity. Qed.

Lemma oblivious_bind {A B} (c : Eff Session A) (k : A -> Eff Session B) :
  oblivious c -> (forall a, oblivious (k a)) -> oblivious (bind c k).
Proof.
  intros Hc Hk pre s. unfold bind. rewrite Hc.
  destruct (c s) as [[a|e] s']; cbn [fst snd]; [apply Hk|reflexivity].
Qed.

Lemma oblivious_in_world {A} (c : M A) : oblivious (in_world c).
Proof.
  intros pre [w pc snt tks ct cc ctid tt]. unfold in_world. cbn.
  destruct (c w); reflexivity.
Qed.

Lemma oblivious_send_json f : oblivious (send_json f).
Proof.
  intros pre [w pc snt tks ct cc ctid tt]. unfold send_json, modify, prepend.
  cbn. now rewrite app_assoc.
Qed.

Lemma oblivious_error_frame tid code m : oblivious (error_frame tid code m).
Proof. apply oblivious_send_json. Qed.

Lemma oblivious_modify (f : Session -> Session) :
  (forall pre s, f (prepend pre s) = prepend pre (f s)) ->
  oblivious (modify f).
Proof. intros H pre s. unfold modify. cbn. now rewrite H. Qed.

(** An action that starts by looking at the session, when what it does
    next depends on nothing that was sent. *)
Lemma oblivious_look {A} (k : Session -> Eff Session A) :
  (forall pre s, k (prepend pre s) = k s) ->
  (forall s, oblivious (k s)) ->
  oblivious (bind (gets (fun s => s)) k).
Proof.
  intros Hsame Hk pre s. unfold bind, gets. rewrite Hsame. apply Hk.
Qed.

Ltac oblivious_steps :=
  repeat first
    [ apply oblivious_ret
    | apply oblivious_raise
    | apply oblivious_in_world
    | apply oblivious_send_json
    | apply oblivious_error_frame
    | apply oblivious_modify; intros ? [? ? ? ? ? ? ? ?]; reflexivity
    | apply oblivious_bind; [|intros ?] ].

Lemma oblivious_start_turn msg : oblivious (start_turn msg).
Proof.
  unfold start_turn. apply oblivious_look.
  - intros pre [w pc snt tks ct cc ctid tt]. reflexivity.
  - intros s. destruct (turn_in_flight s); [oblivious_steps|].
    destruct (negb _); oblivious_steps.
Qed.

Lemma oblivious_handle_cancel msg : oblivious (handle_cancel msg).
Proof.
  unfold handle_cancel. apply oblivious_look.
  - intros pre [w pc snt tks ct cc ctid tt]. reflexivity.
  - intros s. destruct (_ || _); [oblivious_steps|].
    destruct (_ && _); oblivious_steps.
Qed.

Lemma oblivious_finish_turn_resume : oblivious finish_turn_resume.
Proof.
  unfold finish_turn_resume. apply oblivious_look.
  - intros pre [w pc snt tks ct cc ctid tt]. reflexivity.
  - intros s. destruct (turn_task s) as [[t| | |x]|]; oblivious_steps.
    destruct (nth_error (tasks s) t) as [[call [|r|x]]|]; oblivious_steps.
Qed.

Lemma oblivious_arm_finish_turn : oblivious arm_finish_turn.
Proof.
  unfold arm_finish_turn. apply oblivious_modify.
  intros pre [w pc snt tks [t|] cc ctid [tt|]]; reflexivity.
Qed.

Lemma oblivious_handle_raw raw : oblivious (handle_raw raw).
Proof.
  destruct raw as [| |msg|msg|tid m|tid ty]; cbn [handle_raw];
    [oblivious_steps|oblivious_steps|apply oblivious_start_turn
     |apply oblivious_handle_cancel| |];
    destruct tid as [|x|[|]]; cbn [invalid_argument]; oblivious_steps.
Qed.

Lemma oblivious_step e : oblivious (step e).
Proof.
  destruct e as [raw|t cb|t r|t x| |]; unfold step.
  - apply oblivious_bind; [apply oblivious_handle_raw|intros].
    apply oblivious_arm_finish_turn.
  - apply oblivious_look.
    + intros pre [w pc snt tks ct cc ctid tt]. reflexivity.
    + intros s. destruct (nth_error (tasks s) t) as [[call [|r|x]]|];
        oblivious_steps.
  - apply oblivious_modify.
    intros pre [w pc snt tks ct cc ctid tt]. cbn [tasks prepend set_sent].
    destruct (nth_error tks t) as [[call [|r'|x']]|]; reflexivity.
  - apply oblivious_modify.
    intros pre [w pc snt tks ct cc ctid tt]. cbn [tasks prepend set_sent].
    destruct (nth_error tks t) as [[call [|r'|x']]|]; reflexivity.
  - apply oblivious_finish_turn_resume.
  - apply oblivious_look.
    + intros pre [w pc snt tks ct cc ctid tt]. reflexivity.
    + intros s.
      assert (H : oblivious
                    (bind (modify (fun s =>
                                     match turn_task s with
                                     | Some Returned => set_turn_task s None
                                     | _ => s
                                     end))
                          (fun _ => arm_finish_turn))).
      { apply oblivious_bind; [|intros; apply oblivious_arm_finish_turn].
        apply oblivious_modify.
        intros pre [w pc snt tks ct cc ctid [[t'| | |x]|]]; reflexivity. }
      destruct (turn_task s) as [[t'| | |x]|];
        first [exact H|apply oblivious_raise].
Qed.

Lemma oblivious_main_loop evs : oblivious (main_loop evs).
Proof.
  induction evs as [|e evs IH]; cbn [main_loop]; [apply oblivious_ret|].
  apply oblivious_bind; [apply oblivious_step|intros; exact IH].
Qed.

Lemma run_prepend evs :
  forall pre s, run evs (prepend pre s) = prepend pre (run evs s).
Proof.
  intros pre s. unfold run, after. now rewrite oblivious_main_loop.
Qed.

(** ** From idle to running *)

(** A start request with a conversation, received in the idle state,
    creates a task and leads to the state [turn-running]; nothing is sent. *)
Lemma start_turn_from_idle s msg :
  session_inv s -> idle s ->
  PyStr.truthy (resolve_conversation_id s (um_conversation_id msg)) = true ->
  let s1 := after (step (Receive (UserMessage msg))) s in
  exists tid,
    turn_running s1 (List.length (tasks s)) tid
    /\ turn_task s1 = Some (AwaitingTask (List.length (tasks s)))
    /\ List.length (tasks s1) = S (List.length (tasks s))
    /\ sent s1 = sent s.
Proof.
  intros [Hids _] (Hct & Hcc & Htid & Htt) Hcid s1.
  destruct (@or_call_new_trace_id (um_trace_id msg) (world s) Hids)
    as (tid & w' & Hcall & Hne & _ & _).
  exists tid.
  assert (Hs1 : s1 = after (step (Receive (UserMessage msg))) s)
    by reflexivity.
  clearbody s1.
  unfold after, step, handle_raw, bind at 1, start_turn, bind at 1, gets
    in Hs1.
  unfold turn_in_flight in Hs1. rewrite Hct, Hcid in Hs1. cbn [negb] in Hs1.
  unfold bind at 1, in_world at 1 in Hs1. rewrite Hcall in Hs1.
  destruct s as [w pc snt tks ct cc ctid tt]. cbn in *. subst.
  unfold turn_running. cbn. rewrite length_app, nth_error_app2 by lia.
  rewrite Nat.sub_diag. cbn.
  split; [|split; [reflexivity|split; [lia|reflexivity]]].
  split; [reflexivity|]. split; [eexists; reflexivity|].
  split; [reflexivity|]. split; [assumption|]. split; [discriminate|].
  now right.
Qed.

(** ** A start request that meets the guard *)

Lemma truthy_inv x :
  PyStr.truthy x = true -> exists tid, x = Some tid /\ tid <> "".
Proof.
  destruct x as [tid|]; [|discriminate]. simpl.
  destruct (String.eqb_spec tid ""); [discriminate|]. eauto.
Qed.

Lemma set_sent_prepend s l : set_sent s l = prepend l (set_sent s []).
Proof. destruct s. unfold prepend. cbn. now rewrite app_nil_r. Qed.

(** What [start_turn] goes by is its guard.  While the current task is
    not done, a start request is
    answered with one terminal frame, [reason = "error"] and code [CONFLICT],
    for the trace of the running turn; no task is created and the variables
    of the running turn keep their values, so the request is neither queued
    nor dropped.  Whatever happens next, the session goes on exactly as it
    would have without the request, the [CONFLICT] frame apart.  No
    [finish_turn] of an earlier turn being pending, nothing is sent for the
    turn while its task runs; when the task returns, [finish_turn] sends the
    frame of its result once and the session is idle, after which nothing
    more is sent until a frame is received. *)
Lemma start_turn_conflict_by_guard s msg evs :
  session_inv s ->
  turn_in_flight s = true ->
  let s1 := after (step (Receive (UserMessage msg))) s in
  let s0 := after arm_finish_turn s in
  exists tid,
    current_trace_id s = Some tid
    /\ sent s1 = sent s ++ [conflict_frame tid]
    /\ (tasks s1 = tasks s /\ current_task s1 = current_task s
        /\ current_cancel s1 = current_cancel s
        /\ current_trace_id s1 = current_trace_id s
        /\ world s1 = world s)
    /\ (exists rest,
           sent (run evs s0) = sent s ++ rest
           /\ run evs s1
              = set_sent (run evs s0) (sent s ++ conflict_frame tid :: rest))
    /\ (settled s ->
        forall t r,
          current_task s = Some t ->
          let s2 := run [TaskReturns t r; FinishResumes; FinishResumes;
                         LoopCollects] s1 in
          after (step FinishResumes) s1 = s1
          /\ sent s2 = sent s1 ++ [done_of_result r]
          /\ idle s2
          /\ forall more, Forall quiet more -> sent (run more s2) = sent s2).
Proof.
  intros Hinv Hfl s1 s0.
  assert (Htid : exists tid, current_trace_id s = Some tid /\ tid <> "").
  { destruct Hinv as [_ Hinv]. unfold turn_in_flight in Hfl.
    destruct (current_task s); [|discriminate].
    now apply truthy_inv. }
  destruct Htid as (tid & Htid & Hne). exists tid.
  assert (Hs1 : s1 = after arm_finish_turn
                           (set_sent s (sent s ++ [conflict_frame tid]))).
  { unfold s1, after, step, handle_raw, bind.
    now rewrite (@start_turn_in_flight s msg tid Hfl Htid Hne). }
  destruct (arm_finish_turn_fields
              (set_sent s (sent s ++ [conflict_frame tid])))
    as (H1 & H2 & H3 & H4 & H5 & H6).
  rewrite <- Hs1 in H1, H2, H3, H4, H5, H6. cbn in H1, H2, H3, H4, H5, H6.
  split; [exact Htid|]. split; [exact H1|]. split; [auto|]. split.
  - set (base := after arm_finish_turn (set_sent s [])).
    assert (Harm : forall l, after arm_finish_turn (set_sent s l)
                             = prepend l base).
    { intros l. rewrite set_sent_prepend. unfold after at 1.
      now rewrite oblivious_arm_finish_turn. }
    assert (Hs0 : s0 = prepend (sent s) base).
    { rewrite <- Harm. unfold s0. f_equal. now destruct s. }
    exists (sent (run evs base)).
    rewrite Hs1, Hs0, Harm, !run_prepend. unfold prepend. cbn.
    split; [reflexivity|]. now rewrite <- app_assoc.
  - intros Hset t r Hct s2.
    destruct (in_flight_of_bool Hinv Hset Hfl) as (t' & Ht' & Hrun & Htt).
    assert (t' = t) as -> by congruence.
    assert (Hturn : turn_running s t tid).
    { destruct Hinv as [_ Hinv]. rewrite Hct in Hinv.
      destruct Hinv as (_ & Hcc & _).
      split; [assumption|]. split; [assumption|]. split; [assumption|].
      split; [assumption|]. split; assumption. }
    pose proof (@conflict_then_turn_finishes s t tid msg r [] Hturn
                                             (Forall_nil _))
      as (_ & Hwait & Hsent2 & Hidle & _).
    split; [exact Hwait|]. split; [exact Hsent2|]. split; [exact Hidle|].
    intros more Hq. now apply idle_stays_quiet.
Qed.

(** ** A start request between the return of a task and [finish_turn] *)

(** The variables of a turn are cleared by [finish_turn], not when the
    task returns.  A start request handled in between finds
    [current_task.done()] true and starts a second turn; [finish_turn]
    then sends the frame of the first turn and clears the variables of the
    second, whose result frame is never sent. *)
Example start_before_finish_turn_clears :
  let s := run [TaskReturns 0 Examples.hello_cancelled;
                Receive (UserMessage Examples.hello);
                FinishResumes; FinishResumes; LoopCollects;
                TaskReturns 1 Examples.hello_cancelled;
                FinishResumes; LoopCollects]
               Examples.running_session in
  sent s = [done_of_result Examples.hello_cancelled]
  /\ List.length (tasks s) = 2
  /\ current_task s = None.
Proof. cbv. intuition. Qed.

(** ** The theorems at work *)

(** A start request in the idle state of a fresh session leads to the
    state [turn-running]. *)
Lemma running_session_turn_running :
  turn_running Examples.running_session 0 Examples.hello_trace.
Proof.
  unfold turn_running. cbn.
  split; [reflexivity|]. split; [eexists; reflexivity|].
  split; [reflexivity|]. split; [discriminate|]. split; [discriminate|].
  now right.
Qed.

Lemma running_session_inv : session_inv Examples.running_session.
Proof.
  apply session_inv_step, session_inv_accept.
  intros n. do 9 (destruct n as [|n]; [discriminate|]). discriminate.
Qed.

End WsFacts.

(* ===================================================================== *)
(** * More about storage/db.py *)
(* ===================================================================== *)

Unset Implicit Arguments.

Module DbMore.

Import Db DbSpec DbInvariant DbFacts.

(** ** What a call of [create_message] does to the table *)

(** The three ways a call can go. *)
Lemma create_message_cases mid cid role text key att w :
  let res := create_message mid cid role text key att w in
  match fst res with
  | Ok m =>
      (messages (snd res) = messages w
       /\ PyStr.truthy key = true
       /\ exists row, In row (messages w) /\ m = row_to_message row
                      /\ col_conversation_id row = cid
                      /\ col_client_request_id row = key)
      \/ (messages (snd res)
          = messages w ++ [new_row w mid cid role text key att]
          /\ m = row_to_message (new_row w mid cid role text key att))
  | Raised e => e = IntegrityError /\ messages (snd res) = messages w
  end.
Proof.
  cbv zeta. rewrite create_message_unfold.
  assert (Hins : match fst (insert_path w mid cid role text key att) with
                 | Ok m =>
                     messages (snd (insert_path w mid cid role text key att))
                     = messages w ++ [new_row w mid cid role text key att]
                     /\ m = row_to_message (new_row w mid cid role text key att)
                 | Raised e =>
                     e = IntegrityError
                     /\ messages (snd (insert_path w mid cid role text key att))
                        = messages w
                 end).
  { unfold insert_path. destruct (_ || _); cbn; auto. }
  destruct (PyStr.truthy key) eqn:Ht.
  - destruct (find _ (messages w)) as [row|] eqn:Hf.
    + cbn. left. split; [reflexivity|]. split; [reflexivity|].
      exists row. apply find_some in Hf as [Hin Hm].
      unfold matches_request in Hm. apply andb_true_iff in Hm as [Hc Hk].
      apply String.eqb_eq in Hc.
      destruct key as [k|]; [|discriminate]. simpl in Ht, Hk.
      destruct (String.eqb_spec k ""); [discriminate|].
      destruct (col_client_request_id row) as [k'|]; [|discriminate].
      simpl in Hk. apply String.eqb_eq in Hk. subst. auto.
    + destruct (fst (insert_path w mid cid role text key att)); [right|];
        exact Hins.
  - destruct (fst (insert_path w mid cid role text key att)); [right|];
      exact Hins.
Qed.

(** X1.  A call returns a message built from a row the table already held and
    writes nothing, or appends the row built from its arguments and returns
    it, or raises [IntegrityError] and writes nothing.  Rows are never
    changed or removed. *)
Theorem create_message_outcomes mid cid role text key att w :
  let res := create_message mid cid role text key att w in
  match fst res with
  | Ok m =>
      (messages (snd res) = messages w
       /\ PyStr.truthy key = true
       /\ exists row, In row (messages w) /\ m = row_to_message row
                      /\ col_conversation_id row = cid
                      /\ col_client_request_id row = key)
      \/ (messages (snd res)
          = messages w ++ [new_row w mid cid role text key att]
          /\ m = row_to_message (new_row w mid cid role text key att))
  | Raised e => e = IntegrityError /\ messages (snd res) = messages w
  end.
Proof. exact (create_message_cases mid cid role text key att w). Qed.

(** ** The constraints of the schema *)

Lemma existsb_false_forall {A} (f : A -> bool) l :
  existsb f l = false -> forall x, In x l -> f x = false.
Proof.
  intros H x Hx. destruct (f x) eqn:E; [|reflexivity].
  assert (existsb f l = true) by (apply existsb_exists; eauto). congruence.
Qed.

Lemma request_keys_app t t' :
  request_keys (t ++ t') = request_keys t ++ request_keys t'.
Proof. unfold request_keys. apply flat_map_app. Qed.

Lemma in_request_keys t c k :
  In (c, k) (request_keys t) ->
  exists x, In x t /\ col_conversation_id x = c
            /\ col_client_request_id x = Some k.
Proof.
  unfold request_keys. rewrite in_flat_map. intros (x & Hx & Hin).
  exists x. destruct (col_client_request_id x) as [k'|]; [|contradiction].
  destruct Hin as [E|[]]. inversion E; subst. auto.
Qed.

Lemma table_ok_insert t r :
  table_ok t ->
  violates_primary_key t r || violates_idx_messages_idempotent t r = false ->
  table_ok (t ++ [r]).
Proof.
  intros [Hids Hkeys] Hv. apply orb_false_iff in Hv as [Hpk Hidx].
  split.
  - rewrite map_app. cbn. apply NoDup_app.
    + exact Hids.
    + repeat constructor. intros [].
    + intros x Hx [<-|[]]. apply in_map_iff in Hx as (y & Hy & Hin).
      pose proof (existsb_false_forall _ _ Hpk y Hin) as E. cbn in E.
      apply String.eqb_neq in E. congruence.
  - rewrite request_keys_app. apply NoDup_app.
    + exact Hkeys.
    + unfold request_keys. cbn.
      destruct (col_client_request_id r); repeat constructor; intros [].
    + intros [c k] Hx Hr. unfold request_keys in Hr. cbn in Hr.
      unfold violates_idx_messages_idempotent in Hidx.
      destruct (col_client_request_id r) as [kr|];
        [|now rewrite app_nil_r in Hr].
      destruct Hr as [E|[]]. inversion E; subst.
      apply in_request_keys in Hx as (y & Hin & Hc & Hk).
      pose proof (existsb_false_forall _ _ Hidx y Hin) as F. cbn in F.
      rewrite Hc, Hk, String.eqb_refl in F. cbn in F.
      now rewrite String.eqb_refl in F.
Qed.

Lemma table_ok_create_message mid cid role text key att w :
  table_ok (messages w) ->
  table_ok (messages (snd (create_message mid cid role text key att w))).
Proof.
  intros Hok. rewrite create_message_unfold.
  assert (Hins : table_ok
                   (messages (snd (insert_path w mid cid role text key att)))).
  { unfold insert_path. destruct (_ || _) eqn:Hv; cbn; [exact Hok|].
    now apply table_ok_insert. }
  destruct (PyStr.truthy key); [destruct (find _ _)|]; auto.
Qed.

(** X2.  Whatever a call of [create_message] does, a table that satisfies the
    constraints of the schema still satisfies them afterwards. *)
Theorem create_message_keeps_constraints mid cid role text key att w :
  table_ok (messages w) ->
  table_ok (messages (snd (create_message mid cid role text key att w))).
Proof. exact (table_ok_create_message mid cid role text key att w). Qed.

Lemma create_message_keeps_constraints_witness :
  table_ok (messages Examples.empty_world)
  /\ table_ok
       (messages (snd (create_message "m1" "c1" "user" "first" (Some "k")
                                      None Examples.empty_world))).
Proof.
  assert (H : table_ok (messages Examples.empty_world))
    by (split; constructor).
  split; [exact H|].
  exact (create_message_keeps_constraints
           "m1" "c1" "user" "first" (Some "k") None Examples.empty_world H).
Defined.

(** ** First write wins *)

Lemma find_app_found {A} (f : A -> bool) l l' x :
  find f l = Some x -> find f (l ++ l') = Some x.
Proof.
  induction l as [|y l IH]; simpl; [discriminate|].
  destruct (f y); auto.
Qed.

(** After a successful call with a non-empty key, the message it returned
    is the first match for the key, in a row of the table. *)
Lemma create_message_first_match w mid cid role text key att m w1 :
  key <> "" ->
  create_message mid cid role text (Some key) att w = (Ok m, w1) ->
  exists row, find (matches_request cid key) (messages w1) = Some row
              /\ m = row_to_message row.
Proof.
  intros Hkey H. rewrite create_message_unfold in H.
  assert (Ht : PyStr.truthy (Some key) = true).
  { simpl. destruct (String.eqb_spec key ""); [contradiction|reflexivity]. }
  assert (Ho : PyStr.or_else (Some key) "" = key).
  { simpl. destruct (String.eqb_spec key ""); [contradiction|reflexivity]. }
  rewrite Ht, Ho in H.
  destruct (find (matches_request cid key) (messages w)) as [row|] eqn:Hf.
  - inversion H; subst. exists row. now cbn.
  - unfold insert_path in H. destruct (_ || _); [discriminate|].
    inversion H; subst. eexists. split; [|reflexivity].
    cbn [messages set_messages]. apply find_app_new; [exact Hf|].
    unfold matches_request, new_row. cbn. now rewrite !String.eqb_refl.
Qed.

Lemma create_message_again
        w mid cid role text key att m w1 w2 more mid' role' text' att' :
  key <> "" ->
  create_message mid cid role text (Some key) att w = (Ok m, w1) ->
  messages w2 = messages w1 ++ more ->
  create_message mid' cid role' text' (Some key) att' w2 = (Ok m, tick w2).
Proof.
  intros Hkey H Hmore.
  destruct (create_message_first_match w mid cid role text key att m w1
                                       Hkey H) as (row & Hf & ->).
  rewrite create_message_unfold.
  assert (Ht : PyStr.truthy (Some key) = true).
  { simpl. destruct (String.eqb_spec key ""); [contradiction|reflexivity]. }
  assert (Ho : PyStr.or_else (Some key) "" = key).
  { simpl. destruct (String.eqb_spec key ""); [contradiction|reflexivity]. }
  rewrite Ht, Ho, Hmore, (find_app_found _ _ more _ Hf). reflexivity.
Qed.

(** X3.  Once a call with a non-empty [client_request_id] has returned a
    message, every later call with the same conversation and key returns that
    message and writes nothing, however many rows were appended in
    between and whatever the other arguments are. *)
Theorem create_message_first_write_wins
        w mid cid role text key att m w1 w2 more mid' role' text' att' :
  key <> "" ->
  create_message mid cid role text (Some key) att w = (Ok m, w1) ->
  messages w2 = messages w1 ++ more ->
  create_message mid' cid role' text' (Some key) att' w2 = (Ok m, tick w2).
Proof.
  exact (create_message_again
           w mid cid role text key att m w1 w2 more mid' role' text' att').
Qed.

Lemma create_message_first_write_wins_witness :
  let first := create_message "m1" "c1" "user" "first" (Some "k") None
                              Examples.empty_world in
  let between := create_message "m2" "c1" "assistant" "reply" None None
                                (snd first) in
  let retry := create_message "m3" "c1" "user" "second" (Some "k") None
                              (snd between) in
  "k" <> ""
  /\ fst retry = fst first
  /\ messages (snd retry) = messages (snd between).
Proof.
  cbv zeta.
  assert (Hk : "k" <> "") by discriminate.
  split; [exact Hk|].
  rewrite (create_message_first_write_wins
             Examples.empty_world "m1" "c1" "user" "first" "k" None
             (mkMessageRow "m1" "c1" "user" "first" "2024-05-01T10:00:00Z"
                           (Some "k") [])
             (snd (create_message "m1" "c1" "user" "first" (Some "k") None
                                  Examples.empty_world))
             (snd (create_message
                     "m2" "c1" "assistant" "reply" None None
                     (snd (create_message "m1" "c1" "user" "first" (Some "k")
                                          None Examples.empty_world))))
             [mkRow "m2" "c1" "assistant" "reply" "2024-05-01T10:00:01Z"
                    None (JsonList [])]
             "m3" "user" "second" None Hk eq_refl eq_refl).
  split; reflexivity.
Defined.

(** ** Insert and look up *)

Lemma find_unique {A} (f : A -> string) l x :
  NoDup (map f l) -> In x l ->
  find (fun y => String.eqb (f y) (f x)) l = Some x.
Proof.
  induction l as [|y l IH]; simpl; [intros _ []|].
  intros Hnd [->|Hin].
  - now rewrite String.eqb_refl.
  - inversion Hnd as [|? ? Hy Hnd']; subst.
    destruct (String.eqb_spec (f y) (f x)) as [E|_]; [|auto].
    exfalso. apply Hy. rewrite E. now apply in_map.
Qed.

(** X4.  In a table that satisfies the constraints, the message a successful
    call of [create_message] returns is the one [get_message] finds under
    its [message_id]. *)
Theorem get_message_after_create mid cid role text key att w m w1 :
  table_ok (messages w) ->
  create_message mid cid role text key att w = (Ok m, w1) ->
  get_message (messages w1) (message_id m) = Some m.
Proof.
  intros Hok H.
  pose proof (table_ok_create_message mid cid role text key att w
                                               Hok) as [Hids _].
  pose proof (create_message_cases mid cid role text key att w) as Hout.
  cbv zeta in Hout. rewrite H in Hids, Hout. cbn [fst snd] in Hids, Hout.
  assert (Hrow : exists row, In row (messages w1) /\ m = row_to_message row).
  { destruct Hout as [(Hsame & _ & row & Hin & -> & _)|(Happ & ->)].
    - exists row. now rewrite Hsame.
    - eexists. split; [|reflexivity]. rewrite Happ. apply in_or_app.
      right. now left. }
  destruct Hrow as (row & Hin & ->). unfold get_message.
  change (message_id (row_to_message row)) with (col_message_id row).
  now rewrite (find_unique col_message_id _ _ Hids Hin).
Qed.

Lemma get_message_after_create_witness :
  let res := create_message "m1" "c1" "user" "first" (Some "k") None
                            Examples.empty_world in
  table_ok (messages Examples.empty_world)
  /\ get_message (messages (snd res)) "m1"
     = Some (mkMessageRow "m1" "c1" "user" "first" "2024-05-01T10:00:00Z"
                          (Some "k") []).
Proof.
  cbv zeta.
  assert (H : table_ok (messages Examples.empty_world))
    by (split; constructor).
  split; [exact H|].
  exact (get_message_after_create
           "m1" "c1" "user" "first" (Some "k") None Examples.empty_world
           _ _ H eq_refl).
Defined.

(** [get_message] finds nothing exactly when no row has the identifier,
    and what it finds has the identifier asked for. *)
Theorem get_message_found t mid :
  match get_message t mid with
  | Some m => message_id m = mid
              /\ exists row, In row t /\ m = row_to_message row
  | None => forall row, In row t -> col_message_id row <> mid
  end.
Proof.
  unfold get_message.
  destruct (find _ t) as [row|] eqn:Hf; cbn.
  - apply find_some in Hf as [Hin E]. apply String.eqb_eq in E. eauto.
  - intros row Hin. apply String.eqb_neq.
    exact (find_none _ _ Hf row Hin).
Qed.

(** ** Listing *)

(** X5.  Every message listed is a stored row of the conversation asked for:
    messages of other conversations are never returned. *)
Theorem list_messages_of_conversation t cid limit before listed m :
  list_messages t cid limit before = Ok listed ->
  In m listed ->
  conversation_id m = cid
  /\ exists row, In row t /\ m = row_to_message row.
Proof.
  intros Hl H. apply list_messages_selects in Hl. subst listed.
  apply list_messages_in in H as (x & Hin & Hw & ->).
  unfold where_clause in Hw. apply andb_true_iff in Hw as [Hc _].
  apply String.eqb_eq in Hc. split; [exact Hc|eauto].
Qed.

Lemma list_messages_of_conversation_witness :
  let m2 := mkMessageRow "m2" "c1" "assistant" "two" "2024-05-01T09:00:02Z"
                         None [] in
  let m3 := mkMessageRow "m3" "c1" "user" "three" "2024-05-01T09:00:03Z"
                         None [] in
  list_messages Examples.three_messages "c1" (Some 2%Z) None = Ok [m2; m3]
  /\ In m2 [m2; m3]
  /\ conversation_id m2 = "c1".
Proof.
  cbv zeta.
  assert (Hl : list_messages Examples.three_messages "c1" (Some 2%Z) None
               = Ok [mkMessageRow "m2" "c1" "assistant" "two"
                                  "2024-05-01T09:00:02Z" None [];
                     mkMessageRow "m3" "c1" "user" "three"
                                  "2024-05-01T09:00:03Z" None []])
    by reflexivity.
  assert (H : In (mkMessageRow "m2" "c1" "assistant" "two"
                               "2024-05-01T09:00:02Z" None [])
                 [mkMessageRow "m2" "c1" "assistant" "two"
                               "2024-05-01T09:00:02Z" None [];
                  mkMessageRow "m3" "c1" "user" "three"
                               "2024-05-01T09:00:03Z" None []])
    by (now left).
  split; [exact Hl|]. split; [exact H|].
  exact (proj1 (list_messages_of_conversation
                  Examples.three_messages "c1" (Some 2%Z) None _ _ Hl H)).
Defined.

(** X6.  The message a successful call of [create_message] returns appears in
    the full listing of its conversation. *)
Theorem created_message_is_listed mid cid role text key att w m w1 :
  create_message mid cid role text key att w = (Ok m, w1) ->
  exists listed,
    list_messages (messages w1) cid None None = Ok listed /\ In m listed.
Proof.
  intros H. eexists. split; [reflexivity|].
  pose proof (create_message_cases mid cid role text key att w) as Hout.
  cbv zeta in Hout. rewrite H in Hout. cbn [fst snd] in Hout.
  assert (Hrow : exists row, In row (messages w1)
                             /\ col_conversation_id row = cid
                             /\ m = row_to_message row).
  { destruct Hout as [(Hsame & _ & row & Hin & -> & Hc & _)|(Happ & ->)].
    - exists row. now rewrite Hsame.
    - exists (new_row w mid cid role text key att).
      split; [|split; reflexivity]. rewrite Happ. apply in_or_app.
      right. now left. }
  destruct Hrow as (row & Hin & Hc & ->).
  unfold select_messages. apply in_map.
  eapply Permutation_in; [symmetry; apply order_by_perm|].
  apply filter_In. split; [exact Hin|].
  unfold where_clause. cbn. now rewrite Hc, String.eqb_refl.
Qed.

Lemma created_message_is_listed_witness :
  let res := create_message "m4" "c1" "user" "four" None None
                            (Examples.world_with Examples.three_messages) in
  exists listed,
    list_messages (messages (snd res)) "c1" None None = Ok listed
    /\ In (mkMessageRow "m4" "c1" "user" "four" "2024-05-01T10:00:00Z"
                        None [])
          listed.
Proof.
  cbv zeta.
  exact (created_message_is_listed
           "m4" "c1" "user" "four" None None
           (Examples.world_with Examples.three_messages) _ _ eq_refl).
Defined.

End DbMore.

(* ===================================================================== *)
(** * More about api/http.py *)
(* ===================================================================== *)

Module HttpMore.

Import Http HttpSpec HttpMoreSpec DbSpec DbInvariant.

(** ** Records *)

Lemma each_model_validate l :
  (forallb is_ref l = true
   /\ exists refs, each model_validate l = Ok refs /\ map RefDict refs = l)
  \/ (forallb is_ref l = false
      /\ each model_validate l = Raised ValidationError).
Proof.
  induction l as [|[ref|] l IH]; cbn.
  - left. split; [reflexivity|]. exists []. auto.
  - destruct IH as [(Hf & refs & -> & <-)|(Hf & ->)]; rewrite Hf.
    + left. split; [reflexivity|]. exists (ref :: refs). auto.
    + right. auto.
  - right. auto.
Qed.

(** Building a record copies the fields of an accepted message and
    raises [ValidationError] for any other. *)
Lemma to_record_cases r :
  (accepted r = true /\ exists x, to_record r = Ok x /\ record_of r x)
  \/ (accepted r = false /\ to_record r = Raised ValidationError).
Proof.
  unfold accepted, to_record.
  destruct (each_model_validate (attachments r))
    as [(Hf & refs & -> & Hrefs)|(Hf & ->)]; rewrite Hf; cbn [andb].
  - destruct (is_role (role r)); [left|right; auto].
    split; [reflexivity|]. eexists. split; [reflexivity|].
    unfold record_of. cbn. auto 10.
  - right. auto.
Qed.

Lemma each_to_record l :
  (forallb accepted l = true
   /\ exists xs, each to_record l = Ok xs /\ Forall2 record_of l xs)
  \/ (forallb accepted l = false
      /\ each to_record l = Raised ValidationError).
Proof.
  induction l as [|r l IH]; cbn.
  - left. split; [reflexivity|]. exists []. auto.
  - destruct (to_record_cases r) as [(Ha & x & -> & Hx)|(Ha & ->)];
      rewrite Ha; cbn [andb]; [|right; auto].
    destruct IH as [(Hf & xs & -> & Hxs)|(Hf & ->)]; rewrite Hf.
    + left. split; [reflexivity|]. exists (x :: xs). auto.
    + right. auto.
Qed.

Lemma each_to_record_ok l xs :
  each to_record l = Ok xs -> Forall2 record_of l xs.
Proof.
  intros H. destruct (each_to_record l) as [(_ & xs' & E & Hxs)|(_ & E)];
    rewrite E in H; [|discriminate].
  now inversion H; subst.
Qed.

Lemma record_of_in l xs x :
  Forall2 record_of l xs -> In x xs -> exists r, In r l /\ record_of r x.
Proof.
  induction 1 as [|r y l xs Hr _ IH]; intros Hin; [contradiction|].
  destruct Hin as [<-|Hin].
  - exists r. split; [now left|exact Hr].
  - destruct (IH Hin) as (r' & Hin' & Hr'). exists r'. split; [now right|auto].
Qed.

Lemma record_of_sorted l xs :
  Forall2 record_of l xs ->
  StronglySorted
    (fun x y => String.leb (created_at_utc x) (created_at_utc y) = true) l ->
  StronglySorted
    (fun x y => String.leb (rec_created_at_utc x) (rec_created_at_utc y)
                = true) xs.
Proof.
  induction 1 as [|r x l xs Hr Hrest IH]; intros Hs; [constructor|].
  inversion Hs as [|? ? Hs' Hall]; subst. constructor; [auto|].
  apply Forall_forall. intros y Hy.
  destruct (record_of_in _ _ _ Hrest Hy) as (r' & Hin & Hr').
  rewrite Forall_forall in Hall. specialize (Hall r' Hin).
  destruct Hr as (_ & _ & _ & _ & -> & _).
  destruct Hr' as (_ & _ & _ & _ & -> & _). exact Hall.
Qed.

(** ** [POST /messages] *)

Lemma post_message_unfold cid text att key w :
  post_message cid text att key w
  = match Db.create_message (id_source w (S (ids_drawn w))) cid "user" text
                            key (Some (map RefDict att)) (drawn (drawn w))
    with
    | (Ok row, w') =>
        match to_record row with
        | Ok msg => (Ok (ok (id_source w (ids_drawn w)) msg), w')
        | Raised e => (Raised e, w')
        end
    | (Raised e, w') => (Raised e, w')
    end.
Proof.
  unfold post_message, bind, new_trace_id, new_id, attempt, ret, drawn.
  cbn [id_source ids_drawn set_ids_drawn].
  destruct (Db.create_message _ _ _ _ _ _ _) as [[row|e] w']; [|reflexivity].
  now destruct (to_record row).
Qed.

(** X7.  Two posts to the same conversation with the same non-empty
    [client_request_id] return the same message record, whatever their
    content, and the second one writes nothing. *)
Theorem post_message_idempotent cid text att key w env w1 text' att' :
  key <> "" ->
  post_message cid text att (Some key) w = (Ok env, w1) ->
  exists env' w2,
    post_message cid text' att' (Some key) w1 = (Ok env', w2)
    /\ data env' = data env
    /\ messages w2 = messages w1.
Proof.
  intros Hkey H. rewrite post_message_unfold in H.
  destruct (Db.create_message _ cid "user" text (Some key) _ _)
    as [[row|e] wa] eqn:Hc; [|discriminate].
  destruct (to_record row) as [msg|e] eqn:Hrec; [|discriminate].
  inversion H; subst; clear H.
  rewrite post_message_unfold.
  rewrite (DbMore.create_message_again
             _ _ cid "user" text key (Some (map RefDict att)) row w1
             (drawn (drawn w1)) [] _ "user" text' (Some (map RefDict att'))
             Hkey Hc)
    by (cbn; now rewrite app_nil_r).
  rewrite Hrec. eexists _, _. split; [reflexivity|]. split; reflexivity.
Qed.

Lemma post_message_idempotent_witness :
  "k" <> ""
  /\ exists env w1 env' w2,
      post_message "c1" "first" [] (Some "k") Examples.empty_world
      = (Ok env, w1)
      /\ post_message "c1" "second" [] (Some "k") w1 = (Ok env', w2)
      /\ data env' = data env.
Proof.
  assert (Hk : "k" <> "") by discriminate.
  split; [exact Hk|].
  assert (H1 : exists env w1,
             post_message "c1" "first" [] (Some "k") Examples.empty_world
             = (Ok env, w1))
    by (vm_compute; eexists _, _; reflexivity).
  destruct H1 as (env & w1 & H1).
  destruct (post_message_idempotent
              "c1" "first" [] "k" Examples.empty_world
              env w1 "second" [] Hk H1)
    as (env' & w2 & Hretry & Hdata & _).
  exists env, w1, env', w2. split; [exact H1|].
  split; [exact Hretry|exact Hdata].
Defined.

(** ** [GET /conversations/{conversation_id}/messages] *)

Lemma query_limit_range n :
  negb ((1 <=? n)%Z && (n <=? 200)%Z) = false <-> (1 <= n <= 200)%Z.
Proof.
  rewrite negb_false_iff, andb_true_iff, !Z.leb_le. tauto.
Qed.

(** What a successful call returned. *)
Lemma list_messages_ok cid limit before w env w' :
  list_messages cid limit before w = (Ok env, w') ->
  let n := effective_limit limit in
  (1 <= n <= 200)%Z
  /\ messages w' = messages w
  /\ exists before_ts,
      before_timestamp before w = Ok before_ts
      /\ Forall2 record_of
                 (Db.select_messages (messages w) cid (Some n) before_ts)
                 (items (data env))
      /\ next_before (data env)
         = if (Z.of_nat (List.length (items (data env))) =? n)%Z
           then option_map id (hd_error (rev (items (data env))))
           else None.
Proof.
  rewrite HttpFacts.list_messages_unfold. unfold effective_limit. cbv zeta.
  set (n := match limit with Some n => n | None => 50%Z end).
  destruct (negb _) eqn:Hr; [discriminate|].
  apply query_limit_range in Hr.
  destruct (before_timestamp before w) as [bts|e]; [|discriminate].
  destruct (each to_record _) as [its|e] eqn:Hrec; [|discriminate].
  intros H. inversion H; subst. cbn.
  split; [exact Hr|]. split; [reflexivity|]. exists bts.
  split; [reflexivity|]. split; [|reflexivity].
  now apply each_to_record_ok.
Qed.

(** X8.  What the endpoint does is settled by its arguments and the rows
    it reads.  A [limit] outside 1..200 is a validation error raised
    before anything else happens.  Otherwise a [before] that names no
    stored message is [NOT_FOUND].  Otherwise the rows of the page are
    read, and the endpoint answers when the models accept every one of
    them and raises [ValidationError] when they refuse one.  Nothing else
    is raised: [items[-1]] never fails, and the limit is one the store
    accepts. *)
Theorem list_messages_outcomes cid limit before w :
  let n := effective_limit limit in
  let res := list_messages cid limit before w in
  match fst res with
  | Ok env =>
      (1 <= n <= 200)%Z
      /\ (PyStr.truthy before = true ->
          Db.get_message (messages w) (PyStr.or_else before "") <> None)
      /\ exists before_ts rows,
          before_timestamp before w = Ok before_ts
          /\ Db.list_messages (messages w) cid (Some n) before_ts = Ok rows
          /\ forallb accepted rows = true
  | Raised e =>
      (e = RequestValidationError /\ ~ (1 <= n <= 200)%Z /\ snd res = w)
      \/ (e = ApiError "NOT_FOUND" "before message not found"
          /\ (1 <= n <= 200)%Z
          /\ PyStr.truthy before = true
          /\ Db.get_message (messages w) (PyStr.or_else before "") = None)
      \/ (e = ValidationError
          /\ (1 <= n <= 200)%Z
          /\ exists before_ts rows,
              before_timestamp before w = Ok before_ts
              /\ Db.list_messages (messages w) cid (Some n) before_ts
                 = Ok rows
              /\ forallb accepted rows = false)
  end.
Proof.
  cbv zeta. rewrite HttpFacts.list_messages_unfold.
  unfold effective_limit. cbv zeta.
  set (n := match limit with Some n => n | None => 50%Z end).
  destruct ((1 <=? n)%Z && (n <=? 200)%Z) eqn:Hr; cbn [negb].
  2:{ cbn [fst snd]. left. split; [reflexivity|]. split; [|reflexivity].
      intros [H1 H2]. apply Z.leb_le in H1, H2. rewrite H1, H2 in Hr.
      discriminate. }
  pose proof (HttpFacts.query_limit_sqlite_int n Hr) as Hint.
  assert (Hn : (1 <= n <= 200)%Z).
  { apply andb_true_iff in Hr as [H1 H2]. apply Z.leb_le in H1, H2. lia. }
  assert (Hlist : forall bts,
             Db.list_messages (messages w) cid (Some n) bts
             = Ok (Db.select_messages (messages w) cid (Some n) bts)).
  { intros bts. unfold Db.list_messages. now rewrite Hint. }
  destruct (before_timestamp before w) as [bts|e] eqn:Hb.
  - destruct (each_to_record
                (Db.select_messages (messages w) cid (Some n) bts))
      as [(Hacc & xs & -> & _)|(Hacc & ->)]; cbn [fst snd].
    + split; [exact Hn|]. split.
      * intros Ht. unfold before_timestamp in Hb. rewrite Ht in Hb.
        destruct (Db.get_message _ _); [discriminate|discriminate Hb].
      * exists bts. eexists. split; [reflexivity|].
        split; [apply Hlist|exact Hacc].
    + right. right. split; [reflexivity|]. split; [exact Hn|].
      exists bts. eexists. split; [reflexivity|].
      split; [apply Hlist|exact Hacc].
  - cbn [fst snd]. right. left. unfold before_timestamp in Hb.
    destruct (PyStr.truthy before) eqn:Ht; [|discriminate].
    destruct (Db.get_message _ _) eqn:Hg; [discriminate|].
    inversion Hb; subst. auto.
Qed.

(** ** Pages *)

Lemma list_messages_length t cid n before :
  (0 <= n)%Z ->
  (Z.of_nat (List.length (Db.select_messages t cid (Some n) before)) <= n)%Z.
Proof.
  intros Hn. unfold Db.select_messages.
  rewrite length_rev, length_map, DbFacts.sql_limit_nonneg, length_firstn
    by lia.
  lia.
Qed.

(** X9.  A page holds at most [limit] records, all of the conversation asked
    for, oldest first; the table is not written. *)
Theorem list_messages_page cid limit before w env w' :
  list_messages cid limit before w = (Ok env, w') ->
  (Z.of_nat (List.length (items (data env))) <= effective_limit limit)%Z
  /\ Forall (fun r => rec_conversation_id r = cid) (items (data env))
  /\ StronglySorted
       (fun x y => String.leb (rec_created_at_utc x) (rec_created_at_utc y)
                   = true) (items (data env))
  /\ messages w' = messages w.
Proof.
  intros H. apply list_messages_ok in H. cbv zeta in H.
  destruct H as (Hn & Hw & bts & _ & Hitems & _).
  split.
  { rewrite <- (Forall2_length Hitems). apply list_messages_length. lia. }
  split; [|split; [|exact Hw]].
  - apply Forall_forall. intros r Hr.
    destruct (record_of_in _ _ _ Hitems Hr) as (m & Hm & (_ & -> & _)).
    apply DbFacts.list_messages_in in Hm as (x & _ & Hx & ->).
    unfold Db.where_clause in Hx. apply andb_true_iff in Hx as [Hc _].
    apply String.eqb_eq in Hc. exact Hc.
  - apply (record_of_sorted _ _ Hitems).
    apply DbFacts.list_messages_oldest_first.
Qed.

Lemma list_messages_page_witness :
  exists env w',
    list_messages "c1" (Some 2%Z) None
                  (Examples.world_with Examples.three_messages) = (Ok env, w')
    /\ (Z.of_nat (List.length (items (data env))) <= 2)%Z
    /\ map id (items (data env)) = ["m2"; "m3"].
Proof.
  eexists _, _. split; [cbv; reflexivity|].
  split; [|reflexivity].
  refine (proj1 (list_messages_page
                   "c1" (Some 2%Z) None
                   (Examples.world_with Examples.three_messages)
                   _ _ _)).
  vm_compute. reflexivity.
Defined.

(** X10.  [next_before] is present exactly when the page is full, and it is
    then the identifier of the last record of [items], the most recent one
    of the page. *)
Theorem next_before_full_page cid limit before w env w' :
  list_messages cid limit before w = (Ok env, w') ->
  (next_before (data env) <> None
   <-> Z.of_nat (List.length (items (data env))) = effective_limit limit)
  /\ forall c,
      next_before (data env) = Some c ->
      exists earlier newest,
        items (data env) = earlier ++ [newest] /\ id newest = c
        /\ Forall (fun r => String.leb (rec_created_at_utc r)
                                        (rec_created_at_utc newest) = true)
                  earlier.
Proof.
  intros H. apply list_messages_ok in H. cbv zeta in H.
  destruct H as (Hn & _ & bts & _ & Hitems & Hnb). rewrite Hnb.
  assert (Hs : StronglySorted
                 (fun x y => String.leb (rec_created_at_utc x)
                                        (rec_created_at_utc y) = true)
                 (items (data env))).
  { apply (record_of_sorted _ _ Hitems).
    apply DbFacts.list_messages_oldest_first. }
  clear Hitems.
  destruct (Z.eqb_spec (Z.of_nat (List.length (items (data env))))
                       (effective_limit limit)) as [E|E].
  - destruct (rev (items (data env))) as [|x l] eqn:Er.
    + apply (f_equal (@List.length _)) in Er. rewrite length_rev in Er.
      cbn in Er. lia.
    + cbn. split; [split; [intros _; exact E|discriminate]|].
      intros c [= <-]. exists (rev l), x.
      assert (Hi : items (data env) = rev l ++ [x]).
      { rewrite <- (rev_involutive (items (data env))), Er. reflexivity. }
      split; [exact Hi|]. split; [reflexivity|].
      rewrite Hi in Hs. clear - Hs.
      induction (rev l) as [|y l' IH]; [constructor|].
      inversion Hs as [|? ? Hs' Hy]; subst. constructor; [|auto].
      rewrite Forall_forall in Hy. apply Hy, in_or_app. right. now left.
  - split; [split; [congruence|intros; contradiction]|discriminate].
Qed.

Lemma next_before_full_page_witness :
  exists env w',
    list_messages "c1" (Some 2%Z) None
                  (Examples.world_with Examples.three_messages) = (Ok env, w')
    /\ next_before (data env) = Some "m3"
    /\ Z.of_nat (List.length (items (data env))) = 2%Z.
Proof.
  eexists _, _. split; [cbv; reflexivity|]. split; [reflexivity|].
  refine (proj1 (proj1 (next_before_full_page
                          "c1" (Some 2%Z) None
                          (Examples.world_with Examples.three_messages)
                          _ _ _)) _).
  - vm_compute. reflexivity.
  - discriminate.
Defined.

(** ** The [before] cursor *)

(** X11.  With [before] given, every record of the page is strictly older than
    the message [before] names: that message is not on the page, and
    neither is any message stored with the same timestamp. *)
Theorem list_messages_strictly_before cid limit b w env w' row :
  b <> "" ->
  Db.get_message (messages w) b = Some row ->
  created_at_utc row <> "" ->
  list_messages cid limit (Some b) w = (Ok env, w') ->
  forall r,
    In r (items (data env)) ->
    String.ltb (rec_created_at_utc r) (created_at_utc row) = true
    /\ rec_created_at_utc r <> created_at_utc row.
Proof.
  intros Hb Hrow Hts H r Hr.
  assert (Ht : PyStr.truthy (Some b) = true).
  { simpl. destruct (String.eqb_spec b ""); [contradiction|reflexivity]. }
  assert (Ho : PyStr.or_else (Some b) "" = b).
  { simpl. destruct (String.eqb_spec b ""); [contradiction|reflexivity]. }
  apply list_messages_ok in H. cbv zeta in H.
  destruct H as (_ & _ & bts & Hbts & Hitems & _).
  unfold before_timestamp in Hbts. rewrite Ht, Ho, Hrow in Hbts.
  inversion Hbts; subst bts.
  destruct (record_of_in _ _ _ Hitems Hr) as (m & Hm & (_ & _ & _ & _ & -> & _)).
  apply DbFacts.list_messages_before in Hm; [|exact Hts].
  split; [exact Hm|].
  intros E. rewrite E, TextOrder.ltb_irrefl in Hm. discriminate.
Qed.

Lemma list_messages_strictly_before_witness :
  exists env w' row,
    Db.get_message Examples.three_messages "m3" = Some row
    /\ list_messages "c1" (Some 2%Z) (Some "m3")
                     (Examples.world_with Examples.three_messages)
       = (Ok env, w')
    /\ forall r, In r (items (data env)) ->
                 String.ltb (rec_created_at_utc r) (created_at_utc row) = true.
Proof.
  eexists _, _, _. split; [reflexivity|]. split; [cbv; reflexivity|].
  intros r Hr.
  refine (proj1 (list_messages_strictly_before
                   "c1" (Some 2%Z) "m3"
                   (Examples.world_with Examples.three_messages)
                   _ _ _ _ eq_refl _ _ r Hr));
    first [discriminate | vm_compute; reflexivity].
Defined.

End HttpMore.


(* ===================================================================== *)
(** * More about core/orchestrator.py *)
(* ===================================================================== *)

Module OrchestratorMore.

Import Db DbSpec Orchestrator OrchestratorSpec OrchestratorMoreSpec.

(** ** The context handed to the provider *)

Lemma history_entry_in urow row c :
  In c (history_entry urow row) ->
  message_id row <> message_id urow
  /\ (role row = "user" \/ role row = "assistant")
  /\ c = mkChatMessage (role row) (content_text row).
Proof.
  unfold history_entry.
  destruct (String.eqb_spec (message_id row) (message_id urow)) as [|Hne];
    [intros []|].
  destruct (String.eqb_spec (role row) "user") as [Hu|Hu]; cbn [orb].
  - intros [<-|[]]. auto.
  - destruct (String.eqb_spec (role row) "assistant") as [Ha|Ha];
      [|intros []].
    intros [<-|[]]. auto.
Qed.

Lemma history_entry_length urow row :
  List.length (history_entry urow row) <= 1.
Proof.
  unfold history_entry.
  destruct (String.eqb _ _); [cbn; lia|].
  destruct (_ || _); cbn; lia.
Qed.

Lemma flat_map_length_le {A B} (f : A -> list B) (l : list A) :
  (forall x, List.length (f x) <= 1) ->
  List.length (flat_map f l) <= List.length l.
Proof.
  intros Hf. induction l as [|x l IH]; cbn; [lia|].
  rewrite length_app. specialize (Hf x). lia.
Qed.

Lemma build_context_ok o cid text urow w :
  Db.sqlite_int (context_limit o) = true ->
  build_context o cid text urow w
  = (Ok ([mkChatMessage "system" (system_prompt o)]
           ++ flat_map (history_entry urow)
                       (Db.select_messages (messages w) cid
                                           (Some (context_limit o)) None)
           ++ [mkChatMessage "user" text]), w).
Proof.
  intros H. unfold build_context, bind, attempt, ret, Db.list_messages.
  now rewrite H.
Qed.

(** X12.  When [context_limit] is an integer the store accepts (it fits
    64 bits), the context is the system prompt, then at most
    [context_limit] stored messages of the conversation, each with role
    [user] or [assistant] and none of them the message just stored, then
    the text of the request as a [user] message.  When it is not, reading
    the history raises [OverflowError].  Either way nothing is changed. *)
Theorem build_context_shape llm cl sp cid text urow w :
  if Db.sqlite_int (Z.max 1 cl)
  then
    exists middle,
      build_context (init llm cl sp) cid text urow w
      = (Ok ([mkChatMessage "system" sp] ++ middle
               ++ [mkChatMessage "user" text]), w)
      /\ (Z.of_nat (List.length middle) <= Z.max 1 cl)%Z
      /\ forall c,
          In c middle ->
          exists x, In x (messages w)
                    /\ col_conversation_id x = cid
                    /\ col_message_id x <> message_id urow
                    /\ (col_role x = "user" \/ col_role x = "assistant")
                    /\ c = entry_of x
  else
    build_context (init llm cl sp) cid text urow w
    = (Raised OverflowError, w).
Proof.
  destruct (Db.sqlite_int (Z.max 1 cl)) eqn:Hint.
  - eexists. split; [now apply build_context_ok|].
    cbn [context_limit init]. split.
    + pose proof (flat_map_length_le
                    (history_entry urow)
                    (Db.select_messages (messages w) cid (Some (Z.max 1 cl))
                                        None)
                    (history_entry_length urow)) as H1.
      pose proof (HttpMore.list_messages_length
                    (messages w) cid (Z.max 1 cl) None) as H2.
      lia.
    + intros c Hc. apply in_flat_map in Hc as (m & Hm & Hc).
      apply history_entry_in in Hc as (Hid & Hrole & ->).
      apply DbFacts.list_messages_in in Hm as (x & Hx & Hw & ->).
      unfold where_clause in Hw. apply andb_true_iff in Hw as [Hcid _].
      apply String.eqb_eq in Hcid. exists x. auto.
  - destruct (OrchestratorFacts.build_context_cases
                (init llm cl sp) cid text urow w)
      as [(Hint' & _)|(_ & H)]; [|exact H].
    cbn [context_limit init] in Hint'. congruence.
Qed.

(** ** What a turn writes *)

Lemma or_call_new_id x w :
  exists s w',
    or_call x new_id w = (Ok s, w')
    /\ messages w' = messages w
    /\ (PyStr.truthy x = true -> s = PyStr.or_else x "").
Proof.
  unfold or_call. destruct (PyStr.truthy x).
  - eexists _, _. split; [reflexivity|]. auto.
  - eexists _, _. split; [reflexivity|]. split; [reflexivity|discriminate].
Qed.

Lemma _publish_messages ty tid pl np w :
  exists w', _publish ty tid pl np w = (Ok tt, w')
             /\ messages w' = messages w.
Proof.
  unfold _publish, bind, new_id, utc_now_iso, publish, modify.
  eexists. split; reflexivity.
Qed.

(** Step 1 of [run_turn]: the user message is a row the table held under
    the request key, or the one row appended. *)
Lemma store_user_message_cases cid text att tid umid key w :
  let res := store_user_message cid text att tid umid key w in
  match fst res with
  | Ok (tid', urow) =>
      (PyStr.truthy tid = true -> tid' = PyStr.or_else tid "")
      /\ ((messages (snd res) = messages w
           /\ PyStr.truthy key = true
           /\ exists row,
               find (matches_request cid (PyStr.or_else key "")) (messages w)
               = Some row
               /\ urow = row_to_message row)
          \/ (exists r,
                 messages (snd res) = messages w ++ [r]
                 /\ urow = row_to_message r
                 /\ row_of cid "user" r
                 /\ col_content_text r = text
                 /\ col_client_request_id r = key))
  | Raised e => e = IntegrityError /\ messages (snd res) = messages w
  end.
Proof.
  cbv zeta. unfold store_user_message.
  destruct (or_call_new_id tid w) as (tid' & w1 & H1 & Hm1 & Ht1).
  change new_trace_id with new_id. rewrite (bind_ok _ _ _ H1).
  destruct (or_call_new_id umid w1) as (umid' & w2 & H2 & Hm2 & _).
  rewrite (bind_ok _ _ _ H2).
  assert (Hm : messages w2 = messages w) by congruence.
  destruct (create_message umid' cid "user" text key (Some att) w2)
    as [[urow|e] w3] eqn:Hc.
  - rewrite (bind_ok _ _ _ Hc).
    destruct (_publish_messages
                "message.stored" tid'
                [("conversation_id", cid); ("message_id", message_id urow);
                 ("role", "user")] "none" w3) as (w4 & Hp & Hm4).
    rewrite (bind_ok _ _ _ Hp). cbn [ret fst snd].
    split; [exact Ht1|]. rewrite Hm4.
    rewrite DbFacts.create_message_unfold in Hc.
    assert (Hins : insert_path w2 umid' cid "user" text key (Some att)
                   = (Ok urow, w3) ->
                   exists r,
                     messages w3 = messages w ++ [r]
                     /\ urow = row_to_message r
                     /\ row_of cid "user" r
                     /\ col_content_text r = text
                     /\ col_client_request_id r = key).
    { unfold insert_path. destruct (_ || _); [discriminate|].
      intros [= <- <-]. eexists. cbn [messages set_messages].
      rewrite Hm. split; [reflexivity|]. split; [reflexivity|].
      unfold row_of, new_row. cbn. auto. }
    destruct (PyStr.truthy key) eqn:Hk.
    + rewrite Hm in Hc.
      destruct (find _ (messages w)) as [row|] eqn:Hf.
      * inversion Hc; subst. left. cbn. rewrite Hm. eauto.
      * right. apply Hins. exact Hc.
    + right. apply Hins. exact Hc.
  - rewrite (bind_raised _ _ _ Hc). cbn [fst snd].
    rewrite DbFacts.create_message_unfold in Hc.
    assert (Hins : insert_path w2 umid' cid "user" text key (Some att)
                   = (Raised e, w3) ->
                   e = IntegrityError /\ messages w3 = messages w).
    { unfold insert_path. destruct (_ || _); [|discriminate].
      intros [= <- <-]. cbn. auto. }
    destruct (PyStr.truthy key); [|auto].
    destruct (find _ (messages w2)); [discriminate|auto].
Qed.

(** Step 4: one row with role [assistant] is appended, or the generated
    identifier is taken and [IntegrityError] is raised. *)
Lemma store_assistant_message_cases cid text tid urow out w :
  let res := store_assistant_message cid text tid urow out w in
  match fst res with
  | Ok r =>
      exists a,
        messages (snd res) = messages w ++ [a]
        /\ row_of cid "assistant" a
        /\ col_content_text a = out
        /\ col_client_request_id a = None
        /\ r = mkTurnResult
                 tid urow (Some (row_to_message a)) "completed"
                 (mkUsage (Z.of_nat (List.length (PyStr.split text)))
                          (Z.of_nat (List.length (PyStr.split out))))
                 [] None
  | Raised e => e = IntegrityError /\ messages (snd res) = messages w
  end.
Proof.
  cbv zeta.
  destruct (store_assistant_message cid text tid urow out w)
    as [[r|e] w2] eqn:H; cbn [fst snd];
    unfold store_assistant_message, bind, new_id, _publish, utc_now_iso,
      publish, modify, ret in H;
    rewrite DbFacts.create_message_unfold in H;
    cbn [PyStr.truthy] in H; unfold insert_path in H;
    destruct (_ || _) in H; inversion H; subst; clear H.
  - eexists. cbn [messages set_messages tick set_clock_reads set_ids_drawn
                  set_bus_log].
    split; [reflexivity|].
    rewrite !Z.max_r by lia.
    unfold row_of, new_row. cbn. auto.
  - cbn. auto.
Qed.

(** Steps 3 to 5: what follows the stored user message. *)
Lemma run_llm_streaming_cases o cid text cancel tid urow ctx w :
  let res := run_llm_streaming o cid text cancel tid urow ctx w in
  (fst res = Ok (cancelled_result tid urow)
   /\ messages (snd res) = messages w)
  \/ (exists e, fst res = Ok (error_result tid urow e)
                /\ In (GenError e) (llm o ctx)
                /\ messages (snd res) = messages w)
  \/ (exists out w1,
         res = store_assistant_message cid text tid urow out w1
         /\ messages w1 = messages w).
Proof.
  cbv zeta. destruct (is_set cancel 0) eqn:H0.
  - left. rewrite OrchestratorFacts.run_llm_streaming_precancelled by exact H0.
    split; reflexivity.
  - rewrite OrchestratorFacts.run_llm_streaming_started by exact H0.
    set (w0 := called w checkpoints).
    assert (Hloop : forall stream check parts w0,
               exists exit parts' check' w1,
                 astream_loop cancel check stream parts w0
                 = (Ok (exit, parts', check'), w1)
                 /\ messages w1 = messages w0
                 /\ (forall e, exit = Failed e -> In (GenError e) stream)).
    { clear. induction stream as [|[d|msg] stream IH]; intros check parts w0.
      - eexists _, _, _, _. split; [reflexivity|].
        split; [reflexivity|discriminate].
      - cbn [astream_loop]. destruct (is_set cancel check).
        + eexists _, _, _, _. split; [reflexivity|].
          split; [reflexivity|discriminate].
        + unfold bind at 1. cbn [on_delta modify].
          destruct (IH (S check) (parts ++ [d])
                       (set_callbacks w0 (callbacks w0 ++ [OnDelta d])))
            as (exit & parts' & check' & w1 & H & Hm & Hf).
          eexists _, _, _, _. split; [exact H|]. split; [exact Hm|].
          intros e He. right. auto.
      - eexists _, _, _, _. split; [reflexivity|]. split; [reflexivity|].
        intros e [= <-]. now left. }
    destruct (Hloop (llm o ctx) 1 [] w0)
      as (exit & parts' & check' & w1 & H & Hm & Hf).
    fold w0. rewrite (bind_ok _ _ _ H).
    destruct exit as [| |e].
    + destruct (is_set cancel check').
      * left. split; [reflexivity|exact Hm].
      * right. right. eauto.
    + destruct (is_set cancel check').
      * left. split; [reflexivity|exact Hm].
      * right. right. eauto.
    + right. left. exists e. split; [reflexivity|]. split; [|exact Hm].
      now apply Hf.
Qed.

(** A retried request: the row stored under the key is the user message,
    and nothing is written for it. *)
Lemma store_user_message_hit cid text att tid umid key w row :
  key <> "" ->
  find (matches_request cid key) (messages w) = Some row ->
  exists tid' w1,
    store_user_message cid text att tid umid (Some key) w
    = (Ok (tid', row_to_message row), w1)
    /\ messages w1 = messages w.
Proof.
  intros Hkey Hf. unfold store_user_message.
  destruct (or_call_new_id tid w) as (tid' & w1 & H1 & Hm1 & _).
  change new_trace_id with new_id. rewrite (bind_ok _ _ _ H1).
  destruct (or_call_new_id umid w1) as (umid' & w2 & H2 & Hm2 & _).
  rewrite (bind_ok _ _ _ H2).
  unfold bind at 1. rewrite DbFacts.create_message_unfold.
  assert (Ht : PyStr.truthy (Some key) = true).
  { simpl. destruct (String.eqb_spec key ""); [contradiction|reflexivity]. }
  assert (Ho : PyStr.or_else (Some key) "" = key).
  { simpl. destruct (String.eqb_spec key ""); [contradiction|reflexivity]. }
  rewrite Ht, Ho, Hm2, Hm1, Hf.
  unfold bind at 1.
  destruct (_publish_messages
              "message.stored" tid'
              [("conversation_id", cid);
               ("message_id", message_id (row_to_message row));
               ("role", "user")] "none" (tick w2)) as (w4 & Hp & Hm4).
  rewrite Hp. cbn [ret]. eexists _, _. split; [reflexivity|].
  rewrite Hm4. cbn. congruence.
Qed.

(** X13.  Whatever the arguments, the provider and the state, a call of
    [run_turn] only appends to the table: at most one row with role [user]
    and then at most one with role [assistant], both of the conversation.
    The user message of the result is a stored row, the assistant message
    is the row appended for it.  The exceptions are [IntegrityError], and
    [OverflowError] from reading the history when [context_limit] does not
    fit 64 bits; the user row is then stored all the same. *)
Theorem run_turn_rows o cid text att cancel tid umid key w :
  let res := run_turn o cid text att cancel tid umid key w in
  exists user_rows assistant_rows,
    messages (snd res) = messages w ++ user_rows ++ assistant_rows
    /\ List.length user_rows <= 1
    /\ List.length assistant_rows <= 1
    /\ Forall (row_of cid "user") user_rows
    /\ Forall (row_of cid "assistant") assistant_rows
    /\ match fst res with
       | Ok r =>
           In (user_message r)
              (map row_to_message (messages w ++ user_rows))
           /\ map row_to_message assistant_rows
              = match assistant_message r with
                | Some a => [a]
                | None => []
                end
       | Raised e =>
           e = IntegrityError
           \/ (e = OverflowError
               /\ Db.sqlite_int (context_limit o) = false
               /\ assistant_rows = [])
       end.
Proof.
  cbv zeta.
  pose proof (store_user_message_cases cid text att tid umid key w) as Hs.
  cbv zeta in Hs.
  destruct (store_user_message cid text att tid umid key w)
    as [[[tid' urow]|e] w1] eqn:Hst; cbn [fst snd] in Hs.
  - destruct Hs as (_ & Hs).
    assert (Hu : exists user_rows,
               messages w1 = messages w ++ user_rows
               /\ List.length user_rows <= 1
               /\ Forall (row_of cid "user") user_rows
               /\ In urow (map row_to_message (messages w ++ user_rows))).
    { destruct Hs as [(Hm & _ & row & Hf & ->)|(r & Hm & -> & Hr & _)].
      - exists []. rewrite app_nil_r. split; [exact Hm|].
        split; [cbn; lia|]. split; [constructor|].
        apply in_map. now apply find_some in Hf as [Hin _].
      - exists [r]. split; [exact Hm|]. split; [cbn; lia|].
        split; [constructor; [exact Hr|constructor]|].
        apply in_map, in_or_app. right. now left. }
    destruct Hu as (user_rows & Hm1 & Hl & Hfa & Hin). clear Hs.
    exists user_rows.
    destruct (OrchestratorFacts.build_context_cases o cid text urow w1)
      as [(_ & ctx & Hctx)|(Hint & Hctx)].
    2:{ rewrite (@OrchestratorFacts.run_turn_context_raises
                   o cid text att cancel tid umid key w tid' urow w1
                   OverflowError Hst Hctx).
        exists []. cbn [fst snd]. rewrite Hm1, app_nil_r.
        repeat (split; [first [reflexivity|assumption|cbn; lia|constructor]|]).
        right. auto. }
    rewrite (@OrchestratorFacts.run_turn_from_stored
               o cid text att cancel tid umid key w tid' urow w1 ctx w1
               Hst Hctx).
    destruct (run_llm_streaming_cases o cid text cancel tid' urow ctx w1)
      as [(Hr & Hm)|[(e & Hr & _ & Hm)|(out & w2 & Hr & Hm)]].
    + exists []. rewrite Hr, Hm, Hm1, app_nil_r.
      repeat (split; [first [reflexivity|assumption|cbn; lia|constructor]|]).
      reflexivity.
    + exists []. rewrite Hr, Hm, Hm1, app_nil_r.
      repeat (split; [first [reflexivity|assumption|cbn; lia|constructor]|]).
      reflexivity.
    + cbv zeta in Hr. rewrite Hr.
      pose proof (store_assistant_message_cases cid text tid' urow out w2)
        as Ha. cbv zeta in Ha.
      destruct (store_assistant_message cid text tid' urow out w2)
        as [[r|e] w3]; cbn [fst snd] in Ha |- *.
      * destruct Ha as (a & Hm3 & Hra & _ & _ & ->).
        exists [a]. rewrite Hm3, Hm, Hm1, <- app_assoc.
        split; [reflexivity|]. split; [exact Hl|]. split; [cbn; lia|].
        split; [exact Hfa|]. split; [constructor; [exact Hra|constructor]|].
        cbn. auto.
      * destruct Ha as (-> & Hm3).
        exists []. rewrite Hm3, Hm, Hm1, app_nil_r.
        repeat (split; [first [reflexivity|assumption|cbn; lia|constructor]|]).
        now left.
  - rewrite (@OrchestratorFacts.run_turn_store_raises
               o cid text att cancel tid umid key w e w1 Hst).
    destruct Hs as (-> & Hm). exists [], []. cbn [fst snd app].
    rewrite app_nil_r.
    repeat (split; [first [reflexivity|assumption|cbn; lia|constructor]|]).
    now left.
Qed.

(** ** The result of a turn *)

(** X14.  A result has one of three shapes.  Completed: an assistant message of
    the conversation, no error, no warning, and usage counting the
    whitespace-delimited words of the request and of the stored answer.
    Cancelled: no assistant message, no error, zero usage.  Error: no
    assistant message, zero usage, error code [UNAVAILABLE] and the warning
    that the provider is down.  A trace identifier given by the caller is
    the one of the result. *)
Theorem run_turn_result_kinds o cid text att cancel tid umid key w r w' :
  run_turn o cid text att cancel tid umid key w = (Ok r, w') ->
  (PyStr.truthy tid = true -> trace_id r = PyStr.or_else tid "")
  /\ ((exists a,
         r = mkTurnResult
               (trace_id r) (user_message r) (Some a) "completed"
               (mkUsage (Z.of_nat (List.length (PyStr.split text)))
                        (Z.of_nat (List.length
                                     (PyStr.split (content_text a)))))
               [] None
         /\ role a = "assistant" /\ conversation_id a = cid)
      \/ r = cancelled_result (trace_id r) (user_message r)
      \/ exists e, r = error_result (trace_id r) (user_message r) e).
Proof.
  intros H.
  pose proof (store_user_message_cases cid text att tid umid key w) as Hs.
  cbv zeta in Hs.
  destruct (store_user_message cid text att tid umid key w)
    as [[[tid' urow]|e] w1] eqn:Hst; cbn [fst snd] in Hs.
  - destruct Hs as (Htid & _).
    destruct (OrchestratorFacts.build_context_cases o cid text urow w1)
      as [(_ & ctx & Hctx)|(_ & Hctx)].
    2:{ rewrite (@OrchestratorFacts.run_turn_context_raises
                   o cid text att cancel tid umid key w tid' urow w1
                   OverflowError Hst Hctx) in H.
        discriminate. }
    rewrite (@OrchestratorFacts.run_turn_from_stored
               o cid text att cancel tid umid key w tid' urow w1 ctx w1
               Hst Hctx) in H.
    destruct (run_llm_streaming_cases o cid text cancel tid' urow ctx w1)
      as [(Hr & _)|[(e & Hr & _)|(out & w2 & Hr & _)]].
    + rewrite H in Hr. cbn in Hr. inversion Hr; subst.
      split; [exact Htid|]. right. left. reflexivity.
    + rewrite H in Hr. cbn in Hr. inversion Hr; subst.
      split; [exact Htid|]. right. right. exists e. reflexivity.
    + cbv zeta in Hr. rewrite H in Hr.
      pose proof (store_assistant_message_cases cid text tid' urow out w2)
        as Ha. cbv zeta in Ha. rewrite <- Hr in Ha. cbn [fst snd] in Ha.
      destruct Ha as (a & _ & [Hc Hro] & Hout & _ & ->).
      split; [exact Htid|]. left. exists (row_to_message a).
      cbn. rewrite Hout. auto.
  - rewrite (@OrchestratorFacts.run_turn_store_raises
               o cid text att cancel tid umid key w e w1 Hst) in H.
    discriminate.
Qed.

Lemma run_turn_result_kinds_witness :
  exists r w',
    run_turn Examples.echo "c1" "hello there" [] None (Some "t1") None None
             Examples.empty_world = (Ok r, w')
    /\ trace_id r = "t1"
    /\ reason r = "completed"
    /\ usage r = mkUsage 2 2.
Proof.
  eexists _, _. split; [cbv; reflexivity|].
  split; [|split; reflexivity].
  refine (proj1 (run_turn_result_kinds
                   Examples.echo "c1" "hello there" [] None (Some "t1") None
                   None Examples.empty_world _ _ _) eq_refl).
  vm_compute. reflexivity.
Defined.

(** ** A retried turn *)

(** X15.  When the table already holds a row of the conversation under the
    request key, that row is the user message of the result, whatever text
    the retry carries, and no user row is written.  Generation runs again
    all the same: a retry that completes appends one more assistant row.
    A retry that raises writes nothing; it raises [IntegrityError], or
    [OverflowError] when [context_limit] does not fit 64 bits. *)
Theorem run_turn_retry o cid text att cancel tid umid key w row :
  key <> "" ->
  find (matches_request cid key) (messages w) = Some row ->
  let res := run_turn o cid text att cancel tid umid (Some key) w in
  match fst res with
  | Ok r =>
      user_message r = row_to_message row
      /\ match assistant_message r with
         | Some a =>
             exists x, messages (snd res) = messages w ++ [x]
                       /\ a = row_to_message x
                       /\ row_of cid "assistant" x
         | None => messages (snd res) = messages w
         end
  | Raised e =>
      (e = IntegrityError
       \/ (e = OverflowError /\ Db.sqlite_int (context_limit o) = false))
      /\ messages (snd res) = messages w
  end.
Proof.
  intros Hkey Hf. cbv zeta.
  destruct (store_user_message_hit cid text att tid umid key w row Hkey Hf)
    as (tid' & w1 & Hst & Hm1).
  destruct (OrchestratorFacts.build_context_cases
              o cid text (row_to_message row) w1)
    as [(_ & ctx & Hctx)|(Hint & Hctx)].
  2:{ rewrite (@OrchestratorFacts.run_turn_context_raises
                 o cid text att cancel tid umid (Some key) w tid'
                 (row_to_message row) w1 OverflowError Hst Hctx).
      cbn [fst snd]. auto. }
  rewrite (@OrchestratorFacts.run_turn_from_stored
             o cid text att cancel tid umid (Some key) w tid'
             (row_to_message row) w1 ctx w1 Hst Hctx).
  destruct (run_llm_streaming_cases
              o cid text cancel tid' (row_to_message row) ctx w1)
    as [(Hr & Hm)|[(e & Hr & _ & Hm)|(out & w2 & Hr & Hm)]].
  - rewrite Hr, Hm. cbn. auto.
  - rewrite Hr, Hm. cbn. auto.
  - cbv zeta in Hr. rewrite Hr.
    pose proof (store_assistant_message_cases
                  cid text tid' (row_to_message row) out w2) as Ha.
    cbv zeta in Ha.
    destruct (store_assistant_message cid text tid' (row_to_message row)
                                      out w2)
      as [[r|e] w3]; cbn [fst snd] in Ha |- *.
    + destruct Ha as (a & Hm3 & Hra & _ & _ & ->). cbn.
      split; [reflexivity|]. exists a. rewrite Hm3, Hm, Hm1. auto.
    + destruct Ha as (-> & Hm3). rewrite Hm3, Hm, Hm1. auto.
Qed.

Lemma run_turn_retry_witness :
  let first := run_turn Examples.echo "c1" "hello" [] None None None
                        (Some "k") Examples.empty_world in
  let retry := run_turn Examples.echo "c1" "hello again" [] None None None
                        (Some "k") (snd first) in
  "k" <> ""
  /\ map col_content_text (messages (snd retry))
     = ["hello"; "Echo: hello"; "Echo: hello"]
  /\ match fst retry with
     | Ok r => content_text (user_message r) = "hello"
     | Raised _ => False
     end.
Proof.
  cbv zeta.
  assert (Hk : "k" <> "") by discriminate.
  split; [exact Hk|]. split; [vm_compute; reflexivity|].
  set (w1 := snd (run_turn Examples.echo "c1" "hello" [] None None None
                           (Some "k") Examples.empty_world)).
  assert (Hf : find (matches_request "c1" "k") (messages w1)
               = Some (mkRow (Examples.ids 1) "c1" "user" "hello"
                             (Examples.clock 0) (Some "k") (JsonList [])))
    by (vm_compute; reflexivity).
  pose proof (run_turn_retry
                Examples.echo "c1" "hello again" [] None None None "k"
                w1 _ Hk Hf) as H.
  cbv zeta in H.
  assert (Hr : exists r,
             fst (run_turn Examples.echo "c1" "hello again" [] None None None
                           (Some "k") w1) = Ok r)
    by (vm_compute; eexists; reflexivity).
  destruct Hr as (r & Hr). rewrite Hr in H |- *.
  destruct H as [-> _]. reflexivity.
Defined.

(** ** Streams that never raise *)

(** When the provider yields the fragments [ds] and ends, the check that
    follows the last fragment decides: found set, the turn is cancelled;
    otherwise every fragment was delivered and the joined text is stored. *)
Lemma run_llm_streaming_fragments o cid text cancel tid urow ctx w ds :
  llm o ctx = map Fragment ds ->
  if is_set cancel (S (List.length ds))
  then fst (run_llm_streaming o cid text cancel tid urow ctx w)
       = Ok (cancelled_result tid urow)
  else run_llm_streaming o cid text cancel tid urow ctx w
       = store_assistant_message
           cid text tid urow (PyStr.join ds)
           (called w (checkpoints ++ map OnDelta ds)).
Proof.
  intros Hllm. destruct (is_set cancel (S (List.length ds))) eqn:Hend.
  - destruct (is_set cancel 0) eqn:H0.
    + now rewrite OrchestratorFacts.run_llm_streaming_precancelled.
    + rewrite OrchestratorFacts.run_llm_streaming_started by exact H0.
      destruct cancel as [c|]; [|discriminate].
      assert (Hc : 1 <= c).
      { destruct c; [discriminate H0|lia]. }
      assert (Hc' : c <= S (List.length ds)) by now apply Nat.leb_le.
      destruct (@OrchestratorFacts.astream_loop_cancelled
                  c (llm o ctx) (called w checkpoints) Hc)
        as (exit & parts & check & Hloop & Hexit & Hset).
      { rewrite Hllm. split.
        - apply Forall_forall. intros e He.
          apply DbFacts.in_firstn in He.
          apply in_map_iff in He as (d & <- & _). reflexivity.
        - now rewrite length_map. }
      rewrite (bind_ok _ _ _ Hloop).
      destruct Hexit as [-> | ->]; now rewrite Hset.
  - assert (H0 : is_set cancel 0 = false)
      by (eapply OrchestratorFacts.is_set_earlier; [|exact Hend]; lia).
    rewrite OrchestratorFacts.run_llm_streaming_started by exact H0.
    rewrite Hllm. unfold bind at 1.
    rewrite <- (app_nil_r (map Fragment ds)).
    rewrite OrchestratorFacts.astream_loop_fragments
      by (intros k Hk; eapply OrchestratorFacts.is_set_earlier;
          [|exact Hend]; lia).
    cbn [astream_loop ret Nat.add app]. rewrite Hend.
    unfold called. cbn [callbacks set_callbacks].
    rewrite <- app_assoc. reflexivity.
Qed.

(** ** The mock provider *)

Lemma prompt_last_user pre text :
  MockLlm.prompt (pre ++ [mkChatMessage "user" text]) = text.
Proof. unfold MockLlm.prompt. rewrite rev_app_distr. reflexivity. Qed.

Lemma join_chars s : PyStr.join (chars s) = s.
Proof. induction s as [|c s IH]; cbn; [reflexivity|]. now f_equal. Qed.

Lemma chars_length s : List.length (chars s) = String.length s.
Proof. induction s as [|c s IH]; cbn; [reflexivity|]. now f_equal. Qed.

(** The generator yields the characters of the text one by one until one
    of its polls finds the event set. *)
Lemma chars_loop_prefix cancel s :
  forall poll,
  exists n,
    MockLlm.chars_loop cancel poll s = map Fragment (firstn n (chars s))
    /\ (n = String.length s
        \/ (n < String.length s /\ is_set cancel (poll + n) = true)).
Proof.
  induction s as [|c s IH]; intros poll.
  - exists 0. split; [reflexivity|]. now left.
  - cbn [MockLlm.chars_loop]. destruct (is_set cancel poll) eqn:Hp.
    + exists 0. split; [reflexivity|]. right. cbn. rewrite Nat.add_0_r.
      split; [lia|exact Hp].
    + destruct (IH (S poll)) as (n & Hn & Hcase). exists (S n).
      cbn. rewrite Hn. split; [reflexivity|].
      destruct Hcase as [->|[Hlt Hset]]; [now left|right].
      rewrite Nat.add_succ_r. split; [lia|exact Hset].
Qed.

(** X16.  With the mock provider a turn never ends with reason [error] and never
    stores a truncated answer.  It is completed, every character of
    ["Echo: <text> "] followed by 200 dots having been delivered as one delta
    and the whole text being the assistant message, whatever the history of
    the conversation; or it is cancelled, which needs the event to be
    set. *)
Theorem mock_turn_outcomes
        generator cancel cl sp cid text att tid umid key w r w' :
  polls_precede_checks generator cancel ->
  run_turn (init (MockLlm.astream generator) cl sp) cid text att cancel
           tid umid key w = (Ok r, w') ->
  let answer := ("Echo: " ++ text ++ " " ++ MockLlm.dots 200)%string in
  (reason r = "completed"
   /\ option_map content_text (assistant_message r) = Some answer
   /\ callbacks w' = callbacks w ++ checkpoints ++ map OnDelta (chars answer))
  \/ (reason r = "cancelled" /\ assistant_message r = None
      /\ cancel <> None).
Proof.
  intros Hpoll H answer.
  set (o := init (MockLlm.astream generator) cl sp) in *.
  destruct (store_user_message cid text att tid umid key w)
    as [[[tid' urow]|e] w1] eqn:Hst.
  2:{ rewrite (@OrchestratorFacts.run_turn_store_raises
                 o cid text att cancel tid umid key w e w1 Hst) in H.
      discriminate. }
  assert (Hcb : callbacks w1 = callbacks w).
  { pose proof (OrchestratorFacts.store_user_message_keeps_callbacks
                  cid text att tid umid key w) as Hk.
    now rewrite Hst in Hk. }
  set (middle := flat_map (history_entry urow)
                          (Db.select_messages (messages w1) cid
                                            (Some (context_limit o)) None)).
  set (ctx := [mkChatMessage "system" (system_prompt o)] ++ middle
                ++ [mkChatMessage "user" text]).
  destruct (OrchestratorFacts.build_context_cases o cid text urow w1)
    as [(Hint & _)|(_ & Hraise)].
  2:{ rewrite (@OrchestratorFacts.run_turn_context_raises
                 o cid text att cancel tid umid key w tid' urow w1
                 OverflowError Hst Hraise) in H.
      discriminate. }
  assert (Hctx : build_context o cid text urow w1 = (Ok ctx, w1))
    by (now apply build_context_ok).
  rewrite (@OrchestratorFacts.run_turn_from_stored
             o cid text att cancel tid umid key w tid' urow w1 ctx w1
             Hst Hctx) in H.
  assert (Htext : MockLlm.text ctx = answer).
  { unfold MockLlm.text, ctx. rewrite app_assoc, prompt_last_user.
    reflexivity. }
  destruct (chars_loop_prefix generator answer 1) as (n & Hn & Hcase).
  assert (Hllm : llm o ctx = map Fragment (firstn n (chars answer))).
  { cbn [llm o init]. unfold MockLlm.astream. now rewrite Htext. }
  pose proof (run_llm_streaming_fragments
                o cid text cancel tid' urow ctx w1
                (firstn n (chars answer)) Hllm) as Hrun.
  assert (Hlen : List.length (firstn n (chars answer)) = n).
  { rewrite length_firstn, chars_length. destruct Hcase; lia. }
  rewrite Hlen in Hrun.
  destruct (is_set cancel (S n)) eqn:Hend.
  - right. rewrite H in Hrun. cbn [fst] in Hrun. inversion Hrun; subst.
    split; [reflexivity|]. split; [reflexivity|].
    intros ->. discriminate Hend.
  - left. destruct Hcase as [->|[_ Hset]].
    2:{ apply Hpoll in Hset. cbn [Nat.add] in Hset. congruence. }
    rewrite <- chars_length, firstn_all in Hrun.
    rewrite join_chars in Hrun.
    pose proof (store_assistant_message_cases
                  cid text tid' urow answer
                  (called w1 (checkpoints ++ map OnDelta (chars answer))))
      as Ha.
    cbv zeta in Ha. rewrite <- Hrun, H in Ha. cbn [fst snd] in Ha.
    destruct Ha as (a & _ & _ & Hout & _ & ->). cbn.
    split; [reflexivity|]. split; [now rewrite Hout|].
    pose proof (OrchestratorFacts.store_assistant_message_keeps_callbacks
                  cid text tid' urow answer
                  (called w1 (checkpoints ++ map OnDelta (chars answer))))
      as Hk.
    rewrite <- Hrun, H in Hk. cbn [snd] in Hk. rewrite Hk.
    unfold called. cbn [callbacks set_callbacks]. now rewrite Hcb.
Qed.

Lemma mock_turn_outcomes_witness :
  exists r w',
    polls_precede_checks None None
    /\ run_turn (init (MockLlm.astream None) 30 "You are a helpful assistant.")
                "c1" "hi" [] None None None None Examples.empty_world
       = (Ok r, w')
    /\ reason r = "completed"
    /\ List.length (callbacks w') = 212.
Proof.
  assert (Hp : polls_precede_checks None None) by (intros k Hk; exact Hk).
  assert (Hrun : exists r w',
             run_turn (init (MockLlm.astream None) 30
                            "You are a helpful assistant.")
                      "c1" "hi" [] None None None None Examples.empty_world
             = (Ok r, w'))
    by (vm_compute; eexists _, _; reflexivity).
  destruct Hrun as (r & w' & Hrun). exists r, w'.
  split; [exact Hp|]. split; [exact Hrun|].
  destruct (mock_turn_outcomes
              None None 30 "You are a helpful assistant." "c1" "hi" [] None
              None None Examples.empty_world r w' Hp Hrun)
    as [(Hr & _ & Hcb)|(_ & _ & Hc)]; [|now contradiction Hc].
  split; [exact Hr|]. rewrite Hcb. reflexivity.
Defined.

End OrchestratorMore.


(* ===================================================================== *)
(** * Facts about the methods of [str] *)
(* ===================================================================== *)

Module PyTextFacts.

Import PyText PyTextSpec.

Lemma lstrip_blank_app ws s : blank ws = true -> lstrip (ws ++ s) = lstrip s.
Proof.
  induction ws as [|c ws IH]; cbn; [reflexivity|].
  intros H. apply andb_true_iff in H as [Hc Hws]. rewrite Hc. auto.
Qed.

Lemma rstrip_blank ws : blank ws = true -> rstrip ws = "".
Proof.
  induction ws as [|c ws IH]; cbn; [reflexivity|].
  intros H. apply andb_true_iff in H as [Hc Hws].
  now rewrite (IH Hws), Hc.
Qed.

Lemma rstrip_app_blank s ws : blank ws = true -> rstrip (s ++ ws) = rstrip s.
Proof.
  intros H. induction s as [|c s IH]; cbn.
  - now apply rstrip_blank.
  - now rewrite IH.
Qed.

Lemma length_lstrip s : String.length (lstrip s) <= String.length s.
Proof.
  induction s as [|c s IH]; cbn; [lia|].
  destruct (PyStr.isspace c); cbn; lia.
Qed.

Lemma length_rstrip s : String.length (rstrip s) <= String.length s.
Proof.
  induction s as [|c s IH]; cbn; [lia|].
  destruct (rstrip s); [destruct (PyStr.isspace c)|]; cbn in *; lia.
Qed.

(** A text that [lstrip] leaves alone starts with no whitespace. *)
Lemma lstrip_fixed_head c s :
  lstrip (String c s) = String c s -> PyStr.isspace c = false.
Proof.
  cbn. destruct (PyStr.isspace c); [|reflexivity].
  intros H. pose proof (length_lstrip s) as Hl. rewrite H in Hl.
  cbn in Hl. lia.
Qed.

Lemma trimmed_parts s : trimmed s -> lstrip s = s /\ rstrip s = s.
Proof.
  unfold trimmed, strip. intros H.
  assert (Hl : lstrip s = s).
  { destruct s as [|c s]; [reflexivity|].
    cbn. destruct (PyStr.isspace c) eqn:Hc; [|reflexivity].
    exfalso. cbn in H. rewrite Hc in H.
    pose proof (length_rstrip (lstrip s)) as H1.
    pose proof (length_lstrip s) as H2. rewrite H in H1. cbn in H1. lia. }
  split; [exact Hl|]. now rewrite Hl in H.
Qed.

Lemma rstrip_app_fixed s t :
  rstrip t = t -> t <> "" -> rstrip (s ++ t) = (s ++ t)%string.
Proof.
  intros Ht Hne. induction s as [|c s IH]; cbn; [exact Ht|].
  rewrite IH. destruct (s ++ t)%string eqn:E; [|reflexivity].
  destruct s; cbn in E; [contradiction|discriminate].
Qed.

(** Whitespace around a trimmed text is what [strip] removes. *)
Lemma strip_padded a t b :
  trimmed t -> t <> "" -> blank a = true -> blank b = true ->
  strip (a ++ t ++ b) = t.
Proof.
  intros Ht Hne Ha Hb. apply trimmed_parts in Ht as [Hl Hr].
  unfold strip. rewrite lstrip_blank_app by exact Ha.
  destruct t as [|c t]; [contradiction|].
  pose proof (lstrip_fixed_head _ _ Hl) as Hc.
  cbn [append lstrip]. rewrite Hc.
  change (String c (t ++ b)) with (String c t ++ b)%string.
  rewrite rstrip_app_blank by exact Hb. exact Hr.
Qed.

Lemma rstrip_idem s : rstrip (rstrip s) = rstrip s.
Proof.
  induction s as [|c s IH]; cbn; [reflexivity|].
  destruct (rstrip s) as [|d r] eqn:E.
  - destruct (PyStr.isspace c) eqn:Hc; cbn; [reflexivity|now rewrite Hc].
  - cbn [rstrip] in IH |- *. now rewrite IH.
Qed.

Lemma rstrip_head c s :
  PyStr.isspace c = false -> exists r, rstrip (String c s) = String c r.
Proof.
  intros Hc. cbn. destruct (rstrip s); [rewrite Hc|]; eauto.
Qed.

(** [strip] leaves nothing for a second [strip]. *)
Lemma strip_trimmed s : trimmed (strip s).
Proof.
  unfold trimmed, strip.
  assert (Hl : lstrip (rstrip (lstrip s)) = rstrip (lstrip s)).
  { assert (Hhead : lstrip s = ""
                    \/ exists c r, lstrip s = String c r
                                   /\ PyStr.isspace c = false).
    { induction s as [|c s IH]; cbn; [now left|].
      destruct (PyStr.isspace c) eqn:Hc; [exact IH|right; eauto]. }
    destruct Hhead as [->|(c & r & -> & Hc)]; [reflexivity|].
    destruct (rstrip_head c r Hc) as (r' & ->). cbn. now rewrite Hc. }
  rewrite Hl. apply rstrip_idem.
Qed.

Lemma lower_app s t : lower (s ++ t) = (lower s ++ lower t)%string.
Proof. induction s as [|c s IH]; cbn; [reflexivity|]. now rewrite IH. Qed.

(** Only the space is lowered to the space. *)
Lemma lower_char_space c :
  Ascii.eqb (lower_char c) " " = Ascii.eqb c " ".
Proof.
  destruct c as [[] [] [] [] [] [] [] []]; vm_compute; reflexivity.
Qed.

Lemma occurs_lower s : occurs " " (lower s) = occurs " " s.
Proof.
  induction s as [|c s IH]; cbn; [reflexivity|].
  now rewrite lower_char_space, IH.
Qed.

Lemma split_once_first sep s rest :
  occurs sep s = false ->
  split_once sep (s ++ String sep rest) = Some (s, rest).
Proof.
  induction s as [|c s IH]; cbn.
  - now rewrite Ascii.eqb_refl.
  - intros H. apply orb_false_iff in H as [Hc Hs].
    now rewrite Hc, (IH Hs).
Qed.

Lemma startswith_app p s : startswith (p ++ s) p = true.
Proof.
  induction p as [|c p IH]; cbn; [reflexivity|].
  now rewrite Ascii.eqb_refl, IH.
Qed.

End PyTextFacts.


(* ===================================================================== *)
(** * Facts about common/auth.py *)
(* ===================================================================== *)

Module AuthFacts.

Import PyText PyTextSpec PyTextFacts Auth AuthSpec.

(** A header that passes the test on its first seven characters has its
    first space right after the scheme. *)
Lemma startswith_bearer a :
  startswith (lower a) "bearer " = true ->
  exists scheme rest,
    a = (scheme ++ " " ++ rest)%string
    /\ lower scheme = "bearer"
    /\ split_once " " a = Some (scheme, rest).
Proof.
  intros H.
  destruct a as [|c1 a]; [discriminate|].
  destruct a as [|c2 a]; [cbn in H; now rewrite andb_false_r in H|].
  destruct a as [|c3 a]; [cbn in H; now rewrite !andb_false_r in H|].
  destruct a as [|c4 a]; [cbn in H; now rewrite !andb_false_r in H|].
  destruct a as [|c5 a]; [cbn in H; now rewrite !andb_false_r in H|].
  destruct a as [|c6 a]; [cbn in H; now rewrite !andb_false_r in H|].
  destruct a as [|c7 a]; [cbn in H; now rewrite !andb_false_r in H|].
  cbn in H.
  apply andb_true_iff in H as [H1 H]. apply andb_true_iff in H as [H2 H].
  apply andb_true_iff in H as [H3 H]. apply andb_true_iff in H as [H4 H].
  apply andb_true_iff in H as [H5 H]. apply andb_true_iff in H as [H6 H].
  apply andb_true_iff in H as [H7 _].
  rewrite lower_char_space in H7.
  apply Ascii.eqb_eq in H1, H2, H3, H4, H5, H6, H7. subst c7.
  set (scheme := String c1 (String c2 (String c3 (String c4 (String c5
                   (String c6 "")))))).
  assert (Hlow : lower scheme = "bearer").
  { unfold scheme. cbn. now rewrite H1, H2, H3, H4, H5, H6. }
  exists scheme, a. split; [reflexivity|]. split; [exact Hlow|].
  change (String c1 (String c2 (String c3 (String c4 (String c5
            (String c6 (String " " a)))))))
    with (scheme ++ String " " a)%string.
  apply split_once_first. rewrite <- occurs_lower, Hlow. reflexivity.
Qed.

Lemma bearer_startswith scheme rest :
  lower scheme = "bearer" ->
  startswith (lower (scheme ++ " " ++ rest)) "bearer " = true
  /\ split_once " " (scheme ++ " " ++ rest) = Some (scheme, rest).
Proof.
  intros Hlow. split.
  - rewrite lower_app, Hlow. reflexivity.
  - apply split_once_first. rewrite <- occurs_lower, Hlow. reflexivity.
Qed.

Lemma check_ws_bearer_accepts env_token authorization :
  accepts env_token authorization ->
  check_ws_bearer env_token authorization = Ok tt.
Proof.
  intros (Htok & scheme & rest & -> & Hlow & Hrest).
  unfold check_ws_bearer, _get_token. fold (token_of env_token).
  apply String.eqb_neq in Htok. rewrite Htok.
  destruct (bearer_startswith scheme rest Hlow) as [Hs Hsp].
  assert (Hne : (scheme ++ " " ++ rest)%string <> "").
  { destruct scheme; discriminate. }
  pose proof (proj2 (String.eqb_neq _ _) Hne) as Hb.
  assert (Ht : PyStr.truthy (Some (scheme ++ " " ++ rest)%string) = true).
  { unfold PyStr.truthy. now rewrite Hb. }
  assert (Ho : PyStr.or_else (Some (scheme ++ " " ++ rest)%string) ""
               = (scheme ++ " " ++ rest)%string).
  { unfold PyStr.or_else. now rewrite Hb. }
  rewrite Ht, Ho, Hs, Hsp. cbn [negb orb].
  now rewrite Hrest, String.eqb_refl.
Qed.

Lemma check_ws_bearer_result env_token authorization :
  match check_ws_bearer env_token authorization with
  | Ok _ => accepts env_token authorization
  | Raised e => exists msg, e = ApiError "UNAUTHORIZED" msg
  end.
Proof.
  unfold check_ws_bearer, _get_token. fold (token_of env_token).
  destruct (String.eqb_spec (token_of env_token) "") as [|Htok]; [eauto|].
  destruct (PyStr.truthy authorization) eqn:Ht; cbn [negb orb]; [|eauto].
  destruct (@WsFacts.truthy_inv authorization Ht) as (a & -> & Hne).
  assert (Ho : PyStr.or_else (Some a) "" = a).
  { unfold PyStr.or_else. apply String.eqb_neq in Hne. now rewrite Hne. }
  rewrite Ho.
  destruct (startswith (lower a) "bearer ") eqn:Hs; cbn [negb]; [|eauto].
  destruct (startswith_bearer a Hs) as (scheme & rest & -> & Hlow & Hsp).
  rewrite Hsp.
  destruct (String.eqb_spec (strip rest) (token_of env_token)) as [E|];
    cbn [negb]; [|eauto].
  split; [exact Htok|]. exists scheme, rest. auto.
Qed.

(** X17.  The two checks return when a token is configured and the header
    carries it, and raise [ApiError] with code [UNAUTHORIZED] in every
    other case: with no token configured nothing is accepted, and
    [split(" ", 1)[1]] never fails. *)
Theorem bearer_check_outcomes env_token authorization :
  match check_ws_bearer env_token authorization with
  | Ok _ => accepts env_token authorization
  | Raised e =>
      ~ accepts env_token authorization
      /\ exists msg, e = ApiError "UNAUTHORIZED" msg
  end
  /\ require_bearer env_token authorization
     = check_ws_bearer env_token authorization.
Proof.
  split; [|reflexivity].
  pose proof (check_ws_bearer_result env_token authorization) as H.
  destruct (check_ws_bearer env_token authorization) as [[]|e] eqn:E;
    [exact H|].
  split; [|exact H]. intros Ha.
  rewrite (check_ws_bearer_accepts _ _ Ha) in E. discriminate.
Qed.

(** X18.  [ws_chat] accepts the connection exactly when the header is
    accepted, and closes it with code 4401 before accepting in every other
    case; no exception leaves the handler. *)
Theorem ws_chat_open_outcomes env_token authorization w cid :
  match ws_chat_open env_token authorization w cid with
  | Accepted s => accepts env_token authorization /\ s = Ws.accept w cid
  | Closed code reason =>
      ~ accepts env_token authorization
      /\ code = 4401%Z /\ reason = "UNAUTHORIZED"
  | Escaped _ => False
  end.
Proof.
  unfold ws_chat_open.
  pose proof (check_ws_bearer_result env_token authorization) as H.
  destruct (check_ws_bearer env_token authorization) as [[]|e] eqn:E.
  - auto.
  - destruct H as (msg & ->). split; [|auto]. intros Ha.
    rewrite (check_ws_bearer_accepts _ _ Ha) in E. discriminate.
Qed.

(** X19.  A client that sends the configured token is let in: the scheme may be
    written in any mix of cases, and whitespace around the token, in the
    header or in the environment, does not matter. *)
Theorem bearer_token_accepted token scheme pad1 pad2 pad3 pad4 :
  trimmed token -> token <> "" ->
  lower scheme = "bearer" ->
  blank pad1 = true -> blank pad2 = true ->
  blank pad3 = true -> blank pad4 = true ->
  check_ws_bearer (Some (pad1 ++ token ++ pad2)%string)
                  (Some (scheme ++ " " ++ pad3 ++ token ++ pad4)%string)
  = Ok tt.
Proof.
  intros Ht Hne Hlow H1 H2 H3 H4. apply check_ws_bearer_accepts.
  unfold accepts, token_of. rewrite (strip_padded _ _ _ Ht Hne H1 H2).
  split; [exact Hne|]. exists scheme, (pad3 ++ token ++ pad4)%string.
  split; [reflexivity|]. split; [exact Hlow|].
  exact (strip_padded _ _ _ Ht Hne H3 H4).
Qed.

Lemma bearer_token_accepted_witness :
  check_ws_bearer (Some " s3cret ") (Some "BeArEr  s3cret") = Ok tt.
Proof.
  refine (bearer_token_accepted "s3cret" "BeArEr" " " " " " " "" _ _ _ _ _ _ _);
    first [reflexivity | discriminate].
Defined.

End AuthFacts.


(* ===================================================================== *)
(** * Facts about modules/llm_remote.py *)
(* ===================================================================== *)

Module LlmRemoteFacts.

Import PyText PyTextSpec PyTextFacts LlmRemote.

(** X20.  Every payload is the text that follows [data:] on one of the lines,
    without the whitespace around it, and is not empty. *)
Theorem sse_payloads_sound lines p :
  In p (_iter_sse_payloads lines) ->
  p <> "" /\ trimmed p
  /\ exists line, In line lines /\ startswith line "data:" = true
                  /\ p = strip (drop 5 line).
Proof.
  unfold _iter_sse_payloads. rewrite in_flat_map.
  intros (line & Hin & Hp).
  destruct (String.eqb line ""); [contradiction|].
  destruct (startswith line "data:") eqn:Hs; [|contradiction].
  cbv zeta in Hp.
  destruct (String.eqb_spec (strip (drop 5 line)) "") as [|Hne];
    [contradiction|].
  destruct Hp as [<-|[]]. split; [exact Hne|].
  split; [apply strip_trimmed|]. exists line. auto.
Qed.

Lemma sse_payloads_sound_witness :
  In "[DONE]" (_iter_sse_payloads [""; "data:  [DONE] "; ": keepalive"])
  /\ trimmed "[DONE]".
Proof.
  assert (H : In "[DONE]"
                 (_iter_sse_payloads [""; "data:  [DONE] "; ": keepalive"]))
    by (vm_compute; now left).
  split; [exact H|].
  exact (proj1 (proj2 (sse_payloads_sound _ _ H))).
Defined.

(** X21.  Events written as [data: <payload>] and separated by blank lines are
    read back as the payloads, in order. *)
Theorem sse_payloads_round_trip payloads :
  Forall (fun p => trimmed p /\ p <> "") payloads ->
  _iter_sse_payloads
    (flat_map (fun p => [("data: " ++ p)%string; ""]) payloads)
  = payloads.
Proof.
  induction 1 as [|p ps [Ht Hne] _ IH]; [reflexivity|].
  cbn [flat_map app]. unfold _iter_sse_payloads in *. cbn [flat_map].
  rewrite IH. cbn.
  change (PyStr.isspace " ") with true. cbv iota.
  fold (strip p). rewrite Ht.
  apply String.eqb_neq in Hne. now rewrite Hne.
Qed.

Lemma sse_payloads_round_trip_witness :
  _iter_sse_payloads ["data: {}"; ""; "data: [DONE]"; ""] = ["{}"; "[DONE]"].
Proof.
  apply (sse_payloads_round_trip ["{}"; "[DONE]"]).
  repeat constructor; discriminate.
Defined.

End LlmRemoteFacts.


(* ===================================================================== *)
(** * Facts about common/dotenv.py *)
(* ===================================================================== *)

Module DotenvFacts.

Import PyText PyTextSpec PyTextFacts Dotenv.

Lemma setenv_other key value env k :
  k <> key -> setenv key value env k = env k.
Proof.
  intros H. unfold setenv. apply String.eqb_neq in H. now rewrite H.
Qed.

(** A line leaves the environment alone, by [continue] or by raising, or
    sets one allowed variable. *)
Lemma load_line_cases override ak ap raw env :
  load_line override ak ap raw env = (Ok tt, env)
  \/ load_line override ak ap raw env = (Raised ValueError, env)
  \/ exists key value,
      key <> ""
      /\ _is_allowed_key key ak ap = true
      /\ (override = false -> env key = None)
      /\ load_line override ak ap raw env = (Ok tt, setenv key value env).
Proof.
  unfold load_line, ret.
  destruct (_ || _); [now left|].
  destruct (split_once "=" _) as [[key value]|]; [|now left].
  destruct (String.eqb_spec (strip key) "") as [|Hne]; [now left|].
  destruct (_is_allowed_key (strip key) ak ap) eqn:Ha; cbn [negb];
    [|now left].
  destruct (negb override && _) eqn:Ho; [now left|].
  unfold environ_setitem. destruct (_ || _); [right; now left|].
  right. right. eexists _, _. split; [exact Hne|]. split; [exact Ha|].
  split; [|reflexivity].
  intros ->. cbn in Ho. now destruct (env (strip key)).
Qed.

Lemma option_string_dec (x y : option string) : {x = y} + {x <> y}.
Proof. decide equality. apply string_dec. Qed.

Lemma load_lines_changes override ak ap lines :
  forall env k,
    snd (load_lines override ak ap lines env) k <> env k ->
    k <> "" /\ _is_allowed_key k ak ap = true
    /\ (override = false -> env k = None).
Proof.
  induction lines as [|raw lines IH]; intros env k H; [now contradiction H|].
  cbn [load_lines] in H. unfold bind in H.
  destruct (load_line_cases override ak ap raw env)
    as [Hsame|[Hraise|(key & value & Hne & Ha & Ho & Hset)]].
  - rewrite Hsame in H. now apply IH.
  - rewrite Hraise in H. now contradiction H.
  - rewrite Hset in H.
    destruct (option_string_dec (setenv key value env k) (env k)) as [E|E].
    + rewrite <- E in H. apply IH in H as (H1 & H2 & H3).
      split; [exact H1|]. split; [exact H2|].
      intros Hov. rewrite <- E. now apply H3.
    + destruct (string_dec k key) as [->|Hk]; [auto|].
      now rewrite setenv_other in E.
Qed.

Lemma load_dotenv_state file override ak ap env :
  snd (load_dotenv file override ak ap env)
  = match file with
    | Some lines => snd (load_lines override ak ap lines env)
    | None => env
    end.
Proof.
  destruct file as [lines|]; [|reflexivity].
  unfold load_dotenv, bind, ret.
  now destruct (load_lines override ak ap lines env) as [[[]|e] env'].
Qed.

(** X22.  Loading a file changes only variables that are allowed by the
    lists given, and without [override] only variables that were not
    set: what the process was started with is never replaced. *)
Theorem load_dotenv_changes file override ak ap env k :
  snd (load_dotenv file override ak ap env) k <> env k ->
  k <> "" /\ _is_allowed_key k ak ap = true
  /\ (override = false -> env k = None).
Proof.
  rewrite load_dotenv_state. destruct file as [lines|].
  - apply load_lines_changes.
  - intros H. now contradiction H.
Qed.

Lemma load_dotenv_changes_witness :
  let env := setenv "HOME" "/root" (fun _ => None) in
  let env' := snd (load_dotenv (Some ["# local settings";
                                      "export ALPHA_HUB_TOKEN = 'secret'";
                                      "HOME=/tmp"])
                               false None None env) in
  env' "ALPHA_HUB_TOKEN" = Some "secret"
  /\ env' "HOME" = Some "/root"
  /\ env "ALPHA_HUB_TOKEN" = None.
Proof.
  cbv zeta. split; [vm_compute; reflexivity|].
  split; [vm_compute; reflexivity|].
  refine (proj2 (proj2 (load_dotenv_changes
                          (Some ["# local settings";
                                 "export ALPHA_HUB_TOKEN = 'secret'";
                                 "HOME=/tmp"])
                          false None None
                          (setenv "HOME" "/root" (fun _ => None))
                          "ALPHA_HUB_TOKEN" _)) eq_refl).
  vm_compute. discriminate.
Defined.

Lemma load_dotenv_not_loaded file override ak ap env env' :
  load_dotenv file override ak ap env = (Ok false, env') -> env' = env.
Proof.
  destruct file as [lines|]; [|now intros [= <-]].
  unfold load_dotenv, bind, ret.
  destruct (load_lines override ak ap lines env) as [[[]|e] env''];
    discriminate.
Qed.

(** [load_dotenv_auto] loads at most one file. *)
Lemma load_dotenv_auto_one files cwd root env_file override ak ap env :
  exists file,
    snd (load_dotenv_auto files cwd root env_file override ak ap env)
    = snd (load_dotenv file override ak ap env).
Proof.
  unfold load_dotenv_auto. cbv zeta.
  set (env_path := if PyStr.truthy (env "ALPHA_HUB_ENV_FILE")
                   then env "ALPHA_HUB_ENV_FILE" else env_file).
  assert (Hrest :
            exists file,
              snd ((loaded <- load_dotenv (files (cwd ++ "/.env")%string)
                                          override ak ap ;;
                    if (loaded : bool)
                    then ret (Some (cwd ++ "/.env")%string)
                    else
                      match root with
                      | None => ret None
                      | Some r =>
                          fun env =>
                            match load_dotenv (files (r ++ "/.env")%string)
                                              override ak ap env with
                            | (Ok true, env') =>
                                (Ok (Some (r ++ "/.env")%string), env')
                            | (Ok false, env') => (Ok None, env')
                            | (Raised _, env') => (Ok None, env')
                            end
                      end)%M env)
              = snd (load_dotenv file override ak ap env)).
  { unfold bind.
    destruct (load_dotenv (files (cwd ++ "/.env")%string) override ak ap env)
      as [[[|]|e] env2] eqn:H2.
    - exists (files (cwd ++ "/.env")%string). now rewrite H2.
    - apply load_dotenv_not_loaded in H2 as ->. destruct root as [r|].
      + exists (files (r ++ "/.env")%string).
        now destruct (load_dotenv (files (r ++ "/.env")%string) override
                                  ak ap env) as [[[|]|e] env3].
      + exists None. reflexivity.
    - exists (files (cwd ++ "/.env")%string). now rewrite H2. }
  destruct (PyStr.truthy env_path).
  - unfold bind at 1.
    destruct (load_dotenv (files (PyStr.or_else env_path "")) override ak ap
                          env) as [[[|]|e] env1] eqn:H1.
    + exists (files (PyStr.or_else env_path "")). now rewrite H1.
    + apply load_dotenv_not_loaded in H1 as ->. exact Hrest.
    + exists (files (PyStr.or_else env_path "")). now rewrite H1.
  - unfold bind at 1. cbn [ret]. exact Hrest.
Qed.

(** X23.  At start-up a [.env] file can only set [ALPHA_HUB_TOKEN] and
    variables whose names start with [ALPHA_HUB_LLM_], and only when the
    environment of the process does not set them. *)
Theorem create_app_load_dotenv_changes files cwd root env k :
  snd (create_app_load_dotenv files cwd root env) k <> env k ->
  env k = None
  /\ (k = "ALPHA_HUB_TOKEN" \/ startswith k "ALPHA_HUB_LLM_" = true).
Proof.
  unfold create_app_load_dotenv.
  destruct (load_dotenv_auto_one
              files cwd root None false (Some ["ALPHA_HUB_TOKEN"])
              (Some ["ALPHA_HUB_LLM_"]) env) as (file & ->).
  intros H. rewrite load_dotenv_state in H.
  destruct file as [lines|]; [|now contradiction H].
  apply load_lines_changes in H as (_ & Ha & Ho).
  split; [now apply Ho|].
  cbn in Ha. rewrite !orb_false_r in Ha.
  apply orb_true_iff in Ha as [Ha|Ha]; [left|now right].
  now apply String.eqb_eq in Ha.
Qed.

Lemma create_app_load_dotenv_changes_witness :
  let files := fun path => if String.eqb path "/srv/hub/.env"
                           then Some ["ALPHA_HUB_LLM_MODE=remote";
                                      "PATH=/tmp"]
                           else None in
  let env := setenv "PATH" "/usr/bin" (fun _ => None) in
  let env' := snd (create_app_load_dotenv files "/srv/hub" None env) in
  env' "ALPHA_HUB_LLM_MODE" = Some "remote"
  /\ env' "PATH" = Some "/usr/bin"
  /\ env "ALPHA_HUB_LLM_MODE" = None.
Proof.
  cbv zeta. split; [vm_compute; reflexivity|].
  split; [vm_compute; reflexivity|].
  refine (proj1 (create_app_load_dotenv_changes
                   (fun path => if String.eqb path "/srv/hub/.env"
                                then Some ["ALPHA_HUB_LLM_MODE=remote";
                                           "PATH=/tmp"]
                                else None)
                   "/srv/hub" None
                   (setenv "PATH" "/usr/bin" (fun _ => None))
                   "ALPHA_HUB_LLM_MODE" _)).
  vm_compute. discriminate.
Defined.

(** ** One assignment *)

Lemma startswith_before_sep sep p :
  occurs sep p = false ->
  forall k v,
    startswith (k ++ String sep v) p = true -> startswith k p = true.
Proof.
  induction p as [|b p IH]; intros Hp k v H; [reflexivity|].
  cbn in Hp. apply orb_false_iff in Hp as [Hb Hp].
  destruct k as [|a k]; cbn in H |- *.
  - rewrite Ascii.eqb_sym, Hb in H. discriminate.
  - apply andb_true_iff in H as [Ha H]. rewrite Ha. cbn. eauto.
Qed.

Lemma strip_assignment key value :
  trimmed key -> key <> "" -> trimmed value ->
  strip (key ++ "=" ++ value) = (key ++ "=" ++ value)%string.
Proof.
  intros Hk Hne Hv.
  apply trimmed_parts in Hk as [Hkl _]. apply trimmed_parts in Hv as [_ Hvr].
  destruct key as [|c key]; [contradiction|].
  pose proof (lstrip_fixed_head _ _ Hkl) as Hc.
  unfold strip. cbn [append lstrip]. rewrite Hc.
  change (String c (key ++ String "=" value))
    with (String c key ++ String "=" value)%string.
  apply rstrip_app_fixed; [|discriminate].
  cbn [rstrip]. rewrite Hvr. now destruct value.
Qed.

(** X24.  A line [KEY=VALUE], the key and the value written without whitespace
    around them and the value without quotation marks, assigns the value
    to the variable when the key is allowed and either [override] is given
    or the variable is not set: the variable is set, unless the key or the
    value holds a NUL, for which the assignment raises [ValueError] and
    sets nothing. *)
Theorem load_line_assignment override ak ap key value env :
  trimmed key -> key <> "" -> occurs "=" key = false ->
  startswith key "#" = false -> startswith key "export " = false ->
  trimmed value ->
  startswith value dquote && endswith value dquote = false ->
  startswith value squote && endswith value squote = false ->
  _is_allowed_key key ak ap = true ->
  override = true \/ env key = None ->
  load_line override ak ap (key ++ "=" ++ value) env
  = if occurs NUL key || occurs NUL value
    then (Raised ValueError, env)
    else (Ok tt, setenv key value env).
Proof.
  intros Hk Hne Heq Hhash Hexp Hv Hdq Hsq Ha Ho.
  unfold load_line. rewrite (strip_assignment _ _ Hk Hne Hv).
  assert (Hline : (key ++ "=" ++ value)%string <> "")
    by (destruct key; [contradiction|discriminate]).
  apply String.eqb_neq in Hline. rewrite Hline.
  assert (H1 : startswith (key ++ "=" ++ value) "#" = false).
  { destruct (startswith (key ++ "=" ++ value) "#") eqn:E; [|reflexivity].
    apply (startswith_before_sep "=" "#" eq_refl) in E. congruence. }
  assert (H2 : startswith (key ++ "=" ++ value) "export " = false).
  { destruct (startswith (key ++ "=" ++ value) "export ") eqn:E;
      [|reflexivity].
    apply (startswith_before_sep "=" "export " eq_refl) in E. congruence. }
  rewrite H1, H2. cbn [orb].
  change (key ++ "=" ++ value)%string with (key ++ String "=" value)%string.
  rewrite (split_once_first "=" key value Heq).
  rewrite Hk, Hv. apply String.eqb_neq in Hne. rewrite Hne, Ha. cbn [negb].
  rewrite Hdq, Hsq. cbn [orb].
  assert (Hset : environ_setitem key value env
                 = if occurs NUL key || occurs NUL value
                   then (Raised ValueError, env)
                   else (Ok tt, setenv key value env)).
  { unfold environ_setitem. now rewrite Hne, Heq. }
  destruct Ho as [-> | ->]; [exact Hset|].
  rewrite andb_false_r. exact Hset.
Qed.

Lemma load_line_assignment_witness :
  snd (load_line false (Some ["ALPHA_HUB_TOKEN"]) None
                 "ALPHA_HUB_TOKEN=s3cret" (fun _ => None)) "ALPHA_HUB_TOKEN"
  = Some "s3cret"
  /\ fst (load_line false (Some ["ALPHA_HUB_TOKEN"]) None
                    ("ALPHA_HUB_TOKEN=" ++ String NUL "s3cret")
                    (fun _ => None))
     = Raised ValueError.
Proof.
  assert (H : load_line false (Some ["ALPHA_HUB_TOKEN"]) None
                        ("ALPHA_HUB_TOKEN" ++ "=" ++ "s3cret")
                        (fun _ => None)
               = (Ok tt, setenv "ALPHA_HUB_TOKEN" "s3cret" (fun _ => None)))
    by (apply load_line_assignment;
        first [reflexivity | discriminate | now right]).
  assert (H' : load_line false (Some ["ALPHA_HUB_TOKEN"]) None
                         ("ALPHA_HUB_TOKEN" ++ "=" ++ String NUL "s3cret")
                         (fun _ => None)
               = (Raised ValueError, fun _ => None))
    by (apply load_line_assignment;
        first [reflexivity | discriminate | now right]).
  split.
  - exact (f_equal (fun r => snd r "ALPHA_HUB_TOKEN") H).
  - exact (f_equal fst H').
Defined.

End DotenvFacts.


(* ===================================================================== *)
(** * More about api/ws.py *)
(* ===================================================================== *)

Module WsMore.

Import Orchestrator Ws WsSpec WsMoreSpec.

(** ** Received frames *)

Lemma handle_raw_outcomes raw s :
  let s' := after (handle_raw raw) s in
  (fst (handle_raw raw s) = Ok tt
   /\ unanswerable raw = false
   /\ turn_task s' = turn_task s
   /\ ((sent s' = sent s
        /\ ((turn_in_flight s = false
             /\ (exists call, tasks s' = tasks s ++ [(call, Running)])
             /\ current_task s' = Some (List.length (tasks s))
             /\ current_cancel s' = Some false
             /\ messages (world s') = messages (world s))
            \/ (turn_in_flight s = true
                /\ current_cancel s' = Some true
                /\ tasks s' = tasks s
                /\ current_task s' = current_task s
                /\ current_trace_id s' = current_trace_id s
                /\ world s' = world s)))
       \/ (exists tid code msg,
             sent s' = sent s ++ [rejection tid code msg]
             /\ In code rejection_codes
             /\ same_turn s s')))
  \/ (fst (handle_raw raw s) = Raised ValidationError
      /\ unanswerable raw = true
      /\ s' = s).
Proof.
  destruct s as [w pc snt tks ct cc ctid tt].
  unfold same_turn, rejection_codes, rejection.
  destruct raw as [| |msg|msg|[|x|[|]] e|[|x|[|]] ty]; cbv zeta;
    try (right; split; [reflexivity|]; split; reflexivity);
    left;
    unfold after, handle_raw, invalid_argument, start_turn, handle_cancel,
      error_frame, send_done, send_json, in_world, or_call, new_trace_id,
      new_id, publish_received, utc_now_iso, publish, bind, gets, modify, ret;
    cbn [world path_conversation_id sent tasks current_task current_cancel
         current_trace_id turn_task set_world set_sent set_tasks
         set_current_task set_current_cancel set_current_trace_id
         set_turn_task fst snd];
    repeat match goal with
           | |- context [if ?b then _ else _] => destruct b eqn:?
           end;
    cbn; (split; [reflexivity|]); (split; [reflexivity|]);
    (split; [reflexivity|]);
    first [ solve [ right; eexists _, _, _; split; [reflexivity|];
                    split; [cbn; tauto|]; repeat split; reflexivity ]
          | solve [ left; split; [reflexivity|]; left;
                    repeat split; eauto ]
          | solve [ left; split; [reflexivity|]; right;
                    match goal with
                    | H : _ || _ = false |- _ =>
                        apply orb_false_iff in H as [H _];
                        apply negb_false_iff in H
                    end;
                    repeat split; eauto ] ].
Qed.

Lemma step_receive raw s :
  fst (handle_raw raw s) = Ok tt ->
  after (step (Receive raw)) s
  = after arm_finish_turn (after (handle_raw raw) s).
Proof.
  intros Hok. unfold after, step, bind.
  destruct (handle_raw raw s) as [[[]|e] s1]; [reflexivity|discriminate].
Qed.

Lemma step_receive_result raw s :
  fst (step (Receive raw) s) = fst (handle_raw raw s).
Proof.
  unfold step, bind.
  destruct (handle_raw raw s) as [[[]|e] s1]; reflexivity.
Qed.

Lemma step_receive_raised raw s e :
  fst (handle_raw raw s) = Raised e ->
  after (step (Receive raw)) s = after (handle_raw raw) s.
Proof.
  intros H. unfold after, step, bind.
  destruct (handle_raw raw s) as [[[]|x] s1]; [discriminate|reflexivity].
Qed.

(** X25.  Whatever is received and whatever the state, the handler does one of
    four things.  It starts a turn: a new task runs, with a fresh
    cancellation event, and nothing is sent.  It accepts a cancel request:
    the event of the running turn is set and nothing else changes.  It
    answers with exactly one terminal frame of reason [error] whose code is
    [CONFLICT], [INVALID_ARGUMENT] or [NOT_FOUND], and then the tasks, the
    variables of the current turn and the table are untouched: a rejected
    frame never disturbs the turn that is running.  Or, the object being
    neither a valid [user_message] nor a valid [cancel] and its [trace_id]
    a truthy value that is no string, building the terminal frame raises
    [ValidationError]: nothing is sent, nothing is changed, and the
    exception ends the handler.  That is the only frame it ends on. *)
Theorem received_frame_outcomes raw s :
  let s' := after (step (Receive raw)) s in
  (fst (step (Receive raw) s) = Ok tt
   /\ unanswerable raw = false
   /\ ((sent s' = sent s
        /\ ((turn_in_flight s = false
             /\ (exists call, tasks s' = tasks s ++ [(call, Running)])
             /\ current_task s' = Some (List.length (tasks s))
             /\ current_cancel s' = Some false
             /\ messages (world s') = messages (world s))
            \/ (turn_in_flight s = true
                /\ current_cancel s' = Some true
                /\ tasks s' = tasks s
                /\ current_task s' = current_task s
                /\ current_trace_id s' = current_trace_id s
                /\ world s' = world s)))
       \/ (exists tid code msg,
             sent s' = sent s ++ [rejection tid code msg]
             /\ In code rejection_codes
             /\ same_turn s s')))
  \/ (fst (step (Receive raw) s) = Raised ValidationError
      /\ unanswerable raw = true
      /\ s' = s).
Proof.
  cbv zeta. rewrite step_receive_result.
  destruct (handle_raw_outcomes raw s)
    as [(Hok & Hun & _ & H)|(Hraise & Hun & Hs)].
  - left. split; [exact Hok|]. split; [exact Hun|].
    rewrite (step_receive raw s Hok).
    pose proof (WsFacts.arm_finish_turn_fields (after (handle_raw raw) s))
      as (Hs & Ht & Hw & Hct & Hcc & Htid).
    cbv zeta in Hs, Ht, Hw, Hct, Hcc, Htid.
    unfold same_turn in *. rewrite Hs, Ht, Hw, Hct, Hcc, Htid. exact H.
  - right. split; [exact Hraise|]. split; [exact Hun|].
    rewrite (step_receive_raised raw s ValidationError Hraise). exact Hs.
Qed.

(** ** What a session never takes back *)

Lemma nth_error_replaced_other {A} (l : list A) t t' y :
  t < List.length l -> t' <> t ->
  nth_error (firstn t l ++ y :: skipn (S t) l) t' = nth_error l t'.
Proof.
  revert l t'. induction t as [|t IH]; intros [|x l] t' Hlt H;
    cbn [List.length] in Hlt; try lia.
  - destruct t' as [|t']; [contradiction|reflexivity].
  - destruct t' as [|t']; [reflexivity|].
    cbn [firstn skipn app nth_error]. apply IH; [lia|congruence].
Qed.

Lemma finished_app s s' t r more :
  tasks s' = tasks s ++ more -> finished s t r -> finished s' t r.
Proof.
  intros E (call & H). exists call. rewrite E.
  rewrite nth_error_app1; [exact H|].
  apply nth_error_Some. congruence.
Qed.

Lemma finished_same s s' t r :
  tasks s' = tasks s -> finished s t r -> finished s' t r.
Proof. intros E (call & H). exists call. now rewrite E. Qed.

(** One event sends at most one frame, after those already sent, and
    leaves the results of the finished tasks alone. *)
Lemma step_history e s :
  exists frames,
    sent (after (step e) s) = sent s ++ frames
    /\ List.length frames <= 1
    /\ forall t r, finished s t r -> finished (after (step e) s) t r.
Proof.
  destruct e as [raw|t cb|t r|t x| |].
  - destruct (handle_raw_outcomes raw s)
      as [(Hok & _ & _ & H)|(Hraise & _ & Hsame)].
    2:{ rewrite (step_receive_raised raw s ValidationError Hraise).
        cbv zeta in Hsame. rewrite Hsame. exists [].
        rewrite app_nil_r. auto. }
    rewrite (step_receive raw s Hok).
    pose proof (WsFacts.arm_finish_turn_fields (after (handle_raw raw) s))
      as (Hs & Ht & _). cbv zeta in Hs, Ht.
    destruct H
      as [(Hsent & [(_ & (call & Htk) & _)|(_ & _ & Htk & _)])
         |(tid & code & msg & Hsent & _ & Htk & _)].
    + exists []. rewrite Hs, Hsent, app_nil_r. split; [reflexivity|].
      split; [cbn; lia|]. intros t r. apply finished_app with [(call, Running)].
      now rewrite Ht.
    + exists []. rewrite Hs, Hsent, app_nil_r. split; [reflexivity|].
      split; [cbn; lia|]. intros t r. apply finished_same. now rewrite Ht.
    + eexists. rewrite Hs, Hsent. split; [reflexivity|].
      split; [cbn; lia|]. intros t r. apply finished_same. now rewrite Ht.
  - unfold after, step, bind, gets.
    destruct (nth_error (tasks s) t) as [[call [|r'|x']]|]; cbn.
    + eexists [_]. split; [reflexivity|]. split; [cbn; lia|].
      intros t' r. now apply finished_same.
    + exists []. rewrite app_nil_r. auto.
    + exists []. rewrite app_nil_r. auto.
    + exists []. rewrite app_nil_r. auto.
  - exists []. rewrite app_nil_r. unfold after, step, modify. cbn [snd].
    destruct (nth_error (tasks s) t) as [[call [|r'|x']]|] eqn:Hn; auto.
    split; [reflexivity|]. split; [cbn; lia|].
    intros t' r0 (call' & H). exists call'. cbn [tasks set_tasks].
    destruct (Nat.eq_dec t' t) as [->|Hne]; [congruence|].
    rewrite nth_error_replaced_other; [exact H| |exact Hne].
    apply nth_error_Some. congruence.
  - exists []. rewrite app_nil_r. unfold after, step, modify. cbn [snd].
    destruct (nth_error (tasks s) t) as [[call [|r'|x']]|] eqn:Hn; auto.
    split; [reflexivity|]. split; [cbn; lia|].
    intros t' r0 (call' & H). exists call'. cbn [tasks set_tasks].
    destruct (Nat.eq_dec t' t) as [->|Hne]; [congruence|].
    rewrite nth_error_replaced_other; [exact H| |exact Hne].
    apply nth_error_Some. congruence.
  - unfold after, step, finish_turn_resume, bind, gets.
    destruct (turn_task s) as [[t| | |x]|]; cbn.
    + destruct (nth_error (tasks s) t) as [[call [|r'|x']]|]; cbn.
      * exists []. rewrite app_nil_r. auto.
      * eexists [_]. split; [reflexivity|]. split; [cbn; lia|].
        intros t' r. now apply finished_same.
      * exists []. rewrite app_nil_r. split; [reflexivity|].
        split; [cbn; lia|]. intros t' r. now apply finished_same.
      * exists []. rewrite app_nil_r. auto.
    + exists []. rewrite app_nil_r. split; [reflexivity|].
      split; [cbn; lia|]. intros t' r. now apply finished_same.
    + exists []. rewrite app_nil_r. auto.
    + exists []. rewrite app_nil_r. auto.
    + exists []. rewrite app_nil_r. auto.
  - exists []. rewrite app_nil_r.
    destruct s as [w pc snt tks [t|] cc ctid [[t'| | |x]|]]; cbn; auto.
Qed.

(** X26.  Over any sequence of events a session only adds to what it has sent,
    at most one frame per event, and a task that has returned keeps its
    result. *)
Theorem run_keeps_history evs :
  forall s,
  exists frames,
    sent (run evs s) = sent s ++ frames
    /\ List.length frames <= List.length evs
    /\ forall t r, finished s t r -> finished (run evs s) t r.
Proof.
  induction evs as [|e evs IH]; intros s.
  - exists []. rewrite app_nil_r. cbn. auto.
  - destruct (step_history e s) as (f1 & H1 & L1 & F1).
    destruct (WsFacts.run_cons_cases e evs s) as [-> | ->].
    + destruct (IH (after (step e) s)) as (f2 & H2 & L2 & F2).
      exists (f1 ++ f2). rewrite H2, H1, app_assoc.
      split; [reflexivity|]. split; [rewrite length_app; cbn; lia|].
      auto.
    + exists f1. split; [exact H1|]. split; [cbn; lia|exact F1].
Qed.

(** ** A start request that overtakes [finish_turn] *)

(** A start request with a conversation is accepted whenever no turn is
    in flight, whatever the variables of the current turn hold. *)
Lemma start_turn_accepts s msg :
  turn_in_flight s = false ->
  PyStr.truthy (resolve_conversation_id s (um_conversation_id msg)) = true ->
  let s' := after (step (Receive (UserMessage msg))) s in
  exists call,
    tasks s' = tasks s ++ [(call, Running)]
    /\ sent s' = sent s
    /\ current_task s' = Some (List.length (tasks s))
    /\ (turn_task s <> None -> turn_task s' = turn_task s)
    /\ current_trace_id s' = Some (call_trace_id call)
    /\ current_cancel s' = Some false
    /\ path_conversation_id s' = path_conversation_id s
    /\ (turn_task s = None
        -> turn_task s' = Some (AwaitingTask (List.length (tasks s)))).
Proof.
  intros Hfl Hcid. cbv zeta.
  rewrite step_receive by apply WsFacts.start_turn_ok.
  assert (H : exists call,
             tasks (after (handle_raw (UserMessage msg)) s)
             = tasks s ++ [(call, Running)]
             /\ sent (after (handle_raw (UserMessage msg)) s) = sent s
             /\ current_task (after (handle_raw (UserMessage msg)) s)
                = Some (List.length (tasks s))
             /\ turn_task (after (handle_raw (UserMessage msg)) s)
                = turn_task s
             /\ current_trace_id (after (handle_raw (UserMessage msg)) s)
                = Some (call_trace_id call)
             /\ current_cancel (after (handle_raw (UserMessage msg)) s)
                = Some false
             /\ path_conversation_id (after (handle_raw (UserMessage msg)) s)
                = path_conversation_id s).
  { remember (after (handle_raw (UserMessage msg)) s) as s1 eqn:E.
    unfold after, handle_raw, start_turn, bind at 1, gets in E.
    rewrite Hfl, Hcid in E. cbn [negb] in E.
    unfold in_world, or_call, new_trace_id, new_id, publish_received,
      utc_now_iso, publish, bind, modify, ret in E.
    destruct s as [w pc snt tks ct cc ctid tt].
    destruct (PyStr.truthy (um_trace_id msg)); cbn in E; subst s1; cbn;
      eexists; repeat split; reflexivity. }
  destruct H as (call & Ht & Hs & Hc & Htt & Hid & Hcc & Hpc). exists call.
  pose proof (WsFacts.arm_finish_turn_fields
                (after (handle_raw (UserMessage msg)) s))
    as (Hs' & Ht' & _ & Hc' & Hcc' & Hid').
  cbv zeta in Hs', Ht', Hc', Hcc', Hid'.
  rewrite Hs', Ht', Hc', Hid', Hcc'. split; [exact Ht|]. split; [exact Hs|].
  split; [exact Hc|].
  assert (Harm : forall x,
             after arm_finish_turn x
             = match current_task x, turn_task x with
               | Some t, None => set_turn_task x (Some (AwaitingTask t))
               | _, _ => x
               end) by reflexivity.
  rewrite Harm, Hc, Htt.
  split; [|split; [exact Hid|split; [exact Hcc|split]]].
  - intros Hne. destruct (turn_task s) eqn:E; [|congruence].
    now rewrite Htt.
  - destruct (turn_task s); exact Hpc.
  - intros ->. reflexivity.
Qed.

(** Once the task it awaits has returned, [finish_turn] sends the frame
    of the result and clears the three variables, whatever they hold by
    then. *)
Lemma finish_turn_completes s t call r :
  turn_task s = Some (AwaitingTask t) ->
  nth_error (tasks s) t = Some (call, Finished r) ->
  run [FinishResumes; FinishResumes; LoopCollects] s
  = set_turn_task
      (set_current_trace_id
         (set_current_cancel
            (set_current_task (set_sent s (sent s ++ [done_of_result r]))
                              None)
            None)
         None)
      None.
Proof.
  intros Htt Hn.
  rewrite (@WsFacts.run_cons FinishResumes _ s)
    by (apply WsFacts.step_proceeds; exact I).
  rewrite (@WsFacts.step_finish_sends s t call r Htt Hn).
  rewrite WsFacts.run_cons by (apply WsFacts.step_proceeds; exact I).
  rewrite WsFacts.step_finish_clears by reflexivity.
  rewrite WsFacts.run_cons by (apply WsFacts.step_proceeds; exact I).
  rewrite WsFacts.step_collects by reflexivity.
  reflexivity.
Qed.

(** The current task returns and a start request with a conversation is
    handled before [finish_turn] has gone on: the request is accepted, the
    variables are those of the new turn, and [finish_turn] still awaits
    the task that has returned. *)
Lemma start_overtakes s t tid r msg :
  turn_running s t tid -> turn_task s = Some (AwaitingTask t) ->
  PyStr.truthy (resolve_conversation_id s (um_conversation_id msg)) = true ->
  let new := List.length (tasks s) in
  let s1 := run [TaskReturns t r; Receive (UserMessage msg)] s in
  exists old call,
    nth_error (tasks s1) t = Some (old, Finished r)
    /\ nth_error (tasks s1) new = Some (call, Running)
    /\ List.length (tasks s1) = S new
    /\ sent s1 = sent s
    /\ current_task s1 = Some new
    /\ current_cancel s1 = Some false
    /\ current_trace_id s1 = Some (call_trace_id call)
    /\ turn_task s1 = Some (AwaitingTask t)
    /\ path_conversation_id s1 = path_conversation_id s.
Proof.
  intros (Hct & (old & Hnth) & Htid & Hne & Hcc & _) Htt Hcid. cbv zeta.
  assert (Hlt : t < List.length (tasks s))
    by (apply nth_error_Some; congruence).
  rewrite (@WsFacts.run_cons (TaskReturns t r) _ s)
    by (apply WsFacts.step_proceeds; exact I).
  pose proof (@WsFacts.step_task_returns s t old r Hnth) as Ha.
  set (sa := after (step (TaskReturns t r)) s) in *.
  rewrite (@WsFacts.run_cons (Receive (UserMessage msg)) _ sa)
    by (apply WsFacts.step_proceeds; exact I).
  change (run [] ?x) with x.
  assert (Hta : nth_error (tasks sa) t = Some (old, Finished r)).
  { rewrite Ha. cbn [tasks set_tasks].
    eapply WsFacts.nth_error_replaced; eauto. }
  assert (Hla : List.length (tasks sa) = List.length (tasks s)).
  { rewrite Ha. cbn [tasks set_tasks]. now apply WsFacts.length_replaced. }
  assert (Hfa : turn_in_flight sa = false).
  { unfold turn_in_flight, task_done. rewrite Ha.
    cbn [current_task tasks set_tasks]. rewrite Hct.
    rewrite Ha in Hta. cbn [tasks set_tasks] in Hta. now rewrite Hta. }
  assert (Hca : PyStr.truthy
                  (resolve_conversation_id sa (um_conversation_id msg))
                = true).
  { rewrite Ha. exact Hcid. }
  destruct (start_turn_accepts sa msg Hfa Hca)
    as (call & Htb & Hsb & Hcb & Httb & Hidb & Hccb & Hpcb & _).
  set (sb := after (step (Receive (UserMessage msg))) sa) in *.
  assert (Htta : turn_task sa = Some (AwaitingTask t))
    by (rewrite Ha; exact Htt).
  exists old, call.
  split; [rewrite Htb, nth_error_app1; [exact Hta|lia]|].
  split; [rewrite Htb, nth_error_app2, Hla, Nat.sub_diag by lia;
          reflexivity|].
  split; [rewrite Htb, length_app, Hla; cbn; lia|].
  split; [rewrite Hsb, Ha; reflexivity|].
  split; [rewrite Hcb, Hla; reflexivity|].
  split; [exact Hccb|]. split; [exact Hidb|].
  split; [rewrite Httb; [exact Htta|congruence]|].
  rewrite Hpcb, Ha. reflexivity.
Qed.

(** A cancel frame received while no task is current. *)
Lemma cancel_when_idle s c :
  current_task s = None ->
  sent (after (step (Receive (Cancel c))) s)
  = sent s ++ [rejection (cancel_trace_id c) "NOT_FOUND" "no running turn"].
Proof.
  intros Hct.
  rewrite step_receive by apply WsFacts.handle_cancel_ok.
  pose proof (WsFacts.arm_finish_turn_fields
                (after (handle_raw (Cancel c)) s)) as (Hs' & _).
  cbv zeta in Hs'. rewrite Hs'.
  unfold after, handle_raw, handle_cancel, bind, gets, turn_in_flight.
  rewrite Hct. reflexivity.
Qed.

(** X27.  The current task returns and, before [finish_turn] has gone on, a
    start request with a conversation is handled: it is accepted, and the
    turn it starts is lost.  [finish_turn] sends the frame of the turn that
    has returned and then clears the variables, which by now are those of
    the new turn.  The session is idle while the new task runs: a cancel
    request for it is answered [NOT_FOUND], and whatever the task returns,
    no frame is sent for it until the next frame is received. *)
Theorem start_overtaking_finish_turn_is_lost s t tid r msg r' c evs :
  turn_running s t tid -> turn_task s = Some (AwaitingTask t) ->
  PyStr.truthy (resolve_conversation_id s (um_conversation_id msg)) = true ->
  Forall quiet evs ->
  let new := List.length (tasks s) in
  let s' := run [TaskReturns t r; Receive (UserMessage msg);
                 FinishResumes; FinishResumes; LoopCollects] s in
  sent s' = sent s ++ [done_of_result r]
  /\ (exists call, nth_error (tasks s') new = Some (call, Running))
  /\ idle s'
  /\ sent (after (step (Receive (Cancel c))) s')
     = sent s' ++ [rejection (cancel_trace_id c) "NOT_FOUND"
                             "no running turn"]
  /\ sent (run (TaskReturns new r' :: evs) s') = sent s'.
Proof.
  intros Hrun Htt Hcid Hq. cbv zeta.
  destruct (start_overtakes s t tid r msg Hrun Htt Hcid)
    as (old & call & Hold & Hnew & _ & Hsent & _ & _ & _ & Htt1 & _).
  cbv zeta in Hold, Hnew, Hsent, Htt1.
  change [TaskReturns t r; Receive (UserMessage msg);
          FinishResumes; FinishResumes; LoopCollects]
    with ([TaskReturns t r; Receive (UserMessage msg)]
            ++ [FinishResumes; FinishResumes; LoopCollects]).
  rewrite WsFacts.run_app.
  2:{ cbn [main_loop]. unfold bind.
      destruct (step (TaskReturns t r) s) as [[[]|x] sa] eqn:Ea;
        [|discriminate Ea].
      pose proof (WsFacts.start_turn_ok msg sa) as Hok.
      pose proof (step_receive_result (UserMessage msg) sa) as Hres.
      cbn [handle_raw] in Hres. rewrite Hok in Hres.
      destruct (step (Receive (UserMessage msg)) sa) as [[[]|x] sb];
        [reflexivity|discriminate Hres]. }
  set (s1 := run [TaskReturns t r; Receive (UserMessage msg)] s) in *.
  rewrite (finish_turn_completes s1 t old r Htt1 Hold).
  set (se := set_turn_task _ None).
  assert (Hidle : idle se) by (unfold se, idle; cbn; auto).
  split; [unfold se; cbn; now rewrite Hsent|].
  split; [exists call; exact Hnew|].
  split; [exact Hidle|]. split.
  - apply cancel_when_idle. reflexivity.
  - apply (@WsFacts.idle_stays_quiet (TaskReturns (List.length (tasks s)) r'
                                       :: evs) se Hidle).
    constructor; [exact I|exact Hq].
Qed.

Lemma start_overtaking_finish_turn_is_lost_witness :
  let s' := run [TaskReturns 0 Examples.hello_cancelled;
                 Receive (UserMessage Examples.hello);
                 FinishResumes; FinishResumes; LoopCollects]
                Examples.running_session in
  turn_running Examples.running_session 0 Examples.hello_trace
  /\ sent s' = [done_of_result Examples.hello_cancelled]
  /\ sent (run [TaskReturns 1 Examples.hello_cancelled;
                FinishResumes; LoopCollects] s')
     = sent s'.
Proof.
  cbv zeta.
  pose proof WsFacts.running_session_turn_running as Hrun.
  split; [exact Hrun|].
  assert (Hq : Forall quiet [FinishResumes; LoopCollects])
    by (repeat constructor).
  destruct (start_overtaking_finish_turn_is_lost
              Examples.running_session 0 Examples.hello_trace
              Examples.hello_cancelled Examples.hello
              Examples.hello_cancelled (mkWsCancel "t" None)
              [FinishResumes; LoopCollects] Hrun eq_refl eq_refl Hq)
    as (Hsent & _ & _ & _ & Hlost).
  split; [exact Hsent|exact Hlost].
Defined.

(** ** A turn from start to finish *)

(** While its task runs, the callbacks of a turn become frames with the
    trace identifier of the turn, in order. *)
Lemma main_loop_callbacks t call cbs :
  forall s,
    nth_error (tasks s) t = Some (call, Running) ->
    main_loop (map (TaskCallback t) cbs) s
    = (Ok tt,
       set_sent s (sent s
                     ++ map (frame_of_callback (call_trace_id call)) cbs)).
Proof.
  induction cbs as [|cb cbs IH]; intros s Hn.
  - cbn. rewrite app_nil_r. now destruct s.
  - cbn [map main_loop]. unfold bind at 1.
    assert (E : step (TaskCallback t cb) s
                = (Ok tt,
                   set_sent s (sent s ++ [frame_of_callback
                                            (call_trace_id call) cb]))).
    { unfold step, bind, gets. now rewrite Hn. }
    rewrite E, IH by exact Hn. cbn. now rewrite <- app_assoc.
Qed.

(** X28.  From the idle state, a start request with a conversation, the
    callbacks of the turn and its return make the session send one frame
    per callback, in order and with the trace identifier of the turn, then
    exactly one terminal frame, the one of the result; after that the
    session is idle again and ready for the next turn. *)
Theorem turn_from_start_to_finish s msg cbs r :
  session_inv s -> idle s ->
  PyStr.truthy (resolve_conversation_id s (um_conversation_id msg)) = true ->
  let t := List.length (tasks s) in
  let s' := run (Receive (UserMessage msg)
                   :: map (TaskCallback t) cbs
                   ++ [TaskReturns t r; FinishResumes; FinishResumes;
                       LoopCollects]) s in
  exists tid,
    tid <> ""
    /\ (PyStr.truthy (um_trace_id msg) = true -> um_trace_id msg = Some tid)
    /\ sent s'
       = sent s ++ map (frame_of_callback tid) cbs ++ [done_of_result r]
    /\ idle s'
    /\ session_inv s'.
Proof.
  intros Hinv Hidle Hcid. cbv zeta.
  set (evs := Receive (UserMessage msg)
                :: map (TaskCallback (List.length (tasks s))) cbs
                ++ [TaskReturns (List.length (tasks s)) r; FinishResumes;
                    FinishResumes; LoopCollects]).
  assert (Hinv' : session_inv (run evs s))
    by (apply WsFacts.session_inv_run; exact Hinv).
  destruct (@WsFacts.start_turn_from_idle s msg Hinv Hidle Hcid)
    as (tid & Hrun & Htt & _ & Hsent).
  assert (Hfl : turn_in_flight s = false).
  { unfold turn_in_flight. destruct Hidle as (-> & _). reflexivity. }
  destruct (start_turn_accepts s msg Hfl Hcid)
    as (call & Htasks & _ & _ & _ & Hid & _).
  cbv zeta in Hid, Htasks.
  set (s1 := after (step (Receive (UserMessage msg))) s) in *.
  assert (Hcall : call_trace_id call = tid).
  { destruct Hrun as (_ & _ & Htid & _). congruence. }
  assert (Hn : nth_error (tasks s1) (List.length (tasks s))
               = Some (call, Running)).
  { rewrite Htasks, nth_error_app2, Nat.sub_diag by lia. reflexivity. }
  pose proof (main_loop_callbacks (List.length (tasks s)) call cbs s1 Hn)
    as Hcbs.
  rewrite Hcall in Hcbs.
  set (s2 := set_sent s1 (sent s1 ++ map (frame_of_callback tid) cbs)) in *.
  assert (Hevs : run evs s
                 = run [TaskReturns (List.length (tasks s)) r; FinishResumes;
                        FinishResumes; LoopCollects] s2).
  { unfold evs.
    rewrite (@WsFacts.run_cons (Receive (UserMessage msg)) _ s)
      by (apply WsFacts.step_proceeds; exact I).
    fold s1. rewrite WsFacts.run_app by (now rewrite Hcbs).
    unfold run at 2, after. now rewrite Hcbs. }
  rewrite Hevs in *.
  assert (Hrun2 : turn_running s2 (List.length (tasks s)) tid).
  { destruct Hrun as (H1 & H2 & H3 & H4 & H5 & H6).
    unfold turn_running, s2. cbn. auto 10. }
  destruct (@WsFacts.turn_finishes s2 (List.length (tasks s)) tid r Hrun2 Htt)
    as (Hs' & Hidle' & _).
  exists tid. split; [now destruct Hrun as (_ & _ & _ & Hne & _)|].
  split.
  { intros Ht. clear - Ht Hid Hcall Hidle Hcid.
    subst s1. rewrite step_receive in Hid by apply WsFacts.start_turn_ok.
    pose proof (WsFacts.arm_finish_turn_fields
                  (after (handle_raw (UserMessage msg)) s))
      as (_ & _ & _ & _ & _ & Hid').
    cbv zeta in Hid'. rewrite Hid' in Hid.
    unfold after, handle_raw, start_turn, bind at 1, gets in Hid.
    assert (Hfl : turn_in_flight s = false).
    { unfold turn_in_flight. destruct Hidle as (-> & _). reflexivity. }
    rewrite Hfl, Hcid in Hid. cbn [negb] in Hid.
    unfold in_world, or_call, new_trace_id, new_id, publish_received,
      utc_now_iso, publish, bind, modify, ret in Hid.
    rewrite Ht in Hid. destruct s. cbn in Hid.
    destruct (um_trace_id msg) as [x|]; [|discriminate].
    cbn in Ht, Hid. destruct (String.eqb x ""); [discriminate|]. congruence. }
  split; [|split; [exact Hidle'|exact Hinv']].
  rewrite Hs'. unfold s2. cbn [sent set_sent]. rewrite Hsent.
  now rewrite <- app_assoc.
Qed.

Lemma turn_from_start_to_finish_witness :
  let s := accept Examples.empty_world (Some "c1") in
  let s' := run [Receive (UserMessage Examples.hello);
                 TaskCallback 0 (OnStatus "queued");
                 TaskReturns 0 Examples.hello_cancelled;
                 FinishResumes; FinishResumes; LoopCollects] s in
  session_inv s /\ idle s
  /\ sent s' = [AssistantStatus Examples.hello_trace "queued";
                done_of_result Examples.hello_cancelled]
  /\ idle s'.
Proof.
  cbv zeta.
  assert (Hinv : session_inv (accept Examples.empty_world (Some "c1"))).
  { split; [|cbn; auto].
    intros n. do 9 (destruct n as [|n]; [discriminate|]). discriminate. }
  assert (Hidle : idle (accept Examples.empty_world (Some "c1")))
    by (unfold idle; cbn; auto).
  split; [exact Hinv|]. split; [exact Hidle|].
  destruct (turn_from_start_to_finish
              (accept Examples.empty_world (Some "c1")) Examples.hello
              [OnStatus "queued"] Examples.hello_cancelled
              Hinv Hidle eq_refl)
    as (tid & _ & _ & _ & Hidle' & _).
  split; [vm_compute; reflexivity|exact Hidle'].
Defined.

(** ** Requests received while a turn runs *)

Lemma running_same s s' t :
  tasks s' = tasks s -> running s t -> running s' t.
Proof. intros E (call & H). exists call. now rewrite E. Qed.

(** A task that raises: [finish_turn] ends with its exception, and
    collecting [finish_turn] ends the handler; no terminal frame is
    sent. *)
Lemma raising_turn_ends_handler s t call e :
  nth_error (tasks s) t = Some (call, Running) ->
  turn_task s = Some (AwaitingTask t) ->
  fst (main_loop [TaskRaises t e; FinishResumes; LoopCollects] s) = Raised e
  /\ sent (run [TaskRaises t e; FinishResumes; LoopCollects] s) = sent s.
Proof.
  intros Hn Htt.
  assert (Hlt : t < List.length (tasks s))
    by (apply nth_error_Some; congruence).
  assert (Hn' : nth_error (firstn t (tasks s)
                             ++ (call, Crashed e) :: skipn (S t) (tasks s)) t
                = Some (call, Crashed e))
    by (eapply WsFacts.nth_error_replaced; eauto).
  set (sa := set_tasks s (firstn t (tasks s)
                            ++ (call, Crashed e) :: skipn (S t) (tasks s))).
  assert (E1 : step (TaskRaises t e) s = (Ok tt, sa)).
  { unfold step, modify. now rewrite Hn. }
  assert (E2 : step FinishResumes sa
               = (Ok tt, set_turn_task sa (Some (Reraised e)))).
  { unfold step, finish_turn_resume, bind, gets, modify.
    change (turn_task sa) with (turn_task s). rewrite Htt.
    change (tasks sa)
      with (firstn t (tasks s) ++ (call, Crashed e) :: skipn (S t) (tasks s)).
    now rewrite Hn'. }
  assert (E3 : step LoopCollects (set_turn_task sa (Some (Reraised e)))
               = (Raised e, set_turn_task sa (Some (Reraised e))))
    by reflexivity.
  unfold run, after. cbn [main_loop]. unfold bind. rewrite E1, E2, E3.
  split; reflexivity.
Qed.

(** C5.  Whether a start request is answered [CONFLICT] is decided by the
    guard of [start_turn], and the guard does not follow the turns that
    run.  The current task returns and a start request is handled before
    [finish_turn] has gone on: the request is accepted with nothing sent,
    and a second turn runs.  [finish_turn] then sends the terminal frame
    of the first turn and clears the variables, which are those of the
    second: the second turn runs in an idle session.  A third start
    request is accepted as well, with no [CONFLICT]: two turns run at
    once, the second is disturbed no less than ignored, and when both
    have returned one terminal frame has been sent, the one of the third.
    And a turn whose task raises gets no terminal frame at all: the
    handler ends with the exception. *)
Theorem start_request_while_turn_runs s t tid r msg msg' :
  turn_running s t tid -> turn_task s = Some (AwaitingTask t) ->
  PyStr.truthy (resolve_conversation_id s (um_conversation_id msg)) = true ->
  PyStr.truthy (resolve_conversation_id s (um_conversation_id msg')) = true ->
  let second := List.length (tasks s) in
  let third := S second in
  let s1 := run [TaskReturns t r; Receive (UserMessage msg)] s in
  let s2 := run [FinishResumes; FinishResumes; LoopCollects] s1 in
  let s3 := after (step (Receive (UserMessage msg'))) s2 in
  (sent s1 = sent s /\ running s1 second)
  /\ (sent s2 = sent s ++ [done_of_result r]
      /\ running s2 second /\ idle s2 /\ turn_in_flight s2 = false)
  /\ (sent s3 = sent s2
      /\ running s3 second /\ running s3 third
      /\ current_task s3 = Some third)
  /\ (forall r2 r3,
         let s4 := run [TaskReturns second r2; TaskReturns third r3;
                        FinishResumes; FinishResumes; LoopCollects] s3 in
         sent s4 = sent s3 ++ [done_of_result r3]
         /\ idle s4
         /\ finished s4 second r2)
  /\ (forall e,
         fst (main_loop [TaskRaises t e; FinishResumes; LoopCollects] s)
         = Raised e
         /\ sent (run [TaskRaises t e; FinishResumes; LoopCollects] s)
            = sent s).
Proof.
  intros Hrun Htt Hcid Hcid'. cbv zeta.
  destruct (start_overtakes s t tid r msg Hrun Htt Hcid)
    as (old & call & Hold & Hnew & Hlen & Hsent & Hct1 & _ & _ & Htt1 & Hpc).
  cbv zeta in Hold, Hnew, Hlen, Hsent, Hct1, Htt1, Hpc.
  set (s1 := run [TaskReturns t r; Receive (UserMessage msg)] s) in *.
  rewrite (finish_turn_completes s1 t old r Htt1 Hold).
  set (s2 := set_turn_task _ None).
  assert (Ht2 : tasks s2 = tasks s1) by reflexivity.
  assert (Hidle : idle s2) by (unfold s2, idle; cbn; auto).
  assert (Hfl : turn_in_flight s2 = false) by reflexivity.
  assert (Hc2 : PyStr.truthy
                  (resolve_conversation_id s2 (um_conversation_id msg'))
                = true).
  { unfold resolve_conversation_id in *.
    change (path_conversation_id s2) with (path_conversation_id s1).
    now rewrite Hpc. }
  destruct (start_turn_accepts s2 msg' Hfl Hc2)
    as (call3 & Htk3 & Hsent3 & Hct3 & _ & _ & _ & _ & Htt3).
  cbv zeta in Htk3, Hsent3, Hct3, Htt3.
  specialize (Htt3 eq_refl).
  set (s3 := after (step (Receive (UserMessage msg'))) s2) in *.
  rewrite Ht2, Hlen in Hct3, Htt3.
  assert (Hn3 : nth_error (tasks s3) (List.length (tasks s))
                = Some (call, Running)).
  { rewrite Htk3, Ht2, nth_error_app1; [exact Hnew|lia]. }
  assert (Hn3' : nth_error (tasks s3) (S (List.length (tasks s)))
                 = Some (call3, Running)).
  { rewrite Htk3, Ht2, nth_error_app2 by lia.
    rewrite Hlen, Nat.sub_diag. reflexivity. }
  split; [split; [exact Hsent|exists call; exact Hnew]|].
  split.
  { split; [unfold s2; cbn; now rewrite Hsent|].
    split; [exists call; exact Hnew|]. split; [exact Hidle|exact Hfl]. }
  split.
  { split; [exact Hsent3|]. split; [exists call; exact Hn3|].
    split; [exists call3; exact Hn3'|exact Hct3]. }
  split.
  - intros r2 r3.
    assert (Hl3 : List.length (tasks s3) = S (S (List.length (tasks s)))).
    { rewrite Htk3, length_app, Ht2, Hlen. cbn. lia. }
    rewrite (@WsFacts.run_cons (TaskReturns (List.length (tasks s)) r2) _ s3)
      by (apply WsFacts.step_proceeds; exact I).
    rewrite (@WsFacts.step_task_returns s3 _ call r2 Hn3).
    set (sa := set_tasks s3 _).
    assert (Hna : nth_error (tasks sa) (S (List.length (tasks s)))
                  = Some (call3, Running)).
    { unfold sa. cbn [tasks set_tasks].
      rewrite nth_error_replaced_other; [exact Hn3'|lia|lia]. }
    assert (Hna' : nth_error (tasks sa) (List.length (tasks s))
                   = Some (call, Finished r2)).
    { unfold sa. cbn [tasks set_tasks].
      eapply WsFacts.nth_error_replaced; eauto. }
    assert (Hla : List.length (tasks sa) = S (S (List.length (tasks s)))).
    { unfold sa. cbn [tasks set_tasks].
      rewrite WsFacts.length_replaced; [exact Hl3|lia]. }
    rewrite (@WsFacts.run_cons
               (TaskReturns (S (List.length (tasks s))) r3) _ sa)
      by (apply WsFacts.step_proceeds; exact I).
    rewrite (@WsFacts.step_task_returns sa _ call3 r3 Hna).
    set (sb := set_tasks sa _).
    assert (Hnb : nth_error (tasks sb) (S (List.length (tasks s)))
                  = Some (call3, Finished r3)).
    { unfold sb. cbn [tasks set_tasks].
      eapply WsFacts.nth_error_replaced; eauto. }
    assert (Hnb' : nth_error (tasks sb) (List.length (tasks s))
                   = Some (call, Finished r2)).
    { unfold sb. cbn [tasks set_tasks].
      rewrite nth_error_replaced_other; [exact Hna'|lia|lia]. }
    assert (Httb : turn_task sb = Some (AwaitingTask (S (List.length (tasks s)))))
      by exact Htt3.
    rewrite (finish_turn_completes sb _ call3 r3 Httb Hnb).
    split; [reflexivity|]. split; [unfold idle; cbn; auto|].
    exists call. exact Hnb'.
  - intros e. destruct Hrun as (_ & (call0 & Hn0) & _).
    exact (raising_turn_ends_handler s t call0 e Hn0 Htt).
Qed.

Lemma start_request_while_turn_runs_witness :
  let s := Examples.running_session in
  let s2 := run [FinishResumes; FinishResumes; LoopCollects]
                (run [TaskReturns 0 Examples.hello_cancelled;
                      Receive (UserMessage Examples.hello)] s) in
  let s3 := after (step (Receive (UserMessage Examples.hello))) s2 in
  turn_running s 0 Examples.hello_trace
  /\ running s2 1 /\ idle s2
  /\ sent s3 = [done_of_result Examples.hello_cancelled]
  /\ running s3 1 /\ running s3 2.
Proof.
  cbv zeta.
  pose proof WsFacts.running_session_turn_running as Hrun.
  split; [exact Hrun|].
  destruct (start_request_while_turn_runs
              Examples.running_session 0 Examples.hello_trace
              Examples.hello_cancelled Examples.hello Examples.hello
              Hrun eq_refl eq_refl eq_refl)
    as (_ & (Hs2 & Hr2 & Hi2 & _) & (Hs3 & Hr3 & Hr3' & _) & _).
  split; [exact Hr2|]. split; [exact Hi2|].
  split; [rewrite Hs3; exact Hs2|]. split; [exact Hr3|exact Hr3'].
Defined.

(** C7.  Whether a cancel frame is accepted is decided by the variables
    of the session, which need not be those of the turn that runs.  The
    current task returns and a start request is handled before
    [finish_turn] has gone on, so that a second turn runs.  A cancel frame
    with the [trace_id] of the second turn is accepted: the event is set
    and nothing is sent.  But a terminal frame follows before the call of
    the cancelled turn has returned, the one [finish_turn] sends for the
    first turn; [finish_turn] then clears the variables, and whatever the
    cancelled turn returns, no terminal frame is sent for it.  Received
    after [finish_turn] has cleared the variables, the same cancel frame
    is answered [NOT_FOUND] although the turn it names is running. *)
Theorem cancel_request_while_turn_runs s t tid r msg reason :
  turn_running s t tid -> turn_task s = Some (AwaitingTask t) ->
  PyStr.truthy (resolve_conversation_id s (um_conversation_id msg)) = true ->
  let second := List.length (tasks s) in
  let s1 := run [TaskReturns t r; Receive (UserMessage msg)] s in
  exists call,
    nth_error (tasks s1) second = Some (call, Running)
    /\ current_trace_id s1 = Some (call_trace_id call)
    /\ let c := mkWsCancel (call_trace_id call) reason in
       let s2 := after (step (Receive (Cancel c))) s1 in
       let s3 := run [FinishResumes; FinishResumes; LoopCollects] s2 in
       let s3' := run [FinishResumes; FinishResumes; LoopCollects] s1 in
       (current_cancel s2 = Some true /\ sent s2 = sent s1
        /\ running s2 second)
       /\ (sent s3 = sent s2 ++ [done_of_result r]
           /\ running s3 second /\ idle s3)
       /\ (forall r' evs,
              Forall quiet evs ->
              sent (run (TaskReturns second r' :: evs) s3) = sent s3)
       /\ (running s3' second
           /\ sent (after (step (Receive (Cancel c))) s3')
              = sent s3' ++ [rejection (call_trace_id call) "NOT_FOUND"
                                       "no running turn"]).
Proof.
  intros Hrun Htt Hcid. cbv zeta.
  destruct (start_overtakes s t tid r msg Hrun Htt Hcid)
    as (old & call & Hold & Hnew & Hlen & Hsent & Hct1 & Hcc1 & Hid1 & Htt1
        & _).
  cbv zeta in Hold, Hnew, Hlen, Hsent, Hct1, Hcc1, Hid1, Htt1.
  set (s1 := run [TaskReturns t r; Receive (UserMessage msg)] s) in *.
  exists call. split; [exact Hnew|]. split; [exact Hid1|].
  set (c := mkWsCancel (call_trace_id call) reason).
  assert (Hs2 : after (step (Receive (Cancel c))) s1
                = set_current_cancel s1 (Some true)).
  { rewrite step_receive by apply WsFacts.handle_cancel_ok.
    assert (Hc : after (handle_raw (Cancel c)) s1
                 = set_current_cancel s1 (Some true)).
    { unfold after, handle_raw, handle_cancel, bind, gets, turn_in_flight,
        task_done.
      rewrite Hct1, Hnew, Hcc1, Hid1. cbn [negb orb cancel_trace_id c].
      assert (E : PyStr.opt_eqb (Some (call_trace_id call))
                                (Some (call_trace_id call)) = true)
        by (cbn; apply String.eqb_refl).
      rewrite E. cbn [negb]. rewrite andb_false_r. reflexivity. }
    rewrite Hc. unfold after, arm_finish_turn, modify. cbn [snd].
    cbn [current_task turn_task set_current_cancel].
    rewrite Hct1, Htt1. reflexivity. }
  rewrite Hs2.
  set (s2 := set_current_cancel s1 (Some true)).
  assert (Htt2 : turn_task s2 = Some (AwaitingTask t)) by exact Htt1.
  assert (Hold2 : nth_error (tasks s2) t = Some (old, Finished r))
    by exact Hold.
  rewrite (finish_turn_completes s2 t old r Htt2 Hold2).
  rewrite (finish_turn_completes s1 t old r Htt1 Hold).
  split; [split; [reflexivity|split; [reflexivity|exists call; exact Hnew]]|].
  split.
  { split; [reflexivity|]. split; [exists call; exact Hnew|].
    unfold idle. cbn. auto. }
  split.
  - intros r' evs Hq.
    apply (@WsFacts.idle_stays_quiet
             (TaskReturns (List.length (tasks s)) r' :: evs)).
    + unfold idle. cbn. auto.
    + constructor; [exact I|exact Hq].
  - split; [exists call; exact Hnew|].
    apply (cancel_when_idle _ c). reflexivity.
Qed.

Lemma cancel_request_while_turn_runs_witness :
  let s := Examples.running_session in
  let s1 := run [TaskReturns 0 Examples.hello_cancelled;
                 Receive (UserMessage Examples.hello)] s in
  turn_running s 0 Examples.hello_trace
  /\ exists call,
      nth_error (tasks s1) 1 = Some (call, Running)
      /\ let c := mkWsCancel (call_trace_id call) None in
         let s3' := run [FinishResumes; FinishResumes; LoopCollects] s1 in
         sent (after (step (Receive (Cancel c))) s3')
         = sent s3' ++ [rejection (call_trace_id call) "NOT_FOUND"
                                  "no running turn"].
Proof.
  cbv zeta.
  pose proof WsFacts.running_session_turn_running as Hrun.
  split; [exact Hrun|].
  destruct (cancel_request_while_turn_runs
              Examples.running_session 0 Examples.hello_trace
              Examples.hello_cancelled Examples.hello None
              Hrun eq_refl eq_refl)
    as (call & Hn & _ & _ & _ & _ & _ & Hrej).
  exists call. split; [exact Hn|exact Hrej].
Defined.

End WsMore.
